(** * push-cli: transport, message store and ingestion pipeline

    A shallow embedding of the Go sources of push-cli
    (internal/pushover, internal/db, internal/messages, internal/config,
    internal/mcp, internal/cli) together with the properties of its
    specification.

    Conventions of the embedding
    - Go [int] and [int64] values are [Z]; no arithmetic of the embedded
      code can leave the 64-bit range (counters bounded by slice lengths,
      comparisons only), so no wrap-around is written out.
    - Go [string] is [string] (a sequence of bytes).
    - [time.Time] is the instant it denotes, see [Time].
    - Go [error] is the inductive [error]; [nil] is [None].
    - The SQL driver, the HTTP exchange, the clock and the cancellation
      signal are the environment: each function that talks to them takes
      a record describing how the environment answers.
    - The prompter, [config.Save], [openStore], [loadConfig] and
      [dateparse.ParseLocal] are passed to the commands as their
      outcomes or as functions. *)

From Stdlib Require Import ZArith List String Ascii Bool Lia Arith.
From Stdlib Require Import Sorting.Sorted Sorting.Permutation DecimalString.
Import ListNotations.

Open Scope string_scope.
Open Scope list_scope.
Open Scope Z_scope.

(* ------------------------------------------------------------------ *)
(** ** Go errors *)

(** [errorString] is [errors.New] (and [fmt.Errorf] without [%w]);
    [wrapError p e] is [fmt.Errorf(p ++ "%w", e)].  Sentinel values, which
    Go compares by identity, have a constructor of their own. *)
Inductive error : Type :=
| errorString (s : string)
| wrapError (prefix : string) (inner : error)
| ctxError (deadline : bool)           (* context.Canceled / DeadlineExceeded *)
| ErrTwoFactorRequired                 (* var ErrTwoFactorRequired = errors.New(...) *)
| APIError (Status : Z) (RequestID : string) (Messages : list string).

Definition itoa (z : Z) : string := NilZero.string_of_int (Z.to_int z).

(** strings.Join *)
Fixpoint Join (l : list string) (sep : string) : string :=
  match l with
  | [] => ""
  | [x] => x
  | x :: r => (x ++ sep ++ Join r sep)%string
  end.

(** The [Error()] method. *)
Fixpoint Error (e : error) : string :=
  match e with
  | errorString s => s
  | wrapError p inner => (p ++ Error inner)%string
  | ctxError false => "context canceled"
  | ctxError true => "context deadline exceeded"
  | ErrTwoFactorRequired => "pushover: two-factor authentication required"
  | APIError st rq msgs =>
      match msgs with
      | [] => ("pushover API error (status=" ++ itoa st ++ ", request=" ++ rq ++ ")")%string
      | _ => ("pushover API error: " ++ Join msgs "; ")%string
      end
  end.

(** [errors.Is(err, ErrTwoFactorRequired)]: the sentinel itself, or an
    error wrapping it. *)
Fixpoint IsTwoFactorRequired (err : error) : bool :=
  match err with
  | ErrTwoFactorRequired => true
  | wrapError _ inner => IsTwoFactorRequired inner
  | _ => false
  end.

(* ------------------------------------------------------------------ *)
(** ** time.Time *)

Module Time.

(** An instant, in nanoseconds counted from Go's zero time
    (January 1, year 1, 00:00:00 UTC).  A location only changes how an
    instant is printed, so [UTC] keeps the instant. *)
Definition t : Type := Z.

Definition IsZero (x : t) : bool := x =? 0.
Definition UTC (x : t) : t := x.

(** Seconds between the zero time and the Unix epoch. *)
Definition unixToInternal : Z := 62135596800.

(** time.Unix(sec, nsec) *)
Definition Unix (sec nsec : Z) : t := (sec + unixToInternal) * 1000000000 + nsec.

Definition Second : Z := 1000000000.

(** t.Unix() *)
Definition ToUnix (x : t) : Z := x / 1000000000 - unixToInternal.

End Time.

(* ------------------------------------------------------------------ *)
(** ** internal/db: the message store *)

Module db.

(** MessageRecord mirrors the messages table schema. *)
Record MessageRecord : Type := mkMessageRecord {
  ID : Z;
  PushoverID : Z;
  UMID : string;
  Title : string;
  Message : string;
  App : string;
  AID : string;
  Icon : string;
  ReceivedAt : Time.t;
  SentAt : option Time.t;
  Priority : Z;
  URL : string;
  Acked : bool;
  HTML : bool
}.

(** SentRecord mirrors the sent table. *)
Record SentRecord : Type := mkSentRecord {
  sID : Z;
  sMessage : string;
  sTitle : string;
  sDevice : string;
  sPriority : Z;
  sSentAt : Time.t;
  sRequestID : string
}.

(** The thirteen values bound to the INSERT of [PersistMessages], in
    the order of its column list. *)
Record InsertArgs : Type := mkInsertArgs {
  a_pushover_id : Z;
  a_umid : string;
  a_title : string;
  a_message : string;
  a_app : string;
  a_aid : string;
  a_icon : string;
  a_received_at : Time.t;
  a_sent_at : option Time.t;
  a_priority : Z;
  a_url : string;
  a_acked : Z;
  a_html : Z
}.

(** A row of table [messages] (schema of [migrate]): the rowid and the
    thirteen columns written by the INSERT. *)
Record Row : Type := mkRow {
  id : Z;
  cols : InsertArgs
}.

Definition pushover_id (r : Row) : Z := a_pushover_id (cols r).
Definition received_at (r : Row) : Time.t := a_received_at (cols r).

(** A row of table [sent]. *)
Record SentRow : Type := mkSentRow {
  sent_id : Z;
  sent_message : string;
  sent_title : string;
  sent_device : string;
  sent_priority : Z;
  sent_sent_at : Time.t;
  sent_request_id : string
}.

(** What the store asks of the SQL layer, in order of the calls. *)
Inductive SqlOp : Type :=
| OpBeginTx
| OpPrepare
| OpStmtExec (args : InsertArgs)
| OpCommit
| OpRollback
| OpExecSent
| OpQuery
| OpClose.

(** The state behind a [*sql.DB] handle: the committed content of the
    two tables, whether the handle was closed, and the calls made on
    it so far (most recent last). *)
Record DB : Type := mkDB {
  messages : list Row;
  sent : list SentRow;
  closed : bool;
  journal : list SqlOp
}.

(** [*Store]: a nil pointer, a Store whose [sql] field is nil, or a
    Store holding a handle. *)
Inductive Store : Type :=
| NilStore
| NoHandle
| Handle (d : DB).

(** How the SQL layer answers.  [Some e] makes the call fail with [e].
    [exec_err k] and [now k] are consulted for the k-th record of a
    batch (from 0), [scan_err k] for the k-th row of a result set;
    [now] is [time.Now()].  [uncommitted_visible] tells what the handle
    shows after a Commit that failed: the code issues no Rollback then,
    and SQLite keeps the transaction open on its connection when the
    Commit fails with SQLITE_BUSY, so that the next statement on the
    handle sees the rows of the transaction. *)
Record Driver : Type := mkDriver {
  begin_err : option error;
  prepare_err : option error;
  exec_err : nat -> option error;
  commit_err : option error;
  uncommitted_visible : bool;
  sent_err : option error;
  query_err : option error;
  scan_err : nat -> option error;
  rows_err : option error;
  now : nat -> Time.t
}.

(** database/sql refuses every call on a closed handle. *)
Definition errDBClosed : error := errorString "sql: database is closed".

Definition errNotInitialized : error := errorString "database not initialized".

Definition log (op : SqlOp) (d : DB) : DB :=
  mkDB (messages d) (sent d) (closed d) (journal d ++ [op]).

Definition boolToInt (v : bool) : Z := if v then 1 else 0.

(** *** SQL: INSERT ... ON CONFLICT(pushover_id) DO UPDATE *)

(** rowid of a fresh row of an INTEGER PRIMARY KEY table: one more than
    the largest rowid in use, 1 in an empty table. *)
Definition next_rowid (tbl : list Row) : Z :=
  fold_right (fun r m => Z.max (id r) m) 0 tbl + 1.

Definition has_pushover_id (p : Z) (tbl : list Row) : bool :=
  existsb (fun r => pushover_id r =? p) tbl.

(** The conflict branch: the row keeps its rowid, every other column is
    set from the excluded row. *)
Definition do_update (a : InsertArgs) (r : Row) : Row :=
  if pushover_id r =? a_pushover_id a then mkRow (id r) a else r.

Definition upsert (tbl : list Row) (a : InsertArgs) : list Row :=
  if has_pushover_id (a_pushover_id a) tbl
  then map (do_update a) tbl
  else tbl ++ [mkRow (next_rowid tbl) a].

(** *** Store.Close *)
Definition Close (s : Store) : option error * Store :=
  match s with
  | NilStore => (None, NilStore)
  | NoHandle => (None, NoHandle)
  | Handle d =>
      (None, Handle (mkDB (messages d) (sent d) true (journal d ++ [OpClose])))
  end.

(** *** Store.PersistMessages *)

(** The arguments of [stmt.ExecContext] for the k-th record. *)
Definition insert_args (drv : Driver) (k : nat) (msg : MessageRecord) : InsertArgs :=
  let received := if Time.IsZero (ReceivedAt msg) then now drv k else ReceivedAt msg in
  let sent := match SentAt msg with
              | Some t => Some (Time.UTC t)
              | None => None
              end in
  mkInsertArgs (PushoverID msg) (UMID msg) (Title msg) (Message msg)
               (App msg) (AID msg) (Icon msg) (Time.UTC received) sent
               (Priority msg) (URL msg) (boolToInt (Acked msg)) (boolToInt (HTML msg)).

(** A transaction in progress: the content of [messages] as the
    transaction sees it, and the calls journalled meanwhile.  The
    table behind the handle is untouched until [Commit]. *)
Record Tx : Type := mkTx {
  working : list Row;
  tx_journal : list SqlOp
}.

(** The loop [for _, msg := range msgs] from record number [k] on;
    [inserted] is the counter of the same name.  [inl] is the early
    return of the loop (after [tx.Rollback()]), [inr] falls through to
    [tx.Commit()]. *)
Fixpoint insert_loop (drv : Driver) (k : nat) (msgs : list MessageRecord)
         (tx : Tx) (inserted : Z) : (Z * error * Tx) + (Z * Tx) :=
  match msgs with
  | [] => inr (inserted, tx)
  | msg :: rest =>
      let a := insert_args drv k msg in
      let j := tx_journal tx ++ [OpStmtExec a] in
      match exec_err drv k with
      | Some err =>
          inl (inserted, wrapError "insert message: " err,
               mkTx (working tx) (j ++ [OpRollback]))
      | None =>
          insert_loop drv (S k) rest (mkTx (upsert (working tx) a) j) (inserted + 1)
      end
  end.

Definition with_journal (d : DB) (j : list SqlOp) : DB :=
  mkDB (messages d) (sent d) (closed d) j.

(** PersistMessages inserts the provided message records.  Returns the
    count, the error and the store afterwards.  The statements run in
    one transaction of the SQL layer: a Rollback discards what they
    did.  After a Commit that reports an error the function returns
    without a Rollback, and the handle shows what the SQL layer left:
    the table as it was, or the rows of the transaction
    ([uncommitted_visible]). *)
Definition PersistMessages (drv : Driver) (s : Store) (msgs : list MessageRecord)
  : Z * option error * Store :=
  match s with
  | NilStore | NoHandle => (0, Some errNotInitialized, s)
  | Handle d =>
      match msgs with
      | [] => (0, None, s)
      | _ :: _ =>
          let begun := if closed d then Some errDBClosed else begin_err drv in
          match begun with
          | Some err => (0, Some (wrapError "begin tx: " err), Handle (log OpBeginTx d))
          | None =>
              let j := journal d ++ [OpBeginTx; OpPrepare] in
              match prepare_err drv with
              | Some err =>
                  (0, Some (wrapError "prepare insert: " err),
                   Handle (with_journal d (j ++ [OpRollback])))
              | None =>
                  match insert_loop drv 0 msgs (mkTx (messages d) j) 0 with
                  | inl (inserted, err, tx) =>
                      (inserted, Some err, Handle (with_journal d (tx_journal tx)))
                  | inr (inserted, tx) =>
                      let j' := tx_journal tx ++ [OpCommit] in
                      match commit_err drv with
                      | Some err =>
                          (inserted, Some (wrapError "commit messages: " err),
                           Handle (mkDB (if uncommitted_visible drv then working tx
                                         else messages d)
                                        (sent d) (closed d) j'))
                      | None =>
                          (inserted, None,
                           Handle (mkDB (working tx) (sent d) (closed d) j'))
                      end
                  end
              end
          end
      end
  end.

(** *** Store.LogSent *)

Definition next_sent_id (tbl : list SentRow) : Z :=
  fold_right (fun r m => Z.max (sent_id r) m) 0 tbl + 1.

(** LogSent persists a sent notification entry. *)
Definition LogSent (drv : Driver) (s : Store) (rec : SentRecord)
  : option error * Store :=
  match s with
  | NilStore | NoHandle => (Some errNotInitialized, s)
  | Handle d =>
      let sentAt := if Time.IsZero (sSentAt rec) then now drv 0 else sSentAt rec in
      let executed := if closed d then Some errDBClosed else sent_err drv in
      match executed with
      | Some err =>
          (Some (wrapError "insert sent record: " err), Handle (log OpExecSent d))
      | None =>
          let row := mkSentRow (next_sent_id (sent d)) (sMessage rec) (sTitle rec)
                               (sDevice rec) (sPriority rec) (Time.UTC sentAt)
                               (sRequestID rec) in
          (None, Handle (mkDB (messages d) (sent d ++ [row]) (closed d)
                              (journal d ++ [OpExecSent])))
      end
  end.

(** *** SQL: the LIKE operator of SQLite

    [%] matches any run of characters, [_] exactly one character, any
    other character itself; ASCII letters match without regard to
    case.  Text is UTF-8: [_] steps over one whole encoded character. *)

Definition byte_of (c : ascii) : N := N_of_ascii c.

Definition tolower (c : ascii) : ascii :=
  let n := byte_of c in
  if ((65 <=? n) && (n <=? 90))%N then ascii_of_N (n + 32) else c.

Definition like_char_eq (c d : ascii) : bool :=
  Ascii.eqb c d
  || (Ascii.eqb (tolower c) (tolower d)
      && (byte_of c <? 128)%N && (byte_of d <? 128)%N).

(** Drop the continuation bytes (10xxxxxx) at the head. *)
Fixpoint skip_continuation (s : list ascii) : list ascii :=
  match s with
  | c :: r => if (N.land (byte_of c) 192 =? 128)%N then skip_continuation r else s
  | [] => []
  end.

(** Step over one character; [None] at the end of the text. *)
Definition skip_char (s : list ascii) : option (list ascii) :=
  match s with
  | [] => None
  | c :: r => Some (if (192 <=? byte_of c)%N then skip_continuation r else r)
  end.

Definition percent : ascii := "%"%char.
Definition underscore : ascii := "_"%char.

Fixpoint like_match (pat : list ascii) : list ascii -> bool :=
  match pat with
  | [] => fun s => match s with [] => true | _ :: _ => false end
  | p :: pat' =>
      if Ascii.eqb p percent then
        fix any (s : list ascii) : bool :=
          like_match pat' s
          || match s with
             | [] => false
             | _ :: r => any r
             end
      else if Ascii.eqb p underscore then
        fun s => match skip_char s with
                 | None => false
                 | Some r => like_match pat' r
                 end
      else
        fun s => match s with
                 | [] => false
                 | c :: r => like_char_eq p c && like_match pat' r
                 end
  end.

(** [text LIKE pattern] *)
Definition LIKE (text pattern : string) : bool :=
  like_match (list_ascii_of_string pattern) (list_ascii_of_string text).

(** *** Store.QueryMessages *)

(** ORDER BY received_at DESC.  SQLite answers the query by walking
    the index on [received_at] (that [migrate] creates) backwards:
    rows come by descending key, and rows with equal keys by
    descending rowid.  [sorts_after r x]: [r] comes after [x]. *)
Definition sorts_after (r x : Row) : bool :=
  (received_at r <? received_at x)
  || ((received_at r =? received_at x) && (id r <? id x)).

Fixpoint insert_desc (r : Row) (l : list Row) : list Row :=
  match l with
  | [] => [r]
  | x :: l' => if sorts_after r x then x :: insert_desc r l' else r :: l
  end.

Definition order_by_received_at_desc (l : list Row) : list Row :=
  fold_right insert_desc [] l.

(** The WHERE clause assembled from [clauses]. *)
Definition where_clause (since : option Time.t) (search : string) (r : Row) : bool :=
  let c_since := match since with
                 | Some t => if negb (Time.IsZero t)
                             then Time.UTC t <=? received_at r
                             else true
                 | None => true
                 end in
  let c_search := if String.eqb search "" then true
                  else let like := ("%" ++ search ++ "%")%string in
                       LIKE (a_message (cols r)) like || LIKE (a_title (cols r)) like in
  true && c_since && c_search.

(** The body of [for rows.Next()]. *)
Definition scan (r : Row) : MessageRecord :=
  let a := cols r in
  mkMessageRecord (id r) (a_pushover_id a) (a_umid a) (a_title a) (a_message a)
                  (a_app a) (a_aid a) (a_icon a) (a_received_at a) (a_sent_at a)
                  (a_priority a) (a_url a) (a_acked a =? 1) (a_html a =? 1).

Definition select_messages (tbl : list Row) (limit : Z) (since : option Time.t)
           (search : string) : list Row :=
  firstn (Z.to_nat limit)
         (order_by_received_at_desc (filter (where_clause since search) tbl)).

(** The loop [for rows.Next()] from row number [k] on. *)
Fixpoint scan_rows (drv : Driver) (k : nat) (rows : list Row)
  : list MessageRecord + error :=
  match rows with
  | [] => inl []
  | r :: rest =>
      match scan_err drv k with
      | Some err => inr (wrapError "scan history: " err)
      | None =>
          match scan_rows drv (S k) rest with
          | inl results => inl (scan r :: results)
          | inr err => inr err
          end
      end
  end.

(** QueryMessages returns persisted messages applying the optional
    filters. *)
Definition QueryMessages (drv : Driver) (s : Store) (limit : Z)
           (since : option Time.t) (search : string)
  : list MessageRecord * option error * Store :=
  match s with
  | NilStore | NoHandle => ([], Some errNotInitialized, s)
  | Handle d =>
      let limit := if limit <=? 0 then 20 else limit in
      let queried := if closed d then Some errDBClosed else query_err drv in
      let s' := Handle (log OpQuery d) in
      match queried with
      | Some err => ([], Some (wrapError "query history: " err), s')
      | None =>
          match scan_rows drv 0 (select_messages (messages d) limit since search) with
          | inr err => ([], Some err, s')
          | inl results =>
              match rows_err drv with
              | Some err => ([], Some (wrapError "iterate history: " err), s')
              | None => (results, None, s')
              end
          end
      end
  end.

End db.

(* ------------------------------------------------------------------ *)
(** ** internal/pushover: the transport *)

Module pushover.

Definition apiBaseURL : string := "https://api.pushover.net/1".
Definition retryDelay : Z := 5 * Time.Second.
Definition maxConcurrentRequests : nat := 2.
Definition defaultRequestAttempts : Z := 2.

(** [*http.Request] and [*http.Response], as far as the client reads
    and writes them. *)
Record Request : Type := mkRequest {
  Method : string;
  URL : string;
  ReqBody : string;
  Header : list (string * string)
}.

Record Response : Type := mkResponse {
  StatusCode : Z;
  Body : string
}.

(** Header.Set *)
Definition header_set (k v : string) (h : list (string * string))
  : list (string * string) :=
  (k, v) :: filter (fun kv => negb (String.eqb (fst kv) k)) h.

(** Client wraps HTTP access to the Pushover API.  [limiter] is the
    capacity of the channel, [None] for a nil channel. *)
Record Client : Type := mkClient {
  AppToken : string;
  UserKey : string;
  DeviceID : string;
  DeviceSecret : string;
  limiter : option nat;
  userAgent : string
}.

(** NewClient; [goos] is [runtime.GOOS]. *)
Definition NewClient (goos appToken userKey deviceID deviceSecret : string) : Client :=
  mkClient appToken userKey deviceID deviceSecret
           (Some maxConcurrentRequests)
           ("push-cli/1.0 (" ++ goos ++ ")")%string.

(** The payload [decodeAPIError] unmarshals into. *)
Record ErrPayload : Type := mkErrPayload {
  pStatus : Z;
  pRequest : string;
  pErrors : list string
}.

(** ReceivedMessage describes a message returned by the Open Client
    API. *)
Record ReceivedMessage : Type := mkReceivedMessage {
  PushoverID : Z;
  UMID : string;
  Title : string;
  Message : string;
  App : string;
  AID : string;
  Icon : string;
  Priority : Z;
  MsgURL : string;
  URLTitle : string;
  Acked : bool;
  HTML : bool;
  Timestamp : Z
}.

(** FetchResult bundles a set of received messages and cursor
    metadata. *)
Record FetchResult : Type := mkFetchResult {
  Messages : list ReceivedMessage;
  LastMessageID : Z;
  RequestID : string
}.

Record FetchPayload : Type := mkFetchPayload {
  fStatus : Z;
  fRequest : string;
  fLast : Z;
  fMessages : list ReceivedMessage
}.

Record LoginResponse : Type := mkLoginResponse {
  lStatus : Z;
  lRequest : string;
  lSecret : string;
  lDevices : list (string * string)
}.

(** DeviceRegistration represents the response to a device registration
    request. *)
Record DeviceRegistration : Type := mkDeviceRegistration {
  dStatus : Z;
  dRequest : string;
  dID : string;
  dSecret : string;
  dName : string
}.

(** SendParams captures the fields for the Message API. *)
Record SendParams : Type := mkSendParams {
  spMessage : string;
  spTitle : string;
  spDevice : string;
  spPriority : Z;
  spURL : string;
  spURLTitle : string;
  spSound : string;
  spTimestamp : Time.t;
  spHTML : bool;
  spMonospace : bool
}.

(** SendResponse mirrors the API response to a send request. *)
Record SendResponse : Type := mkSendResponse {
  sStatus : Z;
  sRequest : string;
  sReceipt : string;
  sErrors : list string
}.

(** The functions of the Go standard library the client calls on text:
    [strings.TrimSpace], [url.Values.Encode], [url.PathEscape],
    [strconv.FormatInt] and the JSON decoders.  [unmarshalError body]
    is the payload as [json.Unmarshal] leaves it, zero where it decoded
    nothing. *)
Record Lib : Type := mkLib {
  TrimSpace : string -> string;
  Encode : list (string * string) -> string;
  PathEscape : string -> string;
  unmarshalError : string -> ErrPayload;
  decodeFetch : string -> FetchPayload + error;
  decodeLogin : string -> LoginResponse + error;
  decodeDevice : string -> DeviceRegistration + error;
  decodeSend : string -> SendResponse + error
}.

(** How the network and the caller's context answer during one call of
    [do]; the index is the attempt, counted from 0.
    - [ctx_before i]: [ctx.Err()] at the head of the loop body;
    - [acquire i]: the [select] of [doOnce], [None] when a slot of the
      limiter was obtained, [Some e] when the context was done first;
    - [exchange i req]: [client.Do(req)];
    - [ctx_after i]: [ctx.Err()] after a failed exchange;
    - [wait i]: [waitRetry], [None] when the timer fired, [Some e]
      when the context was done first. *)
Record Net : Type := mkNet {
  ctx_before : nat -> option error;
  acquire : nat -> option error;
  exchange : nat -> Request -> Response + error;
  ctx_after : nat -> option error;
  wait : nat -> option error
}.

(** What a call does, in order. *)
Inductive Event : Type :=
| EvBuild                    (* build() *)
| EvAcquire                  (* limiter <- struct{}{} *)
| EvDo (req : Request)       (* client.Do(req) *)
| EvRelease                  (* <-limiter *)
| EvSleep (d : Z).           (* the timer of waitRetry *)

Definition requestBuilder : Type := unit -> Request + error.

(** doOnce, for attempt [i]. *)
Definition doOnce (net : Net) (c : Client) (i : nat) (req : Request)
  : (Response + error) * list Event :=
  match limiter c with
  | Some _ =>
      match acquire net i with
      | Some err => (inr err, [])
      | None => (exchange net i req, [EvAcquire; EvDo req; EvRelease])
      end
  | None => (exchange net i req, [EvDo req])
  end.

(** waitRetry, after attempt [i]. *)
Definition waitRetry (net : Net) (i : nat) : option error * list Event :=
  (wait net i, [EvSleep retryDelay]).

(** The loop of [do]: [remaining] iterations are left, the next one is
    attempt [i], [lastErr] is the variable of that name and [tr] what
    happened so far. *)
Fixpoint do_loop (net : Net) (c : Client) (build : requestBuilder)
         (remaining : nat) (i : nat) (lastErr : option error) (tr : list Event)
  : (Response + error) * list Event :=
  match remaining with
  | O =>
      match lastErr with
      | Some err => (inr err, tr)
      | None => (inr (errorString "pushover: request failed"), tr)
      end
  | S rest =>
      match ctx_before net i with
      | Some err => (inr err, tr)
      | None =>
          match build tt with
          | inr err => (inr err, tr ++ [EvBuild])
          | inl req =>
              let req := mkRequest (Method req) (URL req) (ReqBody req)
                                   (header_set "User-Agent" (userAgent c) (Header req)) in
              let '(r, ev) := doOnce net c i req in
              let tr := tr ++ [EvBuild] ++ ev in
              match r with
              | inl resp => (inl resp, tr)
              | inr err =>
                  match ctx_after net i with
                  | Some cerr => (inr cerr, tr)
                  | None =>
                      match rest with
                      | O => do_loop net c build rest (S i) (Some err) tr
                      | S _ =>
                          let '(w, ev) := waitRetry net i in
                          match w with
                          | Some werr => (inr werr, tr ++ ev)
                          | None => do_loop net c build rest (S i) (Some err) (tr ++ ev)
                          end
                      end
                  end
              end
          end
      end
  end.

(** The attempt ceiling of [do]. *)
Definition attempts_of (retries : Z) : Z := if retries <=? 0 then 1 else retries.

Definition do (net : Net) (c : Client) (build : requestBuilder) (retries : Z)
  : (Response + error) * list Event :=
  do_loop net c build (Z.to_nat (attempts_of retries)) 0 None [].

(** decodeAPIError *)
Definition decodeAPIError (lib : Lib) (resp : option Response) : error :=
  match resp with
  | None => errorString "pushover API error: nil response"
  | Some resp =>
      if StatusCode resp =? 412 then ErrTwoFactorRequired
      else
        let body := Body resp in
        let payload := if (0 <? String.length body)%nat
                       then unmarshalError lib body
                       else mkErrPayload 0 "" [] in
        let errors := match pErrors payload with
                      | [] => if (0 <? String.length body)%nat
                              then [TrimSpace lib body]
                              else []
                      | _ :: _ => pErrors payload
                      end in
        let status := if pStatus payload =? 0 then StatusCode resp else pStatus payload in
        APIError status (pRequest payload) errors
  end.

Definition ensureSendCredentials (lib : Lib) (c : Client) : option error :=
  if String.eqb (TrimSpace lib (AppToken c)) "" then
    Some (errorString "pushover: app token not configured")
  else if String.eqb (TrimSpace lib (UserKey c)) "" then
    Some (errorString "pushover: user key not configured")
  else None.

Definition ensureReceiveCredentials (lib : Lib) (c : Client) : option error :=
  match ensureSendCredentials lib c with
  | Some err => Some err
  | None =>
      if String.eqb (TrimSpace lib (DeviceID c)) ""
         || String.eqb (TrimSpace lib (DeviceSecret c)) ""
      then Some (errorString "pushover: device credentials missing")
      else None
  end.

(** The request built by the closure of [FetchMessages]. *)
Definition fetchRequest (lib : Lib) (c : Client) : Request :=
  let params := [("device_id", DeviceID c); ("secret", DeviceSecret c)] in
  mkRequest "GET" (apiBaseURL ++ "/messages.json?" ++ Encode lib params)%string "" [].

(** FetchMessages retrieves unread messages via the Open Client API. *)
Definition FetchMessages (lib : Lib) (net : Net) (c : Client)
  : (FetchResult + error) * list Event :=
  match ensureReceiveCredentials lib c with
  | Some err => (inr err, [])
  | None =>
      let build : requestBuilder := fun _ => inl (fetchRequest lib c) in
      let '(r, tr) := do net c build defaultRequestAttempts in
      match r with
      | inr err => (inr err, tr)
      | inl resp =>
          if 400 <=? StatusCode resp then (inr (decodeAPIError lib (Some resp)), tr)
          else
            match decodeFetch lib (Body resp) with
            | inr err => (inr (wrapError "decode fetch response: " err), tr)
            | inl payload =>
                (inl (mkFetchResult (fMessages payload) (fLast payload) (fRequest payload)),
                 tr)
            end
      end
  end.

(** The request built by the closure of [DeleteMessages]. *)
Definition deleteRequest (lib : Lib) (c : Client) (upToID : Z) : Request :=
  let values := [("message", itoa upToID); ("secret", DeviceSecret c)] in
  let encoded := Encode lib values in
  let endpoint := (apiBaseURL ++ "/devices/" ++ PathEscape lib (DeviceID c)
                   ++ "/update_highest_message.json")%string in
  mkRequest "POST" endpoint encoded
            [("Content-Type", "application/x-www-form-urlencoded")].

(** DeleteMessages acknowledges messages up to the supplied ID. *)
Definition DeleteMessages (lib : Lib) (net : Net) (c : Client) (upToID : Z)
  : option error * list Event :=
  match ensureReceiveCredentials lib c with
  | Some err => (Some err, [])
  | None =>
      if upToID <=? 0 then (Some (errorString "message id must be positive"), [])
      else
        let build : requestBuilder := fun _ => inl (deleteRequest lib c upToID) in
        let '(r, tr) := do net c build defaultRequestAttempts in
        match r with
        | inr err => (Some err, tr)
        | inl resp =>
            if 400 <=? StatusCode resp then (Some (decodeAPIError lib (Some resp)), tr)
            else (None, tr)
        end
  end.

(** The request built by the closure of [Login]. *)
Definition loginRequest (lib : Lib) (email password twoFactorCode : string) : Request :=
  let values := (if String.eqb twoFactorCode "" then [] else [("code", twoFactorCode)])
                ++ [("email", email); ("password", password)] in
  let encoded := Encode lib values in
  mkRequest "POST" (apiBaseURL ++ "/users/login.json")%string encoded
            [("Content-Type", "application/x-www-form-urlencoded")].

(** Login authenticates a Pushover user and returns the login secret. *)
Definition Login (lib : Lib) (net : Net) (c : Client)
           (email password twoFactorCode : string)
  : (LoginResponse + error) * list Event :=
  if String.eqb email "" || String.eqb password "" then
    (inr (errorString "email and password are required"), [])
  else
    let build : requestBuilder :=
      fun _ => inl (loginRequest lib email password twoFactorCode) in
    let '(r, tr) := do net c build defaultRequestAttempts in
    match r with
    | inr err => (inr err, tr)
    | inl resp =>
        if 400 <=? StatusCode resp then (inr (decodeAPIError lib (Some resp)), tr)
        else
          match decodeLogin lib (Body resp) with
          | inr err => (inr (wrapError "decode login response: " err), tr)
          | inl payload =>
              if String.eqb (lSecret payload) "" then
                (inr (errorString "pushover login did not return a secret"), tr)
              else (inl payload, tr)
          end
    end.

(** The request built by the closure of [RegisterDevice]. *)
Definition deviceRequest (lib : Lib) (secret name : string) : Request :=
  let values := [("name", name); ("os", "O"); ("secret", secret)] in
  mkRequest "POST" (apiBaseURL ++ "/devices.json")%string (Encode lib values)
            [("Content-Type", "application/x-www-form-urlencoded")].

(** RegisterDevice registers a device for receiving push
    notifications. *)
Definition RegisterDevice (lib : Lib) (net : Net) (c : Client) (secret name : string)
  : (DeviceRegistration + error) * list Event :=
  if String.eqb secret "" then (inr (errorString "secret is required"), [])
  else if String.eqb name "" then (inr (errorString "device name is required"), [])
  else
    let build : requestBuilder := fun _ => inl (deviceRequest lib secret name) in
    let '(r, tr) := do net c build defaultRequestAttempts in
    match r with
    | inr err => (inr err, tr)
    | inl resp =>
        if 400 <=? StatusCode resp then (inr (decodeAPIError lib (Some resp)), tr)
        else
          match decodeDevice lib (Body resp) with
          | inr err => (inr (wrapError "decode device response: " err), tr)
          | inl registration => (inl registration, tr)
          end
    end.

(** The form values of [Send], in the key order of [Encode]. *)
Definition send_values (c : Client) (params : SendParams) : list (string * string) :=
  let opt (present : bool) (k v : string) := if present then [(k, v)] else [] in
  opt (negb (String.eqb (spDevice params) "")) "device" (spDevice params)
  ++ opt (spHTML params) "html" "1"
  ++ [("message", spMessage params)]
  ++ opt (spMonospace params) "monospace" "1"
  ++ opt (negb (spPriority params =? 0)) "priority" (itoa (spPriority params))
  ++ opt (negb (String.eqb (spSound params) "")) "sound" (spSound params)
  ++ opt (negb (Time.IsZero (spTimestamp params))) "timestamp"
         (itoa (Time.ToUnix (spTimestamp params)))
  ++ opt (negb (String.eqb (spTitle params) "")) "title" (spTitle params)
  ++ [("token", AppToken c)]
  ++ opt (negb (String.eqb (spURL params) "")) "url" (spURL params)
  ++ opt (negb (String.eqb (spURLTitle params) "")) "url_title" (spURLTitle params)
  ++ [("user", UserKey c)].

(** The request built by the closure of [Send]. *)
Definition sendRequest (lib : Lib) (c : Client) (params : SendParams) : Request :=
  mkRequest "POST" (apiBaseURL ++ "/messages.json")%string (Encode lib (send_values c params))
            [("Content-Type", "application/x-www-form-urlencoded")].

(** Send dispatches a push notification via the Message API. *)
Definition Send (lib : Lib) (net : Net) (c : Client) (params : SendParams)
  : (SendResponse + error) * list Event :=
  match ensureSendCredentials lib c with
  | Some err => (inr err, [])
  | None =>
      if String.eqb (TrimSpace lib (spMessage params)) "" then
        (inr (errorString "message cannot be empty"), [])
      else
        let build : requestBuilder := fun _ => inl (sendRequest lib c params) in
        let '(r, tr) := do net c build defaultRequestAttempts in
        match r with
        | inr err => (inr err, tr)
        | inl resp =>
            if 400 <=? StatusCode resp then (inr (decodeAPIError lib (Some resp)), tr)
            else
              match decodeSend lib (Body resp) with
              | inr err => (inr (wrapError "decode send response: " err), tr)
              | inl payload => (inl payload, tr)
              end
        end
  end.

End pushover.

(* ------------------------------------------------------------------ *)
(** ** The limiter of [doOnce] under concurrent callers

    [doOnce] is the only place that touches [c.limiter], a channel of
    capacity [maxConcurrentRequests] made by [NewClient].  Each caller
    is a goroutine somewhere in [doOnce]; a step is one goroutine
    performing its next channel operation or HTTP call. *)

Module limiter.

(** Where a goroutine stands in [doOnce]. *)
Inductive pc : Type :=
| Outside      (* not in doOnce: before a call or between two attempts *)
| AtSelect     (* blocked in, or about to run, the select *)
| InDo         (* inside client.Do(req): executing the exchange *)
| Deferred     (* client.Do returned, the deferred <-limiter is pending *)
| Cancelled.   (* returned req.Context().Err() from the select *)

Definition pc_eqb (a b : pc) : bool :=
  match a, b with
  | Outside, Outside | AtSelect, AtSelect | InDo, InDo
  | Deferred, Deferred | Cancelled, Cancelled => true
  | _, _ => false
  end.

(** [buffered] is the number of elements in the channel, [cap] its
    capacity, [procs] the goroutines sharing the client. *)
Record state : Type := mkState {
  cap : nat;
  buffered : nat;
  procs : list pc
}.

(** A client fresh from [NewClient], shared by [n] callers. *)
Definition init (n : nat) : state :=
  mkState pushover.maxConcurrentRequests 0 (repeat Outside n).

Fixpoint set_nth (i : nat) (p : pc) (l : list pc) : list pc :=
  match l, i with
  | [], _ => []
  | _ :: r, O => p :: r
  | x :: r, S j => x :: set_nth j p r
  end.

Definition count (p : pc) (l : list pc) : nat :=
  List.length (filter (pc_eqb p) l).

(** Number of requests executing against the HTTP client. *)
Definition in_flight (s : state) : nat := count InDo (procs s).

Inductive step : state -> state -> Prop :=
| step_call : forall s i,
    (* a caller enters doOnce (first attempt, a retry, or a new call) *)
    nth_error (procs s) i = Some Outside ->
    step s (mkState (cap s) (buffered s) (set_nth i AtSelect (procs s)))
| step_send : forall s i,
    (* case limiter <- struct{}{}: possible only while the buffer has room *)
    nth_error (procs s) i = Some AtSelect ->
    (buffered s < cap s)%nat ->
    step s (mkState (cap s) (S (buffered s)) (set_nth i InDo (procs s)))
| step_ctx_done : forall s i,
    (* case <-req.Context().Done(): return nil, req.Context().Err() *)
    nth_error (procs s) i = Some AtSelect ->
    step s (mkState (cap s) (buffered s) (set_nth i Cancelled (procs s)))
| step_do_returns : forall s i,
    (* client.Do(req) returns *)
    nth_error (procs s) i = Some InDo ->
    step s (mkState (cap s) (buffered s) (set_nth i Deferred (procs s)))
| step_release : forall s i,
    (* defer func() { <-limiter }() *)
    nth_error (procs s) i = Some Deferred ->
    step s (mkState (cap s) (Nat.pred (buffered s)) (set_nth i Outside (procs s)))
| step_leave : forall s i,
    (* the cancelled caller is back outside *)
    nth_error (procs s) i = Some Cancelled ->
    step s (mkState (cap s) (buffered s) (set_nth i Outside (procs s))).

Inductive reachable (n : nat) : state -> Prop :=
| reach_init : reachable n (init n)
| reach_step : forall s s', reachable n s -> step s s' -> reachable n s'.

(** Every element in the buffer belongs to a goroutine between its
    send and its deferred receive. *)
Definition holds_slot (s : state) : nat :=
  (count InDo (procs s) + count Deferred (procs s))%nat.

Definition inv (s : state) : Prop :=
  cap s = pushover.maxConcurrentRequests /\
  buffered s = holds_slot s /\
  (buffered s <= cap s)%nat.

End limiter.

(* ------------------------------------------------------------------ *)
(** ** internal/messages *)

Module messages.

(** The body of the loop of [RecordsFromReceived]; [received] is
    [time.Now()]. *)
Definition record_of (received : Time.t) (msg : pushover.ReceivedMessage)
  : db.MessageRecord :=
  db.mkMessageRecord
    0 (pushover.PushoverID msg) (pushover.UMID msg) (pushover.Title msg)
    (pushover.Message msg) (pushover.App msg) (pushover.AID msg) (pushover.Icon msg)
    received
    (if 0 <? pushover.Timestamp msg
     then Some (Time.Unix (pushover.Timestamp msg) 0)
     else None)
    (pushover.Priority msg) (pushover.MsgURL msg)
    (pushover.Acked msg) (pushover.HTML msg).

(** RecordsFromReceived converts API messages into database records.
    [clock k] is [time.Now()] in the k-th iteration (from [k0]). *)
Fixpoint RecordsFromReceived_from (clock : nat -> Time.t) (k0 : nat)
         (msgs : list pushover.ReceivedMessage) : list db.MessageRecord :=
  match msgs with
  | [] => []
  | msg :: rest => record_of (clock k0) msg :: RecordsFromReceived_from clock (S k0) rest
  end.

Definition RecordsFromReceived (clock : nat -> Time.t)
           (msgs : list pushover.ReceivedMessage) : list db.MessageRecord :=
  RecordsFromReceived_from clock 0 msgs.

(** PersistReceived converts and saves received messages, returning
    inserted count. *)
Definition PersistReceived (clock : nat -> Time.t) (drv : db.Driver) (store : db.Store)
           (msgs : list pushover.ReceivedMessage) : Z * option error * db.Store :=
  match msgs with
  | [] => (0, None, store)
  | _ :: _ => db.PersistMessages drv store (RecordsFromReceived clock msgs)
  end.

End messages.

(* ------------------------------------------------------------------ *)
(** ** internal/config *)

Module config.

Record Config : Type := mkConfig {
  AppToken : string;
  UserKey : string;
  DeviceID : string;
  DeviceSecret : string;
  DefaultDevice : string;
  DefaultPriority : Z
}.

(** ValidateSend; [None] as receiver is the nil pointer. *)
Definition ValidateSend (c : option Config) : option error :=
  match c with
  | None => Some (errorString "config is nil")
  | Some c =>
      if String.eqb (AppToken c) "" then Some (errorString "app token is missing")
      else if String.eqb (UserKey c) "" then Some (errorString "user key is missing")
      else None
  end.

Definition ValidateReceive (c : option Config) : option error :=
  match ValidateSend c with
  | Some err => Some err
  | None =>
      match c with
      | None => None
      | Some c =>
          if String.eqb (DeviceID c) "" || String.eqb (DeviceSecret c) ""
          then Some (errorString "device credentials missing, run 'push login'")
          else None
      end
  end.

(** Clone returns a shallow copy of the config; [None] stays the nil
    pointer. *)
Definition Clone (c : option Config) : option Config :=
  match c with
  | None => None
  | Some c =>
      Some (mkConfig (AppToken c) (UserKey c) (DeviceID c) (DeviceSecret c)
                     (DefaultDevice c) (DefaultPriority c))
  end.

(** DeviceConfigured indicates whether receiving credentials exist. *)
Definition DeviceConfigured (c : option Config) : bool :=
  match c with
  | None => false
  | Some c => negb (String.eqb (DeviceID c) "") && negb (String.eqb (DeviceSecret c) "")
  end.

End config.

(* ------------------------------------------------------------------ *)
(** ** The tools and the commands: internal/mcp and internal/cli *)

(** What a cycle meets outside the process: the text library, the
    platform name, the network during the fetch and during the
    acknowledgment, the SQL driver and the clock of
    [RecordsFromReceived]. *)
Record World : Type := mkWorld {
  lib : pushover.Lib;
  goos : string;
  net_fetch : pushover.Net;
  net_ack : pushover.Net;
  drv : db.Driver;
  clock : nat -> Time.t
}.

(** The calls a cycle makes on the client, with what each did on the
    wire. *)
Inductive ClientCall : Type :=
| CallFetchMessages (events : list pushover.Event)
| CallDeleteMessages (upToID : Z) (events : list pushover.Event).

(** newClient / newClientFromConfig *)
Definition newClient (w : World) (cfg : option config.Config) : pushover.Client :=
  match cfg with
  | None => pushover.NewClient (goos w) "" "" "" ""
  | Some cfg =>
      pushover.NewClient (goos w) (config.AppToken cfg) (config.UserKey cfg)
                         (config.DeviceID cfg) (config.DeviceSecret cfg)
  end.

(** [outgoing[:limit]] when [len(outgoing) > limit] *)
Definition truncate {A : Type} (limit : Z) (l : list A) : list A :=
  if limit <? Z.of_nat (List.length l) then firstn (Z.to_nat limit) l else l.

Module mcp.

Record CheckMessagesInput : Type := mkCheckMessagesInput {
  Limit : option Z
}.

Record CheckMessagesOutput : Type := mkCheckMessagesOutput {
  Count : Z;
  Returned : Z;
  OutLimit : Z;
  Persisted : Z;
  AckedUpTo : Z;
  OutMessages : list pushover.ReceivedMessage;
  Warning : string;
  AckWarning : string
}.

(** The loop of [determineAckID] and [highestMessageID]. *)
Fixpoint highest_from (highest : Z) (msgs : list pushover.ReceivedMessage) : Z :=
  match msgs with
  | [] => highest
  | msg :: rest =>
      highest_from (if highest <? pushover.PushoverID msg
                    then pushover.PushoverID msg else highest) rest
  end.

(** determineAckID; [None] is the nil result. *)
Definition determineAckID (result : option pushover.FetchResult) : Z :=
  match result with
  | None => 0
  | Some result =>
      if 0 <? pushover.LastMessageID result then pushover.LastMessageID result
      else highest_from 0 (pushover.Messages result)
  end.

(** handleCheckMessages.  The tool result carries the JSON rendering of
    the output, which cannot fail for this payload; the model returns
    the output itself, the store afterwards and the client calls made. *)
Definition handleCheckMessages (w : World) (cfg : option config.Config)
           (store : db.Store) (input : CheckMessagesInput)
  : (CheckMessagesOutput + error) * db.Store * list ClientCall :=
  match config.ValidateReceive cfg with
  | Some err => (inr err, store, [])
  | None =>
      let limit := match Limit input with
                   | Some l => if 0 <? l then l else 10
                   | None => 10
                   end in
      let client := newClient w cfg in
      let '(fetched, ev_fetch) := pushover.FetchMessages (lib w) (net_fetch w) client in
      match fetched with
      | inr err => (inr err, store, [CallFetchMessages ev_fetch])
      | inl result =>
          let '(persisted, persistErr, store') :=
            messages.PersistReceived (clock w) (drv w) store (pushover.Messages result) in
          let warning := match persistErr with
                         | Some err => Error err
                         | None => ""
                         end in
          let ackedID := determineAckID (Some result) in
          let '(ackWarning, ack_calls) :=
            if 0 <? ackedID then
              let '(err, ev_ack) :=
                pushover.DeleteMessages (lib w) (net_ack w) client ackedID in
              (match err with Some err => Error err | None => "" end,
               [CallDeleteMessages ackedID ev_ack])
            else ("", []) in
          let outgoing := truncate limit (pushover.Messages result) in
          (inl (mkCheckMessagesOutput
                  (Z.of_nat (List.length (pushover.Messages result)))
                  (Z.of_nat (List.length outgoing))
                  limit persisted ackedID outgoing warning ackWarning),
           store', CallFetchMessages ev_fetch :: ack_calls)
      end
  end.

(** *** The server *)

(** [Server]: the configuration and the store the handlers work on. *)
Record Server : Type := mkServer {
  srv_cfg : option config.Config;
  srv_store : db.Store
}.

(** NewServer *)
Definition NewServer (cfg : option config.Config) (store : db.Store) : Server + error :=
  match cfg with
  | None => inr (errorString "config is required")
  | Some _ =>
      match store with
      | db.NilStore => inr (errorString "database store is required")
      | _ => inl (mkServer cfg store)
      end
  end.

(** *** send_notification *)

Record SendNotificationInput : Type := mkSendNotificationInput {
  inMessage : string;
  inTitle : string;
  inPriority : option Z;
  inURL : string;
  inSound : string;
  inDevice : string
}.

Record SendNotificationOutput : Type := mkSendNotificationOutput {
  snMessage : string;
  snTitle : string;
  snDevice : string;
  snPriority : Z;
  snRequestID : string;
  snReceipt : string;
  snLogged : bool;
  snWarning : string
}.

(** A call of [client.Send]: its parameters and what it did on the
    wire. *)
Inductive SendCall : Type :=
| CallSend (params : pushover.SendParams) (events : list pushover.Event).

(** handleSendNotification; [net_send] is the network during the send,
    [clock w 0] the [time.Now()] of the record.  A nil configuration
    does not get past [ValidateSend]. *)
Definition handleSendNotification (w : World) (net_send : pushover.Net)
           (cfg : option config.Config) (store : db.Store)
           (input : SendNotificationInput)
  : (SendNotificationOutput + error) * db.Store * list SendCall :=
  match config.ValidateSend cfg, cfg with
  | Some err, _ => (inr err, store, [])
  | None, None => (inr (errorString "config is nil"), store, [])
  | None, Some c =>
      if String.eqb (pushover.TrimSpace (lib w) (inMessage input)) "" then
        (inr (errorString "message is required"), store, [])
      else
        let priority := match inPriority input with
                        | Some p => p
                        | None => config.DefaultPriority c
                        end in
        if (priority <? -2) || (2 <? priority) then
          (inr (errorString "priority must be between -2 and 2"), store, [])
        else
          let device := if String.eqb (inDevice input) "" then config.DefaultDevice c
                        else inDevice input in
          let params := pushover.mkSendParams (inMessage input) (inTitle input) device
                                              priority (inURL input) "" (inSound input)
                                              0 false false in
          let client := newClient w cfg in
          let '(sent, ev) := pushover.Send (lib w) net_send client params in
          match sent with
          | inr err => (inr err, store, [CallSend params ev])
          | inl resp =>
              let output := mkSendNotificationOutput (inMessage input) (inTitle input)
                              device priority (pushover.sRequest resp)
                              (pushover.sReceipt resp) in
              let record := db.mkSentRecord 0 (inMessage input) (inTitle input) device
                                            priority (clock w 0) (pushover.sRequest resp) in
              let '(logErr, store') := db.LogSent (drv w) store record in
              (inl match logErr with
                   | Some err =>
                       output false ("failed to log history: " ++ Error err)%string
                   | None => output true ""
                   end,
               store', [CallSend params ev])
          end
  end.

(** *** list_history *)

Record ListHistoryInput : Type := mkListHistoryInput {
  hLimit : option Z;
  hSince : option string;
  hSearch : option string
}.

Record ListHistoryOutput : Type := mkListHistoryOutput {
  hCount : Z;
  hOutLimit : Z;
  hOutSince : option Time.t;
  hOutSearch : string;
  hMessages : list db.MessageRecord
}.

(** handleListHistory; [parseLocal] is [dateparse.ParseLocal]. *)
Definition handleListHistory (w : World) (parseLocal : string -> Time.t + error)
           (store : db.Store) (input : ListHistoryInput)
  : (ListHistoryOutput + error) * db.Store :=
  let limit := match hLimit input with
               | Some l => if 0 <? l then l else 20
               | None => 20
               end in
  let since : option Time.t + error :=
    match hSince input with
    | Some text =>
        if String.eqb text "" then inl None
        else match parseLocal text with
             | inr err => inr (wrapError "invalid since value: " err)
             | inl parsed => inl (Some parsed)
             end
    | None => inl None
    end in
  match since with
  | inr err => (inr err, store)
  | inl sinceTime =>
      let searchVal := match hSearch input with
                       | Some text => text
                       | None => ""
                       end in
      let '(records, err, store') :=
        db.QueryMessages (drv w) store limit sinceTime searchVal in
      match err with
      | Some err => (inr err, store')
      | None =>
          (inl (mkListHistoryOutput (Z.of_nat (List.length records)) limit sinceTime
                                    searchVal records),
           store')
      end
  end.

(** *** mark_read *)

Record MarkReadOutput : Type := mkMarkReadOutput {
  mrMessageID : Z;
  mrStatus : string
}.

(** handleMarkRead *)
Definition handleMarkRead (w : World) (cfg : option config.Config) (messageID : Z)
  : (MarkReadOutput + error) * list ClientCall :=
  match config.ValidateReceive cfg with
  | Some err => (inr err, [])
  | None =>
      if messageID <=? 0 then (inr (errorString "message_id must be positive"), [])
      else
        let client := newClient w cfg in
        let '(err, ev) := pushover.DeleteMessages (lib w) (net_ack w) client messageID in
        match err with
        | Some err => (inr err, [CallDeleteMessages messageID ev])
        | None =>
            (inl (mkMarkReadOutput messageID "acknowledged"),
             [CallDeleteMessages messageID ev])
        end
  end.

(** *** Resources *)

(** [ResourcePayload] with its metadata; the links are constant. *)
Record ResourcePayload (A : Type) : Type := mkResourcePayload {
  rTimestamp : Time.t;
  rResourceURI : string;
  rCount : Z;
  rData : A
}.

Arguments mkResourcePayload {A}.
Arguments rTimestamp {A}.
Arguments rResourceURI {A}.
Arguments rCount {A}.
Arguments rData {A}.

(** The handler of [push://unread]. *)
Definition readUnread (w : World) (cfg : option config.Config)
  : (ResourcePayload (list pushover.ReceivedMessage) + error) * list ClientCall :=
  match config.ValidateReceive cfg with
  | Some err => (inr err, [])
  | None =>
      let client := newClient w cfg in
      let '(fetched, ev) := pushover.FetchMessages (lib w) (net_fetch w) client in
      match fetched with
      | inr err => (inr err, [CallFetchMessages ev])
      | inl result =>
          (inl (mkResourcePayload (clock w 0) "push://unread"
                  (Z.of_nat (List.length (pushover.Messages result)))
                  (pushover.Messages result)),
           [CallFetchMessages ev])
      end
  end.

(** The handler of [push://history]. *)
Definition readHistory (w : World) (store : db.Store)
  : (ResourcePayload (list db.MessageRecord) + error) * db.Store :=
  let '(records, err, store') := db.QueryMessages (drv w) store 20 None "" in
  match err with
  | Some err => (inr err, store')
  | None =>
      (inl (mkResourcePayload (clock w 0) "push://history"
              (Z.of_nat (List.length records)) records),
       store')
  end.

(** The [config] entry of the status resource. *)
Record ConfigStatus : Type := mkConfigStatus {
  has_app_token : bool;
  has_user_key : bool;
  device_configured : bool;
  default_device : string;
  default_priority : Z
}.

(** The handler of [push://status]; the configuration of a server is
    not nil. *)
Definition readStatus (cfg : config.Config) : ConfigStatus :=
  mkConfigStatus (negb (String.eqb (config.AppToken cfg) ""))
                 (negb (String.eqb (config.UserKey cfg) ""))
                 (config.DeviceConfigured (Some cfg))
                 (config.DefaultDevice cfg)
                 (config.DefaultPriority cfg).

End mcp.

Module cli.

(** highestMessageID *)
Definition highestMessageID (result : option pushover.FetchResult)
           (msgs : list pushover.ReceivedMessage) : Z :=
  match result with
  | Some r =>
      if 0 <? pushover.LastMessageID r then pushover.LastMessageID r
      else mcp.highest_from 0 msgs
  | None => mcp.highest_from 0 msgs
  end.

(** What [runMessages] leaves behind: its error, the lines written to
    the error stream, the messages it prints, the store as it was
    before the deferred Close, and the client calls. *)
Record Run : Type := mkRun {
  run_err : option error;
  stderr : list string;
  printed : list pushover.ReceivedMessage;
  store_after : option db.Store;
  calls : list ClientCall
}.

(** runMessages; [loaded] is the outcome of [loadConfig], [opened] of
    [openStore], [limit] the value of the flag. *)
Definition runMessages (w : World) (loaded : option config.Config + error)
           (opened : db.Store + error) (limit : Z) : Run :=
  match loaded with
  | inr err => mkRun (Some err) [] [] None []
  | inl cfg =>
      match config.ValidateReceive cfg with
      | Some err => mkRun (Some err) [] [] None []
      | None =>
          let limit := if limit <=? 0 then 10 else limit in
          let client := newClient w cfg in
          let '(fetched, ev_fetch) := pushover.FetchMessages (lib w) (net_fetch w) client in
          match fetched with
          | inr err => mkRun (Some err) [] [] None [CallFetchMessages ev_fetch]
          | inl result =>
              match opened with
              | inr err => mkRun (Some err) [] [] None [CallFetchMessages ev_fetch]
              | inl store =>
                  let '(_, persistErr, store') :=
                    messages.PersistReceived (clock w) (drv w) store
                                             (pushover.Messages result) in
                  let warn1 := match persistErr with
                               | Some err =>
                                   [("warning: failed to persist messages: "
                                     ++ Error err)%string]
                               | None => []
                               end in
                  let last := highestMessageID (Some result) (pushover.Messages result) in
                  let '(warn2, ack_calls) :=
                    if 0 <? last then
                      let '(err, ev_ack) :=
                        pushover.DeleteMessages (lib w) (net_ack w) client last in
                      (match err with
                       | Some err => [("warning: unable to ack messages: "
                                       ++ Error err)%string]
                       | None => []
                       end,
                       [CallDeleteMessages last ev_ack])
                    else ([], []) in
                  mkRun None (warn1 ++ warn2)
                        (truncate limit (pushover.Messages result))
                        (Some store')
                        (CallFetchMessages ev_fetch :: ack_calls)
              end
          end
      end
  end.

(** performLogin; [net1] and [net2] are the network during the first
    and the second login, [asked] the outcome of the prompt for the
    2FA code.  Returns the result and the traces of the logins made. *)
Definition performLogin (lib : pushover.Lib) (net1 net2 : pushover.Net)
           (asked : string + error) (client : pushover.Client)
           (email password : string)
  : (pushover.LoginResponse + error) * list (list pushover.Event) :=
  let '(r1, tr1) := pushover.Login lib net1 client email password "" in
  match r1 with
  | inl loginResp => (inl loginResp, [tr1])
  | inr err =>
      if IsTwoFactorRequired err then
        match asked with
        | inr promptErr => (inr promptErr, [tr1])
        | inl code =>
            let '(r2, tr2) := pushover.Login lib net2 client email password code in
            (r2, [tr1; tr2])
        end
      else (inr err, [tr1])
  end.

(** *** push send *)

(** The flags of [push send]. *)
Record SendFlags : Type := mkSendFlags {
  flTitle : string;
  flPriority : Z;
  flURL : string;
  flURLTitle : string;
  flSound : string;
  flDevice : string
}.

(** What [runSend] prints on success. *)
Inductive SendLine : Type :=
| LineSent (requestID : string)      (* Notification sent. Request ID: ... *)
| LineReceipt (receipt : string).    (* Receipt: ... *)

Record SendRun : Type := mkSendRun {
  send_err : option error;
  send_stderr : list string;
  send_stdout : list SendLine;
  send_store : option db.Store;
  send_calls : list mcp.SendCall
}.

(** logSentMessage; [opened] is the outcome of [openStore].  Returns
    the error and the store as it was before the deferred Close. *)
Definition logSentMessage (w : World) (opened : db.Store + error)
           (message title device : string) (priority : Z) (requestID : string)
  : option error * option db.Store :=
  match opened with
  | inr err => (Some err, None)
  | inl store =>
      let rec := db.mkSentRecord 0 message title device priority (clock w 0) requestID in
      let '(err, store') := db.LogSent (drv w) store rec in
      (err, Some store')
  end.

(** runSend; [args] are the positional arguments. *)
Definition runSend (w : World) (net_send : pushover.Net)
           (loaded : option config.Config + error) (opened : db.Store + error)
           (args : list string) (flags : SendFlags) : SendRun :=
  match loaded with
  | inr err => mkSendRun (Some err) [] [] None []
  | inl cfg =>
      match config.ValidateSend cfg with
      | Some err => mkSendRun (Some err) [] [] None []
      | None =>
          let message := pushover.TrimSpace (lib w) (Join args " ") in
          if String.eqb message "" then
            mkSendRun (Some (errorString "message cannot be empty")) [] [] None []
          else
            let priority := flPriority flags in
            if (priority <? -2) || (2 <? priority) then
              mkSendRun (Some (errorString "priority must be between -2 and 2"))
                        [] [] None []
            else
              let client := newClient w cfg in
              let params := pushover.mkSendParams message (flTitle flags) (flDevice flags)
                                                  priority (flURL flags) (flURLTitle flags)
                                                  (flSound flags) 0 false false in
              let '(sent, ev) := pushover.Send (lib w) net_send client params in
              match sent with
              | inr err => mkSendRun (Some err) [] [] None [mcp.CallSend params ev]
              | inl resp =>
                  let '(logErr, store') :=
                    logSentMessage w opened message (flTitle flags) (flDevice flags)
                                   priority (pushover.sRequest resp) in
                  mkSendRun None
                            match logErr with
                            | Some err => [("warning: unable to log sent message: "
                                            ++ Error err)%string]
                            | None => []
                            end
                            (LineSent (pushover.sRequest resp)
                             :: if String.eqb (pushover.sReceipt resp) "" then []
                                else [LineReceipt (pushover.sReceipt resp)])
                            store' [mcp.CallSend params ev]
              end
      end
  end.

(** *** push history *)

(** What [runHistory] hands to its writer. *)
Inductive HistoryOut : Type :=
| HistoryJSON (records : list db.MessageRecord)
| HistoryTable (records : list db.MessageRecord).

Record HistoryRun : Type := mkHistoryRun {
  hist_err : option error;
  hist_out : option HistoryOut;
  hist_store : option db.Store
}.

(** runHistory; [parseLocal] is [dateparse.ParseLocal], [encode_err]
    the outcome of the JSON encoder on the output stream. *)
Definition runHistory (w : World) (parseLocal : string -> Time.t + error)
           (encode_err : option error) (opened : db.Store + error)
           (limit : Z) (sinceStr search : string) (asJSON : bool) : HistoryRun :=
  let limit := if limit <=? 0 then 20 else limit in
  let since : option Time.t + error :=
    if String.eqb sinceStr "" then inl None
    else match parseLocal sinceStr with
         | inr err => inr (wrapError "parse --since: " err)
         | inl parsed => inl (Some parsed)
         end in
  match since with
  | inr err => mkHistoryRun (Some err) None None
  | inl since =>
      match opened with
      | inr err => mkHistoryRun (Some err) None None
      | inl store =>
          let '(records, err, store') :=
            db.QueryMessages (drv w) store limit since search in
          match err with
          | Some err => mkHistoryRun (Some err) None (Some store')
          | None =>
              if asJSON then mkHistoryRun encode_err (Some (HistoryJSON records)) (Some store')
              else mkHistoryRun None (Some (HistoryTable records)) (Some store')
          end
      end
  end.

(** *** push logout *)

Inductive LogoutLine : Type :=
| NoCredentialsStored        (* No device credentials were stored. *)
| CredentialsRemoved.        (* Device credentials removed. *)

(** runLogout; [save] is [config.Save] on the configuration path.
    [loadConfig] returns a configuration whenever its error is nil.
    Returns the error, the configurations handed to [save] and what
    was printed. *)
Definition runLogout (save : config.Config -> option error)
           (loaded : config.Config + error)
  : option error * list config.Config * list LogoutLine :=
  match loaded with
  | inr err => (Some err, [], [])
  | inl cfg =>
      if String.eqb (config.DeviceID cfg) "" && String.eqb (config.DeviceSecret cfg) ""
      then (None, [], [NoCredentialsStored])
      else
        let cfg' := config.mkConfig (config.AppToken cfg) (config.UserKey cfg) "" ""
                                    (config.DefaultDevice cfg)
                                    (config.DefaultPriority cfg) in
        match save cfg' with
        | Some err => (Some (wrapError "saving config: " err), [cfg'], [])
        | None => (None, [cfg'], [CredentialsRemoved])
        end
  end.

(** *** push login *)

(** The answers of the prompter: [Ask label defaultValue] and
    [AskSecret label]. *)
Record Prompts : Type := mkPrompts {
  Ask : string -> string -> string + error;
  AskSecret : string -> string + error
}.

Record LoginRun : Type := mkLoginRun {
  login_err : option error;
  login_saved : list config.Config;
  login_traces : list (list pushover.Event);
  register_trace : option (list pushover.Event)
}.

(** runLogin; [net1], [net2] and [net_reg] are the network during the
    first login, the login with the 2FA code and the registration,
    [deviceName] the value of the flag. *)
Definition runLogin (lib : pushover.Lib) (goos : string)
           (net1 net2 net_reg : pushover.Net) (prom : Prompts)
           (save : config.Config -> option error)
           (loaded : option config.Config + error) (deviceName : string) : LoginRun :=
  match loaded with
  | inr err => mkLoginRun (Some err) [] [] None
  | inl cfg =>
      let cfg := match config.Clone cfg with
                 | Some c => c
                 | None => config.mkConfig "" "" "" "" "" 0
                 end in
      match Ask prom "Pushover app token" (config.AppToken cfg) with
      | inr err => mkLoginRun (Some (wrapError "reading app token: " err)) [] [] None
      | inl appToken =>
      match Ask prom "Pushover user key" (config.UserKey cfg) with
      | inr err => mkLoginRun (Some (wrapError "reading user key: " err)) [] [] None
      | inl userKey =>
      match Ask prom "Email" "" with
      | inr err => mkLoginRun (Some (wrapError "reading email: " err)) [] [] None
      | inl email =>
      match AskSecret prom "Password" with
      | inr err => mkLoginRun (Some (wrapError "reading password: " err)) [] [] None
      | inl password =>
          let client := pushover.NewClient goos appToken userKey "" "" in
          let '(logged, traces) :=
            performLogin lib net1 net2 (Ask prom "2FA code" "") client email password in
          match logged with
          | inr err => mkLoginRun (Some err) [] traces None
          | inl loginResp =>
              let '(registered, tr) :=
                pushover.RegisterDevice lib net_reg client (pushover.lSecret loginResp)
                                        deviceName in
              match registered with
              | inr err => mkLoginRun (Some err) [] traces (Some tr)
              | inl deviceResp =>
                  let deviceID :=
                    if negb (String.eqb (pushover.dID deviceResp) "")
                    then pushover.dID deviceResp
                    else if negb (String.eqb (pushover.dName deviceResp) "")
                         then pushover.dName deviceResp
                         else config.DeviceID cfg in
                  let defaultDevice :=
                    if String.eqb (config.DefaultDevice cfg) ""
                       && negb (String.eqb deviceName "")
                    then deviceName else config.DefaultDevice cfg in
                  let cfg' := config.mkConfig appToken userKey deviceID
                                              (pushover.lSecret loginResp) defaultDevice
                                              (config.DefaultPriority cfg) in
                  mkLoginRun (save cfg') [cfg'] traces (Some tr)
              end
          end
      end end end end
  end.

(** *** push mcp *)

(** runMCP up to [Serve]: the lines written to the error stream and
    the server that is started. *)
Definition runMCP (loaded : option config.Config + error) (opened : db.Store + error)
  : list string * (mcp.Server + error) :=
  match loaded with
  | inr err => ([], inr err)
  | inl cfg =>
      let warn1 := match config.ValidateSend cfg with
                   | Some err => [("warning: " ++ Error err)%string]
                   | None => []
                   end in
      let warn2 := if negb (config.DeviceConfigured cfg)
                   then ["warning: device not configured, check_messages and mark_read will fail until you run 'push login'"]
                   else [] in
      match opened with
      | inr err => (warn1 ++ warn2, inr err)
      | inl store =>
          match mcp.NewServer cfg store with
          | inr err => (warn1 ++ warn2, inr err)
          | inl server =>
              (warn1 ++ warn2 ++ ["Starting MCP server (stdio)..."], inl server)
          end
      end
  end.

End cli.

(* ================================================================== *)
(** * Vocabulary of the properties *)

Module DbSpec.

Import db.

(** The rows of a table carrying remote identity [p]. *)
Definition rows_with (p : Z) (tbl : list Row) : list Row :=
  filter (fun r => pushover_id r =? p) tbl.

(** The UNIQUE constraint on [pushover_id]. *)
Definition unique_ids (tbl : list Row) : Prop := NoDup (map pushover_id tbl).

(** A driver on which no call fails. *)
Definition fault_free (drv : Driver) : Prop :=
  begin_err drv = None /\ prepare_err drv = None /\
  (forall k, exec_err drv k = None) /\ commit_err drv = None.

(** The arguments executed for a batch, record number [k] first. *)
Fixpoint batch_args (drv : Driver) (k : nat) (msgs : list MessageRecord)
  : list InsertArgs :=
  match msgs with
  | [] => []
  | msg :: rest => insert_args drv k msg :: batch_args drv (S k) rest
  end.

Definition apply_all (tbl : list Row) (args : list InsertArgs) : list Row :=
  fold_left upsert args tbl.

(** The last element of a list satisfying a test. *)
Fixpoint last_such {A : Type} (f : A -> bool) (l : list A) : option A :=
  match l with
  | [] => None
  | x :: r =>
      match last_such f r with
      | Some y => Some y
      | None => if f x then Some x else None
      end
  end.

Definition last_args (p : Z) (args : list InsertArgs) : option InsertArgs :=
  last_such (fun a => a_pushover_id a =? p) args.

(** The last record of a batch written for remote identity [p]. *)
Definition last_record (p : Z) (msgs : list MessageRecord) : option MessageRecord :=
  last_such (fun m => PushoverID m =? p) msgs.

(** A record as the store gives it back: the content of [msg] under
    rowid [i] and receipt time [t]. *)
Definition stored_record (i : Z) (t : Time.t) (msg : MessageRecord) : MessageRecord :=
  mkMessageRecord i (PushoverID msg) (UMID msg) (Title msg) (Message msg) (App msg)
                  (AID msg) (Icon msg) t (SentAt msg) (Priority msg) (URL msg)
                  (Acked msg) (HTML msg).

(** *** Sample data *)

Definition no_faults : Driver :=
  mkDriver None None (fun _ => None) None false None None (fun _ => None) None
           (fun k => 1000 + Z.of_nat k).

(** The driver on which the ExecContext of record number [k] fails. *)
Definition exec_fails_at (k : nat) : Driver :=
  mkDriver None None
           (fun j => if Nat.eqb j k then Some (errorString "disk I/O error") else None)
           None false None None (fun _ => None) None
           (fun k => 1000 + Z.of_nat k).

Definition empty_db : DB := mkDB [] [] false [].

Definition sample_record (p : Z) (title body : string) (received : Time.t)
  : MessageRecord :=
  mkMessageRecord 0 p "" title body "app" "" "" received None 0 "" false false.

Definition sample_sent : SentRecord := mkSentRecord 0 "hello" "" "" 0 0 "req-1".

(** The reading of the upsert property that takes the stored fields
    from the record alone: the row read back is the last record under
    its rowid, receipt time included. *)
Definition stored_fields_are_the_records : Prop :=
  forall drv d batch n d' p msg r,
    PersistMessages drv (Handle d) batch = (n, None, Handle d') ->
    last_record p batch = Some msg ->
    In r (rows_with p (messages d')) ->
    scan r = stored_record (id r) (ReceivedAt msg) msg.

(** A store that went through [Close]. *)
Definition closed_store (d : DB) : Store := snd (Close (Handle d)).

(** *** Queries *)

(** [limit] as [QueryMessages] normalises it. *)
Definition effective_limit (limit : Z) : Z := if limit <=? 0 then 20 else limit.

(** Most recent first. *)
Definition newer_first (a b : MessageRecord) : Prop := ReceivedAt b <= ReceivedAt a.

Definition row_newer_first (a b : Row) : Prop := received_at b <= received_at a.

(** [sub] occurs in [text], ASCII letters compared without regard to
    case (the comparison of the store's LIKE). *)
Fixpoint prefix_nocase (sub text : list ascii) : bool :=
  match sub, text with
  | [], _ => true
  | _ :: _, [] => false
  | c :: sub', d :: text' => like_char_eq c d && prefix_nocase sub' text'
  end.

Fixpoint occurs_nocase (sub text : list ascii) : bool :=
  prefix_nocase sub text
  || match text with
     | [] => false
     | _ :: text' => occurs_nocase sub text'
     end.

Definition contains (text sub : string) : bool :=
  occurs_nocase (list_ascii_of_string sub) (list_ascii_of_string text).

(** A search string without the wildcards of LIKE. *)
Definition literal (sub : list ascii) : Prop :=
  Forall (fun c => Ascii.eqb c percent = false /\ Ascii.eqb c underscore = false) sub.

(** A table of twenty rows, remote identities and receipt times 1 to
    20; the rows 3, 6, 9, 12, 15 and 18 mention an error. *)
Definition twenty_rows : list Row :=
  map (fun n : nat =>
         let z := Z.of_nat n in
         mkRow z (insert_args no_faults 0
                    (sample_record z "" (if (n mod 3 =? 0)%nat
                                         then "disk error on host" else "all fine")
                                   z)))
      (seq 1 20).

End DbSpec.

Module TransportSpec.

Import pushover.

(** The request as [do] hands it to [doOnce]. *)
Definition stamped (c : Client) (req : Request) : Request :=
  mkRequest (Method req) (URL req) (ReqBody req)
            (header_set "User-Agent" (userAgent c) (Header req)).

Definition is_do (e : Event) : bool :=
  match e with EvDo _ => true | _ => false end.

Definition is_build (e : Event) : bool :=
  match e with EvBuild => true | _ => false end.

(** Number of exchanges dispatched, and of calls of the builder. *)
Definition dispatches (tr : list Event) : nat := List.length (filter is_do tr).
Definition builds (tr : list Event) : nat := List.length (filter is_build tr).

(** Every exchange uses a request built since the previous exchange;
    [built] tells whether such a request is at hand. *)
Fixpoint fresh_builds (built : bool) (tr : list Event) : bool :=
  match tr with
  | [] => true
  | EvBuild :: r => fresh_builds true r
  | EvDo _ :: r => built && fresh_builds false r
  | _ :: r => fresh_builds built r
  end.

(** Every timer runs for [retryDelay], and every exchange but the
    first comes after a timer started since the previous exchange;
    [ready] tells whether the next exchange may go. *)
Fixpoint spaced (ready : bool) (tr : list Event) : bool :=
  match tr with
  | [] => true
  | EvDo _ :: r => ready && spaced false r
  | EvSleep d :: r => (d =? retryDelay) && spaced true r
  | _ :: r => spaced ready r
  end.

(** Attempt [i] runs to its end and fails with [err], and the context
    is not seen cancelled before or after it. *)
Definition quiet_failure (net : Net) (c : Client) (req : Request) (i : nat)
           (err : error) : Prop :=
  ctx_before net i = None /\
  fst (doOnce net c i (stamped c req)) = inr err /\
  ctx_after net i = None.

(** The attempts before [i] fail quietly with the errors [errs], and
    the timers after them fire. *)
Definition prefix_fails (net : Net) (c : Client) (req : Request)
           (errs : nat -> error) (i : nat) : Prop :=
  forall j, (j < i)%nat -> quiet_failure net c req j (errs j) /\ wait net j = None.

(** [lastErr] after [k] quiet failures starting at attempt [i]. *)
Definition last_error_after (errs : nat -> error) (i k : nat) (lastErr : option error)
  : option error :=
  match k with
  | O => lastErr
  | S k' => Some (errs (i + k')%nat)
  end.

(** *** The error a response of status 400 or more stands for *)

(** What the service reported in the body. *)
Definition reported (lib : Lib) (resp : Response) : ErrPayload :=
  if (0 <? String.length (Body resp))%nat
  then unmarshalError lib (Body resp)
  else mkErrPayload 0 "" [].

(** The service's status, the HTTP status when it reported none. *)
Definition reported_status (lib : Lib) (resp : Response) : Z :=
  if pStatus (reported lib resp) =? 0 then StatusCode resp
  else pStatus (reported lib resp).

(** The service's messages; the trimmed body when it reported none
    and the body is not empty. *)
Definition reported_messages (lib : Lib) (resp : Response) : list string :=
  match pErrors (reported lib resp) with
  | [] => if (0 <? String.length (Body resp))%nat then [TrimSpace lib (Body resp)] else []
  | msgs => msgs
  end.

(** [tr] ends with the exchange of attempt [i] that was answered by
    [resp]; every attempt before [i] ended in an error of [doOnce]. *)
Definition answered_at (net : Net) (c : Client) (build : requestBuilder)
           (resp : Response) (tr : list Event) (i : nat) : Prop :=
  exists req t0,
    build tt = inl req /\
    exchange net i (stamped c req) = inl resp /\
    (tr = t0 ++ [EvBuild; EvAcquire; EvDo (stamped c req); EvRelease] \/
     tr = t0 ++ [EvBuild; EvDo (stamped c req)]) /\
    (dispatches t0 <= i)%nat /\
    (forall k, (k < i)%nat -> exists err, fst (doOnce net c k (stamped c req)) = inr err).

(** *** Sample data *)

Definition id_lib : Lib :=
  mkLib (fun s => s) (fun _ => "") (fun s => s)
        (fun _ => mkErrPayload 0 "" [])
        (fun _ => inl (mkFetchPayload 1 "" 0 []))
        (fun _ => inl (mkLoginResponse 1 "" "secret" []))
        (fun _ => inl (mkDeviceRegistration 1 "" "dev" "secret" "cli"))
        (fun _ => inl (mkSendResponse 1 "" "" [])).

Definition sample_client : Client := NewClient "linux" "app" "user" "dev" "secret".

Definition sample_request : Request := mkRequest "GET" "https://example.invalid/" "" [].

Definition timeout_error : error := errorString "net/http: timeout awaiting response".

(** A network on which every exchange times out and nobody cancels. *)
Definition dead_net : Net :=
  mkNet (fun _ => None) (fun _ => None) (fun _ _ => inr timeout_error)
        (fun _ => None) (fun _ => None).

(** A network answering every exchange with [resp]. *)
Definition answering (resp : Response) : Net :=
  mkNet (fun _ => None) (fun _ => None) (fun _ _ => inl resp)
        (fun _ => None) (fun _ => None).

(** The first exchange times out, then the caller cancels during the
    delay. *)
Definition cancelled_in_delay : Net :=
  mkNet (fun _ => None) (fun _ => None) (fun _ _ => inr timeout_error)
        (fun _ => None) (fun _ => Some (ctxError false)).

End TransportSpec.

Module LimiterSpec.

Import limiter.

(** Three callers: two are inside [client.Do], the third waits at the
    select with the channel full. *)
Definition b2n (b : bool) : nat := if b then 1%nat else 0%nat.

Definition two_busy_one_waiting : state :=
  mkState 2 2 [InDo; InDo; AtSelect].

End LimiterSpec.

Module PipelineSpec.

Import pushover.

(** [m] is the maximum remote identity among [msgs]. *)
Definition is_max_id (m : Z) (msgs : list ReceivedMessage) : Prop :=
  In m (map PushoverID msgs) /\ forall x, In x (map PushoverID msgs) -> x <= m.

(** The reading of the cursor rule that takes the maximum of the list
    whenever the explicit cursor is 0 and the list is not empty. *)
Definition cursor_is_the_maximum : Prop :=
  forall r, LastMessageID r = 0 -> Messages r <> [] ->
            is_max_id (mcp.determineAckID (Some r)) (Messages r).

(** The identities a cycle acknowledged, in order. *)
Definition ack_targets (calls : list ClientCall) : list Z :=
  flat_map (fun c => match c with
                     | CallDeleteMessages upToID _ => [upToID]
                     | CallFetchMessages _ => []
                     end) calls.

(** *** Sample data *)

Definition sample_message (p : Z) (body : string) : ReceivedMessage :=
  mkReceivedMessage p "" "" body "app" "" "" 0 "" "" false false 0.

Definition three_messages : list ReceivedMessage :=
  [sample_message 100 "one"; sample_message 105 "two"; sample_message 103 "three"].

(** A service that answers every request with status 200; the fetch
    decodes to [msgs] and the cursor [last]. *)
Definition serving (msgs : list ReceivedMessage) (last : Z) (drv : db.Driver) : World :=
  mkWorld (mkLib (fun s => s) (fun _ => "") (fun s => s)
                 (fun _ => mkErrPayload 0 "" [])
                 (fun _ => inl (mkFetchPayload 1 "req" last msgs))
                 (fun _ => inl (mkLoginResponse 1 "" "secret" []))
                 (fun _ => inl (mkDeviceRegistration 1 "" "dev" "secret" "cli"))
                 (fun _ => inl (mkSendResponse 1 "" "" [])))
          "linux"
          (TransportSpec.answering (mkResponse 200 "{}"))
          (TransportSpec.answering (mkResponse 200 "{}"))
          drv
          (fun k => 2000 + Z.of_nat k).

Definition sample_config : option config.Config :=
  Some (config.mkConfig "app" "user" "dev" "secret" "" 0).

End PipelineSpec.

Module StoreSpec.

Import db DbSpec.

(** The remote identities stored in a table. *)
Definition stored_ids (tbl : list Row) : list Z := map pushover_id tbl.

(** The row [LogSent] writes for [rec] under rowid [i]. *)
Definition sent_row_of (drv : Driver) (i : Z) (rec : SentRecord) : SentRow :=
  mkSentRow i (sMessage rec) (sTitle rec) (sDevice rec) (sPriority rec)
            (if Time.IsZero (sSentAt rec) then now drv 0 else sSentAt rec)
            (sRequestID rec).

(** A driver whose Commit fails with the database locked, the
    transaction staying open on the connection. *)
Definition commit_busy : Driver :=
  mkDriver None None (fun _ => None) (Some (errorString "database is locked")) true
           None None (fun _ => None) None (fun k => 1000 + Z.of_nat k).

(** A table with two rows, remote identities 4 and 9. *)
Definition two_rows_db : DB :=
  mkDB [mkRow 1 (insert_args no_faults 0 (sample_record 4 "t4" "four" 40));
        mkRow 2 (insert_args no_faults 0 (sample_record 9 "t9" "nine" 90))]
       [] false [].

(** The last message of a fetch carrying remote identity [p]. *)
Definition last_received (p : Z) (msgs : list pushover.ReceivedMessage)
  : option pushover.ReceivedMessage :=
  last_such (fun m => pushover.PushoverID m =? p) msgs.

End StoreSpec.

Module WireSpec.

Import pushover TransportSpec.

(** The values a header list holds under key [k]. *)
Definition header_values (k : string) (h : list (string * string)) : list string :=
  map snd (filter (fun kv => String.eqb (fst kv) k) h).

(** The requests handed to [client.Do], in order. *)
Definition dispatched (tr : list Event) : list Request :=
  flat_map (fun e => match e with EvDo req => [req] | _ => [] end) tr.

(** The durations of the retry timers, in order. *)
Definition delays (tr : list Event) : list Z :=
  flat_map (fun e => match e with EvSleep d => [d] | _ => [] end) tr.

(** Time spent in retry timers that ran to their end or were cut short
    by the context, counted in full. *)
Definition total_delay (tr : list Event) : Z := fold_right Z.add 0 (delays tr).

(** None of the four credentials is blank. *)
Definition receive_credentials_set (lib : Lib) (c : Client) : Prop :=
  TrimSpace lib (AppToken c) <> "" /\ TrimSpace lib (UserKey c) <> "" /\
  TrimSpace lib (DeviceID c) <> "" /\ TrimSpace lib (DeviceSecret c) <> "".

Definition send_credentials_set (lib : Lib) (c : Client) : Prop :=
  TrimSpace lib (AppToken c) <> "" /\ TrimSpace lib (UserKey c) <> "".

Definition sample_params : SendParams :=
  mkSendParams "hello" "greeting" "" 0 "" "" "" 0 false false.

(** The first exchange times out, the second is answered with [resp]. *)
Definition flaky (resp : Response) : Net :=
  mkNet (fun _ => None) (fun _ => None)
        (fun i _ => match i with O => inr timeout_error | S _ => inl resp end)
        (fun _ => None) (fun _ => None).

End WireSpec.

Module RetrySpec.

Import pushover TransportSpec.

(** A network-level failure of attempt [i] on request [req]: the
    context is live at the head of the attempt, a slot of the limiter
    is obtained, the exchange fails with [err], and the context is
    still live afterwards. *)
Definition network_failure (net : Net) (i : nat) (req : Request) (err : error) : Prop :=
  ctx_before net i = None /\ acquire net i = None /\
  exchange net i req = inr err /\ ctx_after net i = None.

(** The attempts before [i] met the network-level failures [errs],
    and the timer after each of them ran to its end. *)
Definition failed_so_far (net : Net) (req : Request) (errs : nat -> error) (i : nat)
  : Prop :=
  forall j, (j < i)%nat -> network_failure net j req (errs j) /\ wait net j = None.

(** Attempt [i] gets as far as its exchange. *)
Definition goes_ahead (net : Net) (i : nat) : Prop :=
  ctx_before net i = None /\ acquire net i = None.

End RetrySpec.

Module CycleSpec.

Import pushover PipelineSpec.

(** A service that serves [msgs] but answers the acknowledgment with
    status 500. *)
Definition rejecting_acks (msgs : list ReceivedMessage) : World :=
  mkWorld (lib (serving msgs 0 DbSpec.no_faults)) "linux"
          (TransportSpec.answering (mkResponse 200 "{}"))
          (TransportSpec.answering (mkResponse 500 ""))
          DbSpec.no_faults
          (fun k => 2000 + Z.of_nat k).

(** A service whose fetch is answered with status 500. *)
Definition rejecting_fetch : World :=
  mkWorld (lib (serving [] 0 DbSpec.no_faults)) "linux"
          (TransportSpec.answering (mkResponse 500 ""))
          (TransportSpec.answering (mkResponse 200 "{}"))
          DbSpec.no_faults
          (fun k => 2000 + Z.of_nat k).

(** The limit of [handleCheckMessages]. *)
Definition check_limit (input : mcp.CheckMessagesInput) : Z :=
  match mcp.Limit input with
  | Some l => if 0 <? l then l else 10
  | None => 10
  end.

End CycleSpec.

Module EntrySpec.

Import pushover PipelineSpec.

(** The two tables behind a store; a store without a handle has
    none. *)
Definition sent_rows (s : db.Store) : list db.SentRow :=
  match s with
  | db.Handle d => db.sent d
  | _ => []
  end.

Definition message_rows (s : db.Store) : list db.Row :=
  match s with
  | db.Handle d => db.messages d
  | _ => []
  end.

(** The calls made on the SQL layer so far. *)
Definition sql_calls (s : db.Store) : list db.SqlOp :=
  match s with
  | db.Handle d => db.journal d
  | _ => []
  end.

Definition in_range (priority : Z) : Prop := -2 <= priority <= 2.

(** What the send_notification tool falls back to when the input names
    no priority or no device. *)
Definition effective_priority (c : config.Config) (input : mcp.SendNotificationInput) : Z :=
  match mcp.inPriority input with
  | Some p => p
  | None => config.DefaultPriority c
  end.

Definition effective_device (c : config.Config) (input : mcp.SendNotificationInput)
  : string :=
  if String.eqb (mcp.inDevice input) "" then config.DefaultDevice c
  else mcp.inDevice input.

(** The notification the tool sends for [input] under configuration
    [c], and the one [push send] sends for its arguments and flags. *)
Definition tool_params (c : config.Config) (input : mcp.SendNotificationInput)
  : SendParams :=
  mkSendParams (mcp.inMessage input) (mcp.inTitle input) (effective_device c input)
               (effective_priority c input) (mcp.inURL input) "" (mcp.inSound input)
               0 false false.

Definition cli_params (lib : Lib) (args : list string) (flags : cli.SendFlags)
  : SendParams :=
  mkSendParams (TrimSpace lib (Join args " ")) (cli.flTitle flags) (cli.flDevice flags)
               (cli.flPriority flags) (cli.flURL flags) (cli.flURLTitle flags)
               (cli.flSound flags) 0 false false.

(** The row of table [sent] that records a notification sent with
    [params] and answered under [requestID], appended to [tbl]. *)
Definition logged_row (w : World) (tbl : list db.SentRow) (params : SendParams)
           (requestID : string) : db.SentRow :=
  db.mkSentRow (db.next_sent_id tbl) (spMessage params) (spTitle params)
               (spDevice params) (spPriority params)
               (if Time.IsZero (clock w 0) then db.now (drv w) 0 else clock w 0)
               requestID.

(** What [runSend] prints for a response. *)
Definition send_lines (resp : SendResponse) : list cli.SendLine :=
  cli.LineSent (sRequest resp)
  :: if String.eqb (sReceipt resp) "" then [] else [cli.LineReceipt (sReceipt resp)].

(** The limit of the history readers. *)
Definition history_limit (limit : Z) : Z := if 0 <? limit then limit else 20.

(** The records a history reader prints or returns. *)
Definition history_records (out : option cli.HistoryOut) : list db.MessageRecord :=
  match out with
  | Some (cli.HistoryJSON records) | Some (cli.HistoryTable records) => records
  | None => []
  end.

(** The requests dispatched by the calls of a cycle, in order. *)
Definition requests_of (calls : list ClientCall) : list Request :=
  flat_map (fun call => match call with
                        | CallFetchMessages ev | CallDeleteMessages _ ev =>
                            WireSpec.dispatched ev
                        end) calls.

(** The two warnings of [runMCP]. *)
Definition device_warning : string :=
  "warning: device not configured, check_messages and mark_read will fail until you run 'push login'".

Definition started : string := "Starting MCP server (stdio)...".

(** The configuration on disk after a command that handed [saved] to
    [config.Save], every save having succeeded, when it was [cfg]
    before. *)
Definition on_disk (cfg : config.Config) (saved : list config.Config) : config.Config :=
  List.last saved cfg.

(** The configuration [runLogin] starts from: the loaded one, or the
    zero value when there is none. *)
Definition login_base (loaded : option config.Config + error) : config.Config :=
  match loaded with
  | inl (Some c) => c
  | _ => config.mkConfig "" "" "" "" "" 0
  end.

(** *** Sample data *)

(** A service that answers every request with status 200 and a send
    with request identity [req-7]. *)
Definition push_service (drv : db.Driver) : World :=
  mkWorld (mkLib (fun s => s) (fun _ => "") (fun s => s)
                 (fun _ => mkErrPayload 0 "" [])
                 (fun _ => inl (mkFetchPayload 1 "req" 0 three_messages))
                 (fun _ => inl (mkLoginResponse 1 "" "secret" []))
                 (fun _ => inl (mkDeviceRegistration 1 "" "dev-1" "secret" "cli"))
                 (fun _ => inl (mkSendResponse 1 "req-7" "" [])))
          "linux"
          (TransportSpec.answering (mkResponse 200 "{}"))
          (TransportSpec.answering (mkResponse 200 "{}"))
          drv
          (fun k => 2000 + Z.of_nat k).

Definition ok_net : Net := TransportSpec.answering (mkResponse 200 "{}").

(** A configuration with defaults for device and priority. *)
Definition config_with_defaults : config.Config :=
  config.mkConfig "app" "user" "dev" "secret" "phone" 1.

Definition sample_input : mcp.SendNotificationInput :=
  mcp.mkSendNotificationInput "backup done" "cron" None "" "" "".

Definition sample_flags : cli.SendFlags := cli.mkSendFlags "cron" 0 "" "" "" "".

(** A driver whose INSERT into table [sent] fails. *)
Definition sent_fails : db.Driver :=
  db.mkDriver None None (fun _ => None) None false
              (Some (errorString "disk I/O error"))
              None (fun _ => None) None (fun _ => 1000).

(** A date parser that knows one date. *)
Definition parse_2024 (text : string) : Time.t + error :=
  if String.eqb text "2024-01-01" then inl 50
  else inr (errorString "Could not find format").

(** Prompts answered with a token, a key, an address and a password. *)
Definition sample_prompts : cli.Prompts :=
  cli.mkPrompts (fun label defaultValue =>
                   if String.eqb label "Email" then inl "me@example.org"
                   else if String.eqb label "2FA code" then inl "123456"
                   else if String.eqb defaultValue "" then inl "typed" else inl defaultValue)
                (fun _ => inl "hunter2").

End EntrySpec.

(* ================================================================== *)
(** * Properties *)

(** ** The message store *)

Module DbProps.

Import db DbSpec.

Lemma last_such_app {A : Type} (f : A -> bool) (l1 l2 : list A) :
  last_such f (l1 ++ l2) =
  match last_such f l2 with
  | Some y => Some y
  | None => last_such f l1
  end.
Proof.
  induction l1 as [|x l1 IH]; simpl.
  - destruct (last_such f l2); reflexivity.
  - rewrite IH. destruct (last_such f l2); reflexivity.
Qed.

Lemma pushover_id_do_update a r : pushover_id (do_update a r) = pushover_id r.
Proof.
  unfold do_update. destruct (pushover_id r =? a_pushover_id a) eqn:E; [|reflexivity].
  apply Z.eqb_eq in E. unfold pushover_id at 1. simpl. symmetry. exact E.
Qed.

Lemma id_do_update a r : id (do_update a r) = id r.
Proof. unfold do_update. destruct (pushover_id r =? a_pushover_id a); reflexivity. Qed.

Lemma ids_map_do_update a tbl :
  map pushover_id (map (do_update a) tbl) = map pushover_id tbl.
Proof.
  rewrite map_map. apply map_ext. intros r. apply pushover_id_do_update.
Qed.

Lemma has_pushover_id_In p tbl :
  has_pushover_id p tbl = true <-> In p (map pushover_id tbl).
Proof.
  unfold has_pushover_id. rewrite existsb_exists, in_map_iff. split.
  - intros [r [Hin Heq]]. exists r. apply Z.eqb_eq in Heq. auto.
  - intros [r [Heq Hin]]. exists r. split; [assumption|]. apply Z.eqb_eq. assumption.
Qed.

Lemma rows_with_absent p tbl :
  ~ In p (map pushover_id tbl) -> rows_with p tbl = [].
Proof.
  induction tbl as [|r tbl IH]; simpl; intros H; [reflexivity|].
  destruct (pushover_id r =? p) eqn:E.
  - apply Z.eqb_eq in E. exfalso. apply H. left. exact E.
  - apply IH. intros Hin. apply H. right. exact Hin.
Qed.

Lemma rows_with_app p t1 t2 : rows_with p (t1 ++ t2) = rows_with p t1 ++ rows_with p t2.
Proof. unfold rows_with. apply filter_app. Qed.

(** Under the UNIQUE constraint an identity names at most one row. *)
Lemma rows_with_unique p tbl :
  unique_ids tbl -> In p (map pushover_id tbl) -> exists r, rows_with p tbl = [r].
Proof.
  unfold unique_ids. induction tbl as [|r tbl IH]; simpl; intros Hnd Hin; [contradiction|].
  inversion Hnd as [|x l Hnotin Hnd']; subst.
  destruct (pushover_id r =? p) eqn:E.
  - apply Z.eqb_eq in E. exists r. f_equal. apply rows_with_absent. rewrite <- E. exact Hnotin.
  - destruct Hin as [Heq|Hin]; [apply Z.eqb_neq in E; contradiction|].
    apply IH; assumption.
Qed.

Lemma rows_with_update_same a tbl :
  rows_with (a_pushover_id a) (map (do_update a) tbl) =
  map (fun r => mkRow (id r) a) (rows_with (a_pushover_id a) tbl).
Proof.
  induction tbl as [|r tbl IH]; simpl; [reflexivity|].
  rewrite pushover_id_do_update.
  destruct (pushover_id r =? a_pushover_id a) eqn:E; simpl.
  - unfold do_update at 1. rewrite E. f_equal. exact IH.
  - exact IH.
Qed.

Lemma rows_with_update_other a p tbl :
  p <> a_pushover_id a -> rows_with p (map (do_update a) tbl) = rows_with p tbl.
Proof.
  intros Hne. induction tbl as [|r tbl IH]; simpl; [reflexivity|].
  rewrite pushover_id_do_update.
  destruct (pushover_id r =? p) eqn:E.
  - unfold do_update at 1.
    destruct (pushover_id r =? a_pushover_id a) eqn:E2.
    + apply Z.eqb_eq in E, E2. congruence.
    + f_equal. exact IH.
  - exact IH.
Qed.

Lemma upsert_unique a tbl : unique_ids tbl -> unique_ids (upsert tbl a).
Proof.
  unfold unique_ids, upsert. intros Hnd.
  destruct (has_pushover_id (a_pushover_id a) tbl) eqn:E.
  - rewrite ids_map_do_update. exact Hnd.
  - rewrite map_app. simpl.
    apply NoDup_app; [exact Hnd | repeat constructor; simpl; tauto |].
    intros x Hin [Hx|[]]. subst x.
    apply has_pushover_id_In in Hin. unfold pushover_id in Hin at 1. simpl in Hin.
    congruence.
Qed.

Lemma rows_with_upsert_other a p tbl :
  p <> a_pushover_id a -> rows_with p (upsert tbl a) = rows_with p tbl.
Proof.
  intros Hne. unfold upsert.
  destruct (has_pushover_id (a_pushover_id a) tbl).
  - apply rows_with_update_other. exact Hne.
  - rewrite rows_with_app. simpl. unfold pushover_id. simpl.
    destruct (a_pushover_id a =? p) eqn:E.
    + apply Z.eqb_eq in E. congruence.
    + apply app_nil_r.
Qed.

(** The upsert leaves exactly one row for the identity it writes; a
    row that was there keeps its rowid. *)
Lemma rows_with_upsert_same a tbl :
  unique_ids tbl ->
  exists i, rows_with (a_pushover_id a) (upsert tbl a) = [mkRow i a] /\
            (forall r0, In r0 tbl -> pushover_id r0 = a_pushover_id a -> i = id r0).
Proof.
  intros Hnd. unfold upsert.
  destruct (has_pushover_id (a_pushover_id a) tbl) eqn:E.
  - apply has_pushover_id_In in E.
    destruct (rows_with_unique _ _ Hnd E) as [r Hr].
    exists (id r). rewrite rows_with_update_same, Hr. split; [reflexivity|].
    intros r0 Hin Hp.
    assert (Hin' : In r0 (rows_with (a_pushover_id a) tbl)).
    { unfold rows_with. apply filter_In. split; [exact Hin|]. apply Z.eqb_eq. exact Hp. }
    rewrite Hr in Hin'. destruct Hin' as [->|[]]. reflexivity.
  - assert (Hno : ~ In (a_pushover_id a) (map pushover_id tbl)).
    { intros Hin. apply has_pushover_id_In in Hin. congruence. }
    exists (next_rowid tbl). rewrite rows_with_app, (rows_with_absent _ _ Hno). simpl.
    unfold pushover_id. simpl. rewrite Z.eqb_refl. split; [reflexivity|].
    intros r0 Hin Hp. exfalso. apply Hno. apply in_map_iff. exists r0. auto.
Qed.

Lemma upsert_keeps_rows a tbl r0 :
  In r0 tbl ->
  exists r1, In r1 (upsert tbl a) /\ id r1 = id r0 /\ pushover_id r1 = pushover_id r0.
Proof.
  intros Hin. unfold upsert. destruct (has_pushover_id (a_pushover_id a) tbl).
  - exists (do_update a r0). split; [apply in_map; exact Hin|].
    split; [apply id_do_update | apply pushover_id_do_update].
  - exists r0. split; [apply in_or_app; left; exact Hin | split; reflexivity].
Qed.

Lemma apply_all_unique args : forall tbl, unique_ids tbl -> unique_ids (apply_all tbl args).
Proof.
  induction args as [|a args IH]; simpl; intros tbl H; [exact H|].
  apply IH. apply upsert_unique. exact H.
Qed.

Lemma apply_all_app tbl a1 a2 : apply_all (apply_all tbl a1) a2 = apply_all tbl (a1 ++ a2).
Proof. unfold apply_all. symmetry. apply fold_left_app. Qed.

(** Last writer wins, for a whole sequence of upserts. *)
Lemma rows_with_apply_all p args : forall tbl,
  unique_ids tbl ->
  match last_args p args with
  | Some a =>
      exists i, rows_with p (apply_all tbl args) = [mkRow i a] /\
                (forall r0, In r0 tbl -> pushover_id r0 = p -> i = id r0)
  | None => rows_with p (apply_all tbl args) = rows_with p tbl
  end.
Proof.
  induction args as [|a args IH]; intros tbl Hnd; simpl; [reflexivity|].
  specialize (IH (upsert tbl a) (upsert_unique a tbl Hnd)).
  unfold last_args in *. simpl.
  destruct (last_such (fun a0 => a_pushover_id a0 =? p) args) as [b|].
  - destruct IH as [i [Hrows Hid]]. exists i. split; [exact Hrows|].
    intros r0 Hin Hp.
    destruct (upsert_keeps_rows a tbl r0 Hin) as [r1 [Hin1 [Hid1 Hp1]]].
    rewrite <- Hid1. apply Hid; [exact Hin1 | congruence].
  - destruct (a_pushover_id a =? p) eqn:E.
    + apply Z.eqb_eq in E. subst p. rewrite IH. apply rows_with_upsert_same. exact Hnd.
    + apply Z.eqb_neq in E. rewrite IH. apply rows_with_upsert_other. congruence.
Qed.

(** *** The loop and the transaction *)

Lemma insert_args_id drv k msg : a_pushover_id (insert_args drv k msg) = PushoverID msg.
Proof. reflexivity. Qed.

Lemma insert_loop_inr drv msgs : forall k tx n n' tx',
  insert_loop drv k msgs tx n = inr (n', tx') ->
  n' = n + Z.of_nat (List.length msgs) /\
  working tx' = apply_all (working tx) (batch_args drv k msgs).
Proof.
  induction msgs as [|msg rest IH]; simpl; intros k tx n n' tx' H.
  - inversion H; subst. split; [lia | reflexivity].
  - destruct (exec_err drv k); [discriminate|].
    apply IH in H. simpl in H. destruct H as [Hn Hw]. split; [lia | exact Hw].
Qed.

Lemma insert_loop_inl drv msgs : forall k tx n n' e tx',
  insert_loop drv k msgs tx n = inl (n', e, tx') ->
  exists j e0, (j < List.length msgs)%nat /\ n' = n + Z.of_nat j /\
               exec_err drv (k + j) = Some e0 /\ e = wrapError "insert message: " e0 /\
               (forall i, (i < j)%nat -> exec_err drv (k + i) = None).
Proof.
  induction msgs as [|msg rest IH]; simpl; intros k tx n n' e tx' H; [discriminate|].
  destruct (exec_err drv k) as [e0|] eqn:E.
  - inversion H; subst. exists O, e0. rewrite Nat.add_0_r.
    repeat split; try lia; auto.
  - apply IH in H. destruct H as [j [e0 [Hj [Hn [He [Hw Hprev]]]]]].
    exists (S j), e0. rewrite Nat.add_succ_r. simpl in He.
    repeat split; try lia; auto.
    intros i Hi. destruct i as [|i]; [rewrite Nat.add_0_r; exact E|].
    rewrite Nat.add_succ_r. apply (Hprev i). lia.
Qed.

Lemma insert_loop_fault_free drv msgs : forall k tx n,
  (forall j, exec_err drv j = None) ->
  exists tx', insert_loop drv k msgs tx n = inr (n + Z.of_nat (List.length msgs), tx') /\
              working tx' = apply_all (working tx) (batch_args drv k msgs).
Proof.
  intros k tx n Hok.
  destruct (insert_loop drv k msgs tx n) as [[[n' e] tx']|[n' tx']] eqn:E.
  - apply insert_loop_inl in E. destruct E as [j [e0 [_ [_ [He _]]]]].
    rewrite Hok in He. discriminate.
  - destruct (insert_loop_inr _ _ _ _ _ _ _ E) as [Hn Hw]. subst n'.
    exists tx'. split; [reflexivity | exact Hw].
Qed.

(** A call that fails before Commit leaves both tables as they were:
    every such error path returns before the transaction is committed,
    after a Rollback where one was begun. *)
Lemma PersistMessages_error_keeps_rows drv s msgs n e s' :
  commit_err drv = None ->
  PersistMessages drv s msgs = (n, Some e, s') ->
  match s, s' with
  | Handle d, Handle d' => messages d' = messages d /\ sent d' = sent d
  | _, _ => s' = s
  end.
Proof.
  intros Hc. unfold PersistMessages. destruct s as [| |d]; intros H;
    [inversion H; reflexivity | inversion H; reflexivity |].
  destruct msgs as [|m msgs]; [discriminate|].
  destruct (if closed d then Some errDBClosed else begin_err drv).
  { inversion H; subst. split; reflexivity. }
  destruct (prepare_err drv).
  { inversion H; subst. split; reflexivity. }
  destruct (insert_loop drv 0 (m :: msgs) _ 0) as [[[n0 e0] tx0]|[n0 tx0]].
  { inversion H; subst. split; reflexivity. }
  rewrite Hc in H. discriminate.
Qed.

(** A successful call applies every record of the batch, in order,
    and counts them. *)
Lemma PersistMessages_success_applies_all drv d msgs n s' :
  PersistMessages drv (Handle d) msgs = (n, None, s') ->
  n = Z.of_nat (List.length msgs) /\
  exists d', s' = Handle d' /\
             messages d' = apply_all (messages d) (batch_args drv 0 msgs) /\
             sent d' = sent d /\ closed d' = closed d.
Proof.
  unfold PersistMessages. destruct msgs as [|m msgs]; intros H.
  { inversion H; subst. split; [reflexivity|]. exists d. auto. }
  destruct (if closed d then Some errDBClosed else begin_err drv); [discriminate|].
  destruct (prepare_err drv); [discriminate|].
  destruct (insert_loop drv 0 (m :: msgs) _ 0) as [[[n0 e0] tx0]|[n0 tx0]] eqn:E;
    [discriminate|].
  destruct (commit_err drv); [discriminate|].
  inversion H; subst. apply insert_loop_inr in E. destruct E as [Hn Hw].
  split; [lia|]. eexists. split; [reflexivity|]. simpl. auto.
Qed.

Lemma PersistMessages_fault_free drv d msgs :
  closed d = false -> fault_free drv ->
  exists d', PersistMessages drv (Handle d) msgs
             = (Z.of_nat (List.length msgs), None, Handle d') /\
             messages d' = apply_all (messages d) (batch_args drv 0 msgs) /\
             sent d' = sent d /\ closed d' = closed d.
Proof.
  intros Hopen [Hb [Hp [He Hc]]].
  destruct msgs as [|m msgs]; [exists d; auto|].
  unfold PersistMessages. rewrite Hopen, Hb, Hp.
  destruct (insert_loop_fault_free drv (m :: msgs) 0
              (mkTx (messages d) (journal d ++ [OpBeginTx; OpPrepare])) 0 He)
    as [tx' [Hloop Hw]].
  rewrite Hloop, Hc. eexists. split; [reflexivity|]. simpl. auto.
Qed.

Lemma last_args_batch drv p msgs : forall k,
  match last_record p msgs with
  | Some msg => exists j, last_args p (batch_args drv k msgs) = Some (insert_args drv j msg)
  | None => last_args p (batch_args drv k msgs) = None
  end.
Proof.
  unfold last_record, last_args.
  induction msgs as [|m rest IH]; intros k; simpl; [reflexivity|].
  specialize (IH (S k)).
  destruct (last_such (fun m0 => PushoverID m0 =? p) rest) as [msg|].
  - destruct IH as [j Hj]. exists j. rewrite Hj. reflexivity.
  - rewrite IH. destruct (PushoverID m =? p); [exists k; reflexivity | reflexivity].
Qed.

Lemma scan_insert_args i drv k msg :
  scan (mkRow i (insert_args drv k msg))
  = stored_record i (a_received_at (insert_args drv k msg)) msg.
Proof.
  unfold scan, stored_record, insert_args, Time.UTC. simpl.
  destruct (SentAt msg), (Acked msg), (HTML msg); reflexivity.
Qed.

(** *** Idempotent upsert *)

(** C1 (as amended).  Persisting a batch and then a second one on an
    open store whose driver does not fail leaves, for every remote
    identity of the two batches, exactly one row; read back, that row
    is the last record written for the identity, except that a zero
    receipt time is stored as the clock reading of the write.  A row
    that existed before keeps its rowid (it is overwritten, no row is
    added), and the rows of other identities are untouched. *)
Theorem persist_upsert_last_writer_wins drv1 drv2 d b1 b2 :
  closed d = false -> fault_free drv1 -> fault_free drv2 ->
  unique_ids (messages d) ->
  exists d1 d2,
    PersistMessages drv1 (Handle d) b1 = (Z.of_nat (List.length b1), None, Handle d1) /\
    PersistMessages drv2 (Handle d1) b2 = (Z.of_nat (List.length b2), None, Handle d2) /\
    unique_ids (messages d2) /\
    forall p,
      match last_record p (b1 ++ b2) with
      | Some msg =>
          exists r,
            rows_with p (messages d2) = [r] /\
            scan r = stored_record (id r) (received_at r) msg /\
            (Time.IsZero (ReceivedAt msg) = false -> received_at r = ReceivedAt msg) /\
            (Time.IsZero (ReceivedAt msg) = true ->
             exists k, received_at r = now drv1 k \/ received_at r = now drv2 k) /\
            (forall r0, In r0 (messages d) -> pushover_id r0 = p -> id r = id r0)
      | None => rows_with p (messages d2) = rows_with p (messages d)
      end.
Proof.
  intros Hopen Hf1 Hf2 Hu.
  destruct (PersistMessages_fault_free drv1 d b1 Hopen Hf1) as [d1 [H1 [Hm1 [_ Hc1]]]].
  assert (Hopen1 : closed d1 = false) by congruence.
  destruct (PersistMessages_fault_free drv2 d1 b2 Hopen1 Hf2) as [d2 [H2 [Hm2 _]]].
  exists d1, d2. split; [exact H1|]. split; [exact H2|].
  rewrite Hm1, apply_all_app in Hm2.
  split; [rewrite Hm2; apply apply_all_unique; exact Hu|].
  intros p.
  pose proof (rows_with_apply_all p (batch_args drv1 0 b1 ++ batch_args drv2 0 b2)
                (messages d) Hu) as Hrows.
  rewrite <- Hm2 in Hrows.
  unfold last_args in Hrows. rewrite last_such_app in Hrows.
  unfold last_record. rewrite last_such_app.
  pose proof (last_args_batch drv1 p b1 0%nat) as L1.
  pose proof (last_args_batch drv2 p b2 0%nat) as L2.
  unfold last_record, last_args in L1, L2.
  assert (Hfrom : forall drv j msg i,
             rows_with p (messages d2) = [mkRow i (insert_args drv j msg)] ->
             (forall k, now drv k = now drv1 k) \/ (forall k, now drv k = now drv2 k) ->
             (forall r0, In r0 (messages d) -> pushover_id r0 = p -> i = id r0) ->
             exists r,
               rows_with p (messages d2) = [r] /\
               scan r = stored_record (id r) (received_at r) msg /\
               (Time.IsZero (ReceivedAt msg) = false -> received_at r = ReceivedAt msg) /\
               (Time.IsZero (ReceivedAt msg) = true ->
                exists k, received_at r = now drv1 k \/ received_at r = now drv2 k) /\
               (forall r0, In r0 (messages d) -> pushover_id r0 = p -> id r = id r0)).
  { intros drv j msg i Hr Hnow Hid. eexists. split; [exact Hr|].
    split; [apply scan_insert_args|].
    unfold received_at, insert_args, Time.UTC. simpl.
    split; [intros Hz; rewrite Hz; reflexivity|].
    split; [|exact Hid].
    intros Hz. rewrite Hz. exists j. destruct Hnow as [Hn|Hn]; rewrite Hn; auto. }
  destruct (last_such (fun m => PushoverID m =? p) b2) as [msg|].
  - destruct L2 as [j L2]. rewrite L2 in Hrows. destruct Hrows as [i [Hr Hid]].
    apply (Hfrom drv2 j msg i Hr); auto.
  - rewrite L2 in Hrows.
    destruct (last_such (fun m => PushoverID m =? p) b1) as [msg|].
    + destruct L1 as [j L1]. rewrite L1 in Hrows. destruct Hrows as [i [Hr Hid]].
      apply (Hfrom drv1 j msg i Hr); auto.
    + rewrite L1 in Hrows. exact Hrows.
Qed.

(** Re-ingesting identity 7 with another title: one row, rowid 1 both
    times, the second title. *)
Lemma persist_upsert_last_writer_wins_witness :
  exists d1 d2,
    PersistMessages no_faults (Handle empty_db) [sample_record 7 "first" "body" 50]
    = (1, None, Handle d1) /\
    PersistMessages no_faults (Handle d1) [sample_record 7 "second" "body" 60]
    = (1, None, Handle d2) /\
    unique_ids (messages d2) /\
    forall p,
      match last_record p ([sample_record 7 "first" "body" 50]
                           ++ [sample_record 7 "second" "body" 60]) with
      | Some msg =>
          exists r,
            rows_with p (messages d2) = [r] /\
            scan r = stored_record (id r) (received_at r) msg /\
            (Time.IsZero (ReceivedAt msg) = false -> received_at r = ReceivedAt msg) /\
            (Time.IsZero (ReceivedAt msg) = true ->
             exists k, received_at r = now no_faults k \/ received_at r = now no_faults k) /\
            (forall r0, In r0 (messages empty_db) -> pushover_id r0 = p -> id r = id r0)
      | None => rows_with p (messages d2) = rows_with p (messages empty_db)
      end.
Proof.
  apply (persist_upsert_last_writer_wins no_faults no_faults empty_db
           [sample_record 7 "first" "body" 50] [sample_record 7 "second" "body" 60]).
  - reflexivity.
  - repeat split; reflexivity.
  - repeat split; reflexivity.
  - constructor.
Defined.

(** C1, counterexample.  A record whose receipt time is the zero time
    is stored with the clock reading (here 1000) in its place: the row
    read back differs from the record in [ReceivedAt]. *)
Lemma persist_zero_receipt_time_not_kept :
  PersistMessages no_faults (Handle empty_db) [sample_record 7 "title" "body" 0]
  = (1, None,
     Handle (mkDB [mkRow 1 (insert_args no_faults 0 (sample_record 7 "title" "body" 0))]
                  [] false
                  [OpBeginTx; OpPrepare;
                   OpStmtExec (insert_args no_faults 0 (sample_record 7 "title" "body" 0));
                   OpCommit])) /\
  ReceivedAt (scan (mkRow 1 (insert_args no_faults 0 (sample_record 7 "title" "body" 0))))
  = 1000 /\
  ReceivedAt (sample_record 7 "title" "body" 0) = 0 /\
  ~ stored_fields_are_the_records.
Proof.
  split; [reflexivity|]. split; [reflexivity|]. split; [reflexivity|].
  intros H.
  specialize (H no_faults empty_db [sample_record 7 "title" "body" 0] 1
                    _ 7 (sample_record 7 "title" "body" 0)
                    (mkRow 1 (insert_args no_faults 0 (sample_record 7 "title" "body" 0)))
                    eq_refl eq_refl (or_introl eq_refl)).
  discriminate H.
Qed.

(** *** The batch as one transaction *)

(** When the ExecContext of record number [j] is the first call to
    fail, the batch is rolled back, and the count returned with the
    error is still [j], the value of [inserted] before the Rollback. *)
Lemma PersistMessages_failed_insert drv d msgs j e0 :
  closed d = false -> begin_err drv = None -> prepare_err drv = None ->
  (j < List.length msgs)%nat ->
  (forall i, (i < j)%nat -> exec_err drv i = None) ->
  exec_err drv j = Some e0 ->
  exists d', PersistMessages drv (Handle d) msgs
             = (Z.of_nat j, Some (wrapError "insert message: " e0), Handle d') /\
             messages d' = messages d.
Proof.
  intros Hopen Hb Hp Hj Hprev Hfail.
  destruct msgs as [|m msgs]; [simpl in Hj; lia|].
  unfold PersistMessages. rewrite Hopen, Hb, Hp.
  destruct (insert_loop drv 0 (m :: msgs) _ 0) as [[[n e] tx]|[n tx]] eqn:E.
  - apply insert_loop_inl in E.
    destruct E as [j' [e' [Hj' [Hn [He' [He Hprev']]]]]]. simpl in He', Hprev'.
    assert (j' = j).
    { destruct (Nat.lt_trichotomy j' j) as [Hlt|[Heq|Hgt]]; [|exact Heq|].
      - rewrite (Hprev j' Hlt) in He'. discriminate.
      - rewrite (Hprev' j Hgt) in Hfail. discriminate. }
    subst j'. rewrite Hfail in He'. inversion He'; subst e' e n.
    eexists. split; [reflexivity | reflexivity].
  - exfalso.
    assert (Hall : forall msgs k tx n n' tx',
               insert_loop drv k msgs tx n = inr (n', tx') ->
               forall i, (i < List.length msgs)%nat -> exec_err drv (k + i) = None).
    { clear. induction msgs as [|m msgs IH]; simpl; intros k tx n n' tx' H i Hi; [lia|].
      destruct (exec_err drv k) eqn:Ek; [discriminate|].
      destruct i as [|i]; [rewrite Nat.add_0_r; exact Ek|].
      rewrite Nat.add_succ_r. apply (IH (S k) _ _ _ _ H i). lia. }
    specialize (Hall _ _ _ _ _ _ E j Hj). simpl in Hall. congruence.
Qed.

(** C4, at the failing input.  A batch of two records whose second
    ExecContext fails: the transaction is rolled back and the table is
    as before (empty), yet the count returned is 1. *)
Theorem persist_count_after_rollback :
  PersistMessages (exec_fails_at 1) (Handle empty_db)
                  [sample_record 1 "a" "x" 50; sample_record 2 "b" "y" 60]
  = (1, Some (wrapError "insert message: " (errorString "disk I/O error")),
     Handle (mkDB [] [] false
                  [OpBeginTx; OpPrepare;
                   OpStmtExec (insert_args (exec_fails_at 1) 0 (sample_record 1 "a" "x" 50));
                   OpStmtExec (insert_args (exec_fails_at 1) 1 (sample_record 2 "b" "y" 60));
                   OpRollback])).
Proof. reflexivity. Qed.

(** *** Stores without a usable handle *)

(** C8 (as amended).  On a store that was never opened (a nil store
    or a nil handle) the three operations fail with "database not
    initialized" and touch nothing.  [Close] keeps the handle, so on a
    closed store the operations reach the SQL layer: a non-empty batch,
    an append and a query fail with that layer's "database is closed"
    under the prefix of the operation, and an empty batch returns 0
    without error. *)
Theorem not_initialized_only_without_handle
        drv msgs rec limit since search :
  Forall (fun s =>
     PersistMessages drv s msgs = (0, Some errNotInitialized, s) /\
     LogSent drv s rec = (Some errNotInitialized, s) /\
     QueryMessages drv s limit since search = ([], Some errNotInitialized, s))
    [NilStore; NoHandle] /\
  (forall d m,
     snd (fst (PersistMessages drv (closed_store d) (m :: msgs)))
     = Some (wrapError "begin tx: " errDBClosed) /\
     PersistMessages drv (closed_store d) [] = (0, None, closed_store d) /\
     fst (LogSent drv (closed_store d) rec)
     = Some (wrapError "insert sent record: " errDBClosed) /\
     snd (fst (QueryMessages drv (closed_store d) limit since search))
     = Some (wrapError "query history: " errDBClosed)).
Proof.
  split.
  - repeat constructor.
  - intros d m. repeat split; reflexivity.
Qed.

(** C8, counterexample.  After [Close] the store still has its handle:
    persisting a record fails with the wrapped error of the SQL layer,
    which is not "database not initialized", and persisting an empty
    batch does not fail at all. *)
Lemma closed_store_is_not_uninitialized :
  snd (fst (PersistMessages no_faults (closed_store empty_db)
                            [sample_record 1 "a" "x" 50]))
  = Some (wrapError "begin tx: " (errorString "sql: database is closed")) /\
  snd (fst (PersistMessages no_faults (closed_store empty_db)
                            [sample_record 1 "a" "x" 50]))
  <> Some errNotInitialized /\
  snd (fst (PersistMessages no_faults (closed_store empty_db) [])) = None /\
  fst (LogSent no_faults (closed_store empty_db) sample_sent) <> Some errNotInitialized /\
  snd (fst (QueryMessages no_faults (closed_store empty_db) 5 None ""))
  <> Some errNotInitialized.
Proof.
  repeat split; try reflexivity; discriminate.
Qed.

(** *** The empty batch *)

(** C10.  For an empty batch [PersistReceived] returns 0 and no error
    whatever the store, and [PersistMessages] does so on every store
    that has a handle; the store, journal of SQL calls included, is
    the one passed in. *)
Theorem empty_batch_is_noop clock drv store d :
  messages.PersistReceived clock drv store [] = (0, None, store) /\
  PersistMessages drv (Handle d) [] = (0, None, Handle d).
Proof. split; reflexivity. Qed.

(** *** Queries *)

Lemma scan_rows_ok drv rows : forall k results,
  scan_rows drv k rows = inl results -> results = map scan rows.
Proof.
  induction rows as [|r rows IH]; simpl; intros k results H.
  - inversion H. reflexivity.
  - destruct (scan_err drv k); [discriminate|].
    destruct (scan_rows drv (S k) rows) as [res|] eqn:E; [|discriminate].
    inversion H; subst. f_equal. apply (IH (S k)). exact E.
Qed.

Lemma QueryMessages_success drv d limit since search results s' :
  QueryMessages drv (Handle d) limit since search = (results, None, s') ->
  results = map scan (select_messages (messages d) (effective_limit limit) since search).
Proof.
  unfold QueryMessages, effective_limit. intros H.
  destruct (if closed d then Some errDBClosed else query_err drv); [discriminate|].
  destruct (scan_rows drv 0 _) as [res|] eqn:E; [|discriminate].
  destruct (rows_err drv); [discriminate|].
  inversion H; subst. apply scan_rows_ok in E. exact E.
Qed.

Lemma In_insert_desc x r l : In x (insert_desc r l) <-> x = r \/ In x l.
Proof.
  induction l as [|y l IH]; simpl; [intuition congruence|].
  destruct (sorts_after r y); simpl; [rewrite IH|]; intuition congruence.
Qed.

Lemma In_order_by x l : In x (order_by_received_at_desc l) <-> In x l.
Proof.
  induction l as [|y l IH]; simpl; [tauto|].
  rewrite In_insert_desc, IH. intuition congruence.
Qed.

Lemma firstn_subset {A : Type} n : forall (l : list A) x, In x (firstn n l) -> In x l.
Proof.
  induction n as [|n IH]; intros [|y l] x H; simpl in *; try contradiction.
  destruct H as [H|H]; [left; exact H | right; apply IH; exact H].
Qed.

Lemma insert_desc_sorted r l :
  StronglySorted row_newer_first l -> StronglySorted row_newer_first (insert_desc r l).
Proof.
  induction l as [|y l IH]; simpl; intros Hs; [repeat constructor|].
  inversion Hs as [|y' l' Hs' Hall]; subst.
  destruct (sorts_after r y) eqn:E; unfold sorts_after in E.
  - assert (Hle : received_at r <= received_at y)
      by (destruct (received_at r <? received_at y) eqn:E1;
          destruct (received_at r =? received_at y) eqn:E2; simpl in E;
          try discriminate; lia).
    constructor; [apply IH; exact Hs'|].
    apply Forall_forall. intros x Hx. apply In_insert_desc in Hx.
    destruct Hx as [->|Hx]; [exact Hle|].
    rewrite Forall_forall in Hall. apply Hall. exact Hx.
  - apply Bool.orb_false_iff in E. destruct E as [E _]. apply Z.ltb_ge in E.
    constructor; [exact Hs|].
    constructor; [exact E|].
    rewrite Forall_forall in Hall |- *. intros x Hx. specialize (Hall x Hx).
    unfold row_newer_first in *. lia.
Qed.

Lemma order_by_sorted l : StronglySorted row_newer_first (order_by_received_at_desc l).
Proof.
  induction l as [|y l IH]; simpl; [constructor | apply insert_desc_sorted; exact IH].
Qed.

Lemma firstn_sorted {A : Type} (R : A -> A -> Prop) n : forall l,
  StronglySorted R l -> StronglySorted R (firstn n l).
Proof.
  induction n as [|n IH]; intros l Hs; simpl; [constructor|].
  destruct l as [|x l]; [constructor|].
  inversion Hs as [|x' l' Hs' Hall]; subst.
  constructor; [apply IH; exact Hs'|].
  rewrite Forall_forall in Hall |- *. intros y Hy. apply Hall.
  apply (firstn_subset n l y Hy).
Qed.

Lemma map_scan_sorted l :
  StronglySorted row_newer_first l -> StronglySorted newer_first (map scan l).
Proof.
  induction 1 as [|x l Hs IH Hall]; simpl; constructor; [exact IH|].
  rewrite Forall_forall in Hall |- *. intros y Hy. apply in_map_iff in Hy.
  destruct Hy as [r [<- Hr]]. apply (Hall r Hr).
Qed.

(** X4.  What a successful query returns: at most the effective limit of
    records, most recent first, each of them the reading of a row of
    the table that satisfies the WHERE clause; with a non-zero [since]
    none is older than it, and with a search string each matches the
    LIKE pattern in its body or its title. *)
Lemma QueryMessages_result drv d limit since search results s' :
  QueryMessages drv (Handle d) limit since search = (results, None, s') ->
  Z.of_nat (List.length results) <= effective_limit limit /\
  StronglySorted newer_first results /\
  (forall rec, In rec results ->
     exists r, In r (messages d) /\ rec = scan r /\
       (forall t, since = Some t -> Time.IsZero t = false -> t <= ReceivedAt rec) /\
       (search <> "" ->
        LIKE (Message rec) ("%" ++ search ++ "%")
        || LIKE (Title rec) ("%" ++ search ++ "%") = true)).
Proof.
  intros H. apply QueryMessages_success in H. subst results.
  unfold select_messages. split; [|split].
  - rewrite length_map, length_firstn.
    assert (0 < effective_limit limit).
    { unfold effective_limit. destruct (limit <=? 0) eqn:E; [lia|].
      apply Z.leb_gt in E. exact E. }
    lia.
  - apply map_scan_sorted, firstn_sorted, order_by_sorted.
  - intros rec Hin. apply in_map_iff in Hin. destruct Hin as [r [<- Hr]].
    apply firstn_subset, In_order_by, filter_In in Hr. destruct Hr as [Hr Hw].
    exists r. split; [exact Hr|]. split; [reflexivity|].
    unfold where_clause in Hw. simpl in Hw.
    apply andb_true_iff in Hw. destruct Hw as [Hs Hl]. split.
    + intros t -> Hz. rewrite Hz in Hs. simpl in Hs. apply Z.leb_le in Hs.
      exact Hs.
    + intros Hne. destruct (String.eqb search "") eqn:E;
        [apply String.eqb_eq in E; contradiction | exact Hl].
Qed.

(** *** LIKE and substrings *)

Lemma like_percent_unfold pat s :
  like_match (percent :: pat) s
  = like_match pat s
    || match s with
       | [] => false
       | _ :: r => like_match (percent :: pat) r
       end.
Proof. destruct s; reflexivity. Qed.

Lemma like_percent_only s : like_match [percent] s = true.
Proof.
  induction s as [|c s IH]; [reflexivity|].
  rewrite like_percent_unfold. rewrite IH. apply orb_true_r.
Qed.

Lemma like_literal_head c pat s :
  Ascii.eqb c percent = false -> Ascii.eqb c underscore = false ->
  like_match (c :: pat) s
  = match s with
    | [] => false
    | d :: r => like_char_eq c d && like_match pat r
    end.
Proof. intros Hp Hu. simpl. rewrite Hp, Hu. reflexivity. Qed.

Lemma like_literal_prefix sub :
  literal sub -> forall s, like_match (sub ++ [percent]) s = prefix_nocase sub s.
Proof.
  induction 1 as [|c sub [Hp Hu] Hlit IH]; intros s.
  - simpl app. rewrite like_percent_only. destruct s; reflexivity.
  - simpl app. rewrite (like_literal_head c _ s Hp Hu).
    destruct s as [|d r]; [reflexivity|]. simpl. rewrite IH. reflexivity.
Qed.

Lemma like_literal_occurs sub :
  literal sub ->
  forall s, like_match (percent :: sub ++ [percent]) s = occurs_nocase sub s.
Proof.
  intros Hlit. induction s as [|d r IH].
  - rewrite like_percent_unfold, (like_literal_prefix sub Hlit). simpl.
    destruct (prefix_nocase sub []); reflexivity.
  - rewrite like_percent_unfold, (like_literal_prefix sub Hlit), IH. reflexivity.
Qed.

Lemma list_ascii_of_string_app a b :
  list_ascii_of_string (a ++ b) = list_ascii_of_string a ++ list_ascii_of_string b.
Proof. induction a as [|c a IH]; simpl; [reflexivity | rewrite IH; reflexivity]. Qed.

(** X6.  For a search string free of [%] and [_] the LIKE test of
    [QueryMessages] is the substring test (ASCII letters compared
    without regard to case). *)
Lemma LIKE_literal_contains text sub :
  literal (list_ascii_of_string sub) ->
  LIKE text ("%" ++ sub ++ "%") = contains text sub.
Proof.
  intros Hlit. unfold LIKE, contains.
  rewrite list_ascii_of_string_app, list_ascii_of_string_app. simpl.
  apply (like_literal_occurs _ Hlit).
Qed.

(** The scenario of the specification: twenty rows, six of them
    matching "error", limit 5: the five most recent matches, newest
    first (the sixth match, row 3, is left out). *)
Lemma query_error_limit_5 :
  List.length (filter (fun r => contains (a_message (cols r)) "error") twenty_rows) = 6%nat /\
  map PushoverID
      (fst (fst (QueryMessages no_faults (Handle (mkDB twenty_rows [] false []))
                               5 None "error")))
  = [18; 15; 12; 9; 6] /\
  snd (fst (QueryMessages no_faults (Handle (mkDB twenty_rows [] false []))
                          5 None "error")) = None.
Proof. vm_compute. repeat split; reflexivity. Qed.

(** C7, at the failing input.  The table holds one row with body
    "abc" and an empty title; the search string "a_c" occurs in
    neither, yet the query returns the row: [_] of the search string is
    passed to LIKE as a wildcard. *)
Theorem search_wildcards_not_escaped :
  contains "abc" "a_c" = false /\
  contains "" "a_c" = false /\
  fst (QueryMessages no_faults
         (Handle (mkDB [mkRow 1 (insert_args no_faults 0 (sample_record 1 "" "abc" 50))]
                       [] false []))
         5 None "a_c")
  = ([stored_record 1 50 (sample_record 1 "" "abc" 50)], None).
Proof. vm_compute. repeat split; reflexivity. Qed.

End DbProps.

(** ** The transport *)

Module TransportProps.

Import pushover TransportSpec.

(** Reassociate the traces on both sides. *)
Ltac assoc_list :=
  repeat (rewrite <- app_assoc || rewrite <- app_comm_cons); simpl; reflexivity.

Lemma retryDelay_is_5s : retryDelay = 5 * 1000000000.
Proof. reflexivity. Qed.

Lemma dispatches_app t1 t2 : dispatches (t1 ++ t2) = (dispatches t1 + dispatches t2)%nat.
Proof. unfold dispatches. rewrite filter_app, length_app. reflexivity. Qed.

Lemma builds_app t1 t2 : builds (t1 ++ t2) = (builds t1 + builds t2)%nat.
Proof. unfold builds. rewrite filter_app, length_app. reflexivity. Qed.

Lemma attempts_positive retries : (1 <= Z.to_nat (attempts_of retries))%nat.
Proof. unfold attempts_of. destruct (retries <=? 0) eqn:E; [simpl; lia|]. lia. Qed.

Ltac count_events :=
  unfold dispatches, builds in *; simpl in *;
  repeat rewrite ?filter_app, ?length_app in *; simpl in *; try lia.

(** *** The loop of [do]

    The lemmas on the loop share the network, the client and the
    request builder of one call. *)

Section Loop.

Variable net : Net.
Variable c : Client.
Variable build : requestBuilder.

(** What [doOnce] leaves in the trace: nothing, or one exchange
    between send and receive on the limiter, or one bare exchange. *)
Lemma doOnce_events i req :
  snd (doOnce net c i req) = [] \/
  snd (doOnce net c i req) = [EvAcquire; EvDo req; EvRelease] \/
  snd (doOnce net c i req) = [EvDo req].
Proof.
  unfold doOnce. destruct (limiter c); [destruct (acquire net i)|]; simpl; auto.
Qed.

(** The trace so far is only extended. *)
Lemma do_loop_trace remaining : forall i lastErr tr,
  do_loop net c build remaining i lastErr tr
  = (fst (do_loop net c build remaining i lastErr []),
     tr ++ snd (do_loop net c build remaining i lastErr [])).
Proof.
  induction remaining as [|rest IH]; intros i lastErr tr.
  - simpl. destruct lastErr; simpl; rewrite app_nil_r; reflexivity.
  - simpl. destruct (ctx_before net i); [simpl; rewrite app_nil_r; reflexivity|].
    destruct (build tt) as [req|err]; [|reflexivity].
    destruct (doOnce net c i _) as [[resp|err] ev]; [reflexivity|].
    destruct (ctx_after net i); [reflexivity|].
    destruct rest as [|rest'].
    + rewrite (IH (S i) (Some err) (tr ++ EvBuild :: ev)).
      rewrite (IH (S i) (Some err) (EvBuild :: ev)).
      cbn [fst snd]. assoc_list.
    + destruct (wait net i); [cbn [fst snd]; assoc_list|].
      rewrite (IH (S i) (Some err) ((tr ++ EvBuild :: ev) ++ [EvSleep retryDelay])).
      rewrite (IH (S i) (Some err) (EvBuild :: ev ++ [EvSleep retryDelay])).
      cbn [fst snd]. assoc_list.
Qed.

(** One iteration of the loop, on an empty trace. *)
Lemma do_loop_step rest i lastErr :
  do_loop net c build (S rest) i lastErr [] =
  match ctx_before net i with
  | Some e => (inr e, [])
  | None =>
      match build tt with
      | inr e => (inr e, [EvBuild])
      | inl req =>
          match doOnce net c i (stamped c req) with
          | (inl resp, ev) => (inl resp, EvBuild :: ev)
          | (inr err, ev) =>
              match ctx_after net i with
              | Some e => (inr e, EvBuild :: ev)
              | None =>
                  match rest with
                  | O => (inr err, EvBuild :: ev)
                  | S _ =>
                      match wait net i with
                      | Some e => (inr e, EvBuild :: ev ++ [EvSleep retryDelay])
                      | None =>
                          (fst (do_loop net c build rest (S i) (Some err) []),
                           EvBuild :: ev ++ EvSleep retryDelay
                                   :: snd (do_loop net c build rest (S i) (Some err) []))
                      end
                  end
              end
          end
      end
  end.
Proof.
  simpl do_loop. unfold stamped.
  destruct (ctx_before net i); [reflexivity|].
  destruct (build tt) as [req|e]; [|reflexivity].
  destruct (doOnce net c i _) as [[resp|err] ev]; [reflexivity|].
  destruct (ctx_after net i); [reflexivity|].
  destruct rest as [|rest']; [reflexivity|].
  destruct (wait net i); [reflexivity|].
  rewrite do_loop_trace. cbn [fst snd]. f_equal. assoc_list.
Qed.

(** The shape of what the loop adds to the trace. *)
Lemma do_loop_shape remaining : forall i lastErr,
  let t := snd (do_loop net c build remaining i lastErr []) in
  (forall b, fresh_builds b t = true) /\
  spaced true t = true /\
  (dispatches t <= builds t)%nat /\ (builds t <= remaining)%nat.
Proof.
  induction remaining as [|rest IH]; intros i lastErr; cbn zeta.
  - simpl. destruct lastErr; simpl; repeat split; auto.
  - rewrite do_loop_step.
    destruct (ctx_before net i); [repeat split; auto; count_events|].
    destruct (build tt) as [req|err]; [|repeat split; auto; count_events].
    pose proof (doOnce_events i (stamped c req)) as Hev.
    destruct (doOnce net c i (stamped c req)) as [[resp|err] ev]; simpl snd in *.
    { destruct Hev as [-> | [-> | ->]]; repeat split; auto; count_events. }
    destruct (ctx_after net i).
    { destruct Hev as [-> | [-> | ->]]; repeat split; auto; count_events. }
    destruct rest as [|rest'].
    { destruct Hev as [-> | [-> | ->]]; repeat split; auto; count_events. }
    destruct (wait net i).
    { destruct Hev as [-> | [-> | ->]]; repeat split; auto; count_events. }
    specialize (IH (S i) (Some err)). cbn zeta in IH.
    destruct IH as [Hf [Hs [Hdb Hbr]]].
    remember (snd (do_loop net c build (S rest') (S i) (Some err) [])) as t' eqn:Et.
    clear Et. cbn [snd].
    destruct Hev as [-> | [-> | ->]]; (split; [intros b; simpl; apply Hf|]);
      (split; [simpl; exact Hs|]); count_events.
Qed.

(** [k] quiet failures in a row, each followed by a timer that fires,
    bring the loop to attempt [i + k] with [k] builds and at most [k]
    exchanges in the trace. *)
Lemma do_loop_quiet req errs :
  build tt = inl req ->
  forall k rem i lastErr,
    (forall j, (j < k)%nat ->
       quiet_failure net c req (i + j) (errs (i + j)%nat) /\ wait net (i + j) = None) ->
    exists t,
      (dispatches t <= k)%nat /\ builds t = k /\
      do_loop net c build (k + S rem) i lastErr [] =
      (fst (do_loop net c build (S rem) (i + k) (last_error_after errs i k lastErr) []),
       t ++ snd (do_loop net c build (S rem) (i + k)
                         (last_error_after errs i k lastErr) [])).
Proof.
  intros Hbuild. induction k as [|k IH]; intros rem i lastErr Hq.
  - exists []. rewrite Nat.add_0_r. simpl last_error_after. simpl Nat.add.
    repeat split; auto.
    destruct (do_loop net c build (S rem) i lastErr []); reflexivity.
  - destruct (Hq O (Nat.lt_0_succ k)) as [[Hb [Hd Ha]] Hw].
    rewrite Nat.add_0_r in Hb, Hd, Ha, Hw.
    destruct (IH rem (S i) (Some (errs i))) as [t [Hdt [Hbt Heq]]].
    { intros j Hj. replace (S i + j)%nat with (i + S j)%nat by lia.
      apply Hq. lia. }
    replace (S k + S rem)%nat with (S (k + S rem)) by lia.
    rewrite do_loop_step, Hb, Hbuild.
    pose proof (doOnce_events i (stamped c req)) as Hev.
    destruct (doOnce net c i (stamped c req)) as [r ev]. simpl in Hd. subst r.
    rewrite Ha. simpl snd in Hev.
    replace (k + S rem)%nat with (S (k + rem)) in * by lia.
    rewrite Hw, Heq. cbn [fst snd].
    assert (Hle : last_error_after errs (S i) k (Some (errs i))
                  = last_error_after errs i (S k) lastErr).
    { destruct k as [|k']; simpl; [rewrite Nat.add_0_r; reflexivity|].
      f_equal. f_equal. lia. }
    rewrite Hle. replace (S i + k)%nat with (i + S k)%nat by lia.
    exists (EvBuild :: ev ++ EvSleep retryDelay :: t).
    split; [|split].
    + destruct Hev as [-> | [-> | ->]]; count_events.
    + destruct Hev as [-> | [-> | ->]]; count_events.
    + f_equal. assoc_list.
Qed.

(** The loop at attempt [i], reached through [i] quiet failures. *)
Lemma do_reaches req errs retries i :
  build tt = inl req ->
  (i < Z.to_nat (attempts_of retries))%nat ->
  prefix_fails net c req errs i ->
  exists t rem lastErr,
    Z.to_nat (attempts_of retries) = (i + S rem)%nat /\
    (dispatches t <= i)%nat /\ builds t = i /\
    lastErr = last_error_after errs 0 i None /\
    do net c build retries =
    (fst (do_loop net c build (S rem) i lastErr []),
     t ++ snd (do_loop net c build (S rem) i lastErr [])).
Proof.
  intros Hbuild Hi Hpre. unfold do.
  set (n := Z.to_nat (attempts_of retries)) in *.
  destruct (do_loop_quiet req errs Hbuild i (n - i - 1) 0%nat None)
    as [t [Hd [Hb Heq]]].
  { intros j Hj. simpl. apply Hpre. exact Hj. }
  exists t, (n - i - 1)%nat, (last_error_after errs 0 i None).
  replace (i + S (n - i - 1))%nat with n in * by lia.
  simpl Nat.add in Heq. repeat split; auto.
Qed.

(** *** Responses *)

Lemma doOnce_response i req resp ev :
  doOnce net c i req = (inl resp, ev) ->
  exchange net i req = inl resp /\
  (ev = [EvAcquire; EvDo req; EvRelease] \/ ev = [EvDo req]).
Proof.
  unfold doOnce. destruct (limiter c); [destruct (acquire net i)|]; intros H;
    inversion H; subst; auto.
Qed.

(** The loop returns a response only as the answer to its last
    exchange: the attempts before it failed, nothing follows it. *)
Lemma do_loop_response remaining : forall i lastErr resp t,
  do_loop net c build remaining i lastErr [] = (inl resp, t) ->
  exists j req t0,
    (i <= j)%nat /\ build tt = inl req /\
    exchange net j (stamped c req) = inl resp /\
    (t = t0 ++ [EvBuild; EvAcquire; EvDo (stamped c req); EvRelease] \/
     t = t0 ++ [EvBuild; EvDo (stamped c req)]) /\
    (dispatches t0 <= j - i)%nat /\
    (forall k, (i <= k < j)%nat ->
       exists err, fst (doOnce net c k (stamped c req)) = inr err).
Proof.
  induction remaining as [|rest IH]; intros i lastErr resp t H.
  - simpl in H. destruct lastErr; discriminate.
  - rewrite do_loop_step in H.
    destruct (ctx_before net i); [discriminate|].
    destruct (build tt) as [req|e] eqn:Hbuild; [|discriminate].
    pose proof (doOnce_events i (stamped c req)) as Hev.
    destruct (doOnce net c i (stamped c req)) as [[resp'|err] ev] eqn:Hdo.
    + inversion H; subst. apply doOnce_response in Hdo. destruct Hdo as [Hx Hshape].
      exists i, req, [].
      split; [lia|]. split; [reflexivity|]. split; [exact Hx|].
      split; [destruct Hshape as [-> | ->]; auto|].
      split; [count_events | intros k Hk; lia].
    + simpl snd in Hev.
      destruct (ctx_after net i); [discriminate|].
      destruct rest as [|rest']; [discriminate|].
      destruct (wait net i); [discriminate|].
      destruct (do_loop net c build (S rest') (S i) (Some err) []) as [r' t'] eqn:Hrec.
      cbn [fst snd] in H. inversion H; subst r' t.
      destruct (IH (S i) (Some err) resp t' Hrec)
        as [j [req' [t0 [Hj [Hb' [Hx [Hshape [Hd Hprev]]]]]]]].
      assert (req' = req) by congruence. subst req'.
      exists j, req, (EvBuild :: ev ++ EvSleep retryDelay :: t0).
      split; [lia|]. split; [reflexivity|]. split; [exact Hx|].
      split; [destruct Hshape as [-> | ->]; [left | right]; assoc_list|].
      split.
      * destruct Hev as [-> | [-> | ->]]; count_events.
      * intros k Hk. destruct (Nat.eq_dec k i) as [->|Hne].
        { exists err. rewrite Hdo. reflexivity. }
        apply Hprev. lia.
Qed.

Lemma do_response retries resp tr :
  do net c build retries = (inl resp, tr) ->
  exists i, answered_at net c build resp tr i.
Proof.
  unfold do. intros H. apply do_loop_response in H.
  destruct H as [j [req [t0 [_ [Hb [Hx [Hshape [Hd Hprev]]]]]]]].
  exists j, req, t0. repeat split; auto; try lia.
  intros k Hk. apply Hprev. lia.
Qed.

End Loop.

(** *** Network-level failures

    The same loop, followed through attempts whose exchange fails on
    the network: what is dispatched and which timers run. *)

Lemma dispatched_of_app t1 t2 :
  WireSpec.dispatched (t1 ++ t2) = WireSpec.dispatched t1 ++ WireSpec.dispatched t2.
Proof. unfold WireSpec.dispatched. apply flat_map_app. Qed.

Lemma delays_of_app t1 t2 :
  WireSpec.delays (t1 ++ t2) = WireSpec.delays t1 ++ WireSpec.delays t2.
Proof. unfold WireSpec.delays. apply flat_map_app. Qed.

Lemma repeat_snoc {A : Type} (x : A) n : repeat x n ++ [x] = repeat x (S n).
Proof. rewrite <- repeat_cons. reflexivity. Qed.

Section Retry.

Import WireSpec RetrySpec.

Variable net : Net.
Variable c : Client.
Variable build : requestBuilder.
Variable req : Request.
Hypothesis Hbuild : build tt = inl req.

(** An attempt that obtains its slot makes its exchange, once. *)
Lemma doOnce_exchange i r :
  acquire net i = None ->
  fst (doOnce net c i r) = exchange net i r /\
  dispatched (snd (doOnce net c i r)) = [r] /\
  delays (snd (doOnce net c i r)) = [] /\
  builds (snd (doOnce net c i r)) = 0%nat.
Proof.
  unfold doOnce. intros Ha. rewrite Ha. destruct (limiter c); simpl; auto.
Qed.

(** [k] network-level failures in a row, each followed by a timer that
    runs to its end, bring the loop to attempt [i + k]: [k] requests
    were built, [k] exchanges dispatched and [k] timers run. *)
Lemma do_loop_failures errs :
  forall k rem i lastErr,
    (forall j, (j < k)%nat ->
       network_failure net (i + j) (stamped c req) (errs (i + j)%nat) /\
       wait net (i + j) = None) ->
    exists t,
      dispatched t = repeat (stamped c req) k /\
      delays t = repeat retryDelay k /\ builds t = k /\
      do_loop net c build (k + S rem) i lastErr [] =
      (fst (do_loop net c build (S rem) (i + k) (last_error_after errs i k lastErr) []),
       t ++ snd (do_loop net c build (S rem) (i + k)
                         (last_error_after errs i k lastErr) [])).
Proof.
  induction k as [|k IH]; intros rem i lastErr Hq.
  - exists []. rewrite Nat.add_0_r. simpl last_error_after. simpl Nat.add.
    repeat split; auto.
    destruct (do_loop net c build (S rem) i lastErr []); reflexivity.
  - destruct (Hq O (Nat.lt_0_succ k)) as [[Hb [Ha [Hx Hafter]]] Hw].
    rewrite Nat.add_0_r in Hb, Ha, Hx, Hafter, Hw.
    destruct (IH rem (S i) (Some (errs i))) as [t [Hdt [Hst [Hbt Heq]]]].
    { intros j Hj. replace (S i + j)%nat with (i + S j)%nat by lia.
      apply Hq. lia. }
    replace (S k + S rem)%nat with (S (k + S rem)) by lia.
    rewrite do_loop_step, Hb, Hbuild.
    destruct (doOnce_exchange i (stamped c req) Ha) as [Hr [Hd [Hs Hbd]]].
    destruct (doOnce net c i (stamped c req)) as [r ev].
    cbn [fst snd] in Hr, Hd, Hs, Hbd. rewrite Hr, Hx, Hafter.
    replace (k + S rem)%nat with (S (k + rem)) in * by lia.
    rewrite Hw, Heq. cbn [fst snd].
    assert (Hle : last_error_after errs (S i) k (Some (errs i))
                  = last_error_after errs i (S k) lastErr).
    { destruct k as [|k']; simpl; [rewrite Nat.add_0_r; reflexivity|].
      f_equal. f_equal. lia. }
    rewrite Hle. replace (S i + k)%nat with (i + S k)%nat by lia.
    exists (EvBuild :: ev ++ EvSleep retryDelay :: t).
    split; [|split; [|split]].
    + change (EvBuild :: ev ++ EvSleep retryDelay :: t)
        with ([EvBuild] ++ ev ++ [EvSleep retryDelay] ++ t).
      rewrite !dispatched_of_app, Hd, Hdt. reflexivity.
    + change (EvBuild :: ev ++ EvSleep retryDelay :: t)
        with ([EvBuild] ++ ev ++ [EvSleep retryDelay] ++ t).
      rewrite !delays_of_app, Hs, Hst. reflexivity.
    + change (EvBuild :: ev ++ EvSleep retryDelay :: t)
        with ([EvBuild] ++ ev ++ [EvSleep retryDelay] ++ t).
      rewrite !builds_app, Hbd, Hbt. reflexivity.
    + f_equal. assoc_list.
Qed.

(** The call at attempt [i], reached through [i] network-level
    failures. *)
Lemma do_after_failures errs retries i :
  (i < Z.to_nat (attempts_of retries))%nat ->
  failed_so_far net (stamped c req) errs i ->
  exists t rem,
    Z.to_nat (attempts_of retries) = (i + S rem)%nat /\
    dispatched t = repeat (stamped c req) i /\
    delays t = repeat retryDelay i /\ builds t = i /\
    do net c build retries =
    (fst (do_loop net c build (S rem) i (last_error_after errs 0 i None) []),
     t ++ snd (do_loop net c build (S rem) i (last_error_after errs 0 i None) [])).
Proof.
  intros Hi Hpre. unfold do.
  set (n := Z.to_nat (attempts_of retries)) in *.
  destruct (do_loop_failures errs i (n - i - 1) 0%nat None) as [t [Hd [Hs [Hb Heq]]]].
  { intros j Hj. simpl. apply Hpre. exact Hj. }
  exists t, (n - i - 1)%nat.
  replace (i + S (n - i - 1))%nat with n in * by lia.
  simpl Nat.add in Heq. repeat split; auto.
Qed.

(** What the call has dispatched, slept and built when attempt [i],
    reached through [i] network-level failures, adds the events [ev]
    and nothing follows. *)
Lemma after_failures_counts t i ev :
  dispatched t = repeat (stamped c req) i ->
  delays t = repeat retryDelay i -> builds t = i ->
  dispatched (t ++ ev) = repeat (stamped c req) i ++ dispatched ev /\
  delays (t ++ ev) = repeat retryDelay i ++ delays ev /\
  builds (t ++ ev) = (i + builds ev)%nat.
Proof.
  intros Hd Hs Hb. rewrite dispatched_of_app, delays_of_app, builds_app, Hd, Hs, Hb.
  auto.
Qed.

End Retry.

(** C5.  The retry contract of [do] with attempt ceiling
    [n = attempts_of retries] (at least 1, [retries] itself when
    positive, 2 for every operation of the client).

    Of every call:
    - every exchange uses a request built since the previous exchange,
      and the builder runs once per attempt ([fresh_builds], [builds]);
    - at most [n] exchanges are dispatched, and between two of them a
      timer of [retryDelay], 5 seconds, runs ([spaced]).

    In terms of what the network and the context do, for a builder
    that returns [req] and attempts [0 .. i-1] that met network-level
    failures [errs], each followed by a timer that ran to its end
    ([failed_so_far]):
    - retry: when attempt [i < n] gets as far as its exchange and the
      exchange is answered, [do] returns that response, having
      dispatched the request [i + 1] times, once per attempt, with [i]
      timers of 5 seconds in between;
    - exhaustion: when attempt [n - 1] fails on the network as well,
      [do] returns its error, having dispatched the request [n] times
      with [n - 1] timers;
    - cancellation before dispatch: when the context is found
      cancelled at the head of attempt [i], [do] returns that error
      and attempt [i] builds and dispatches nothing;
    - cancellation while waiting for a slot of the limiter: no
      exchange is dispatched for attempt [i], and the cancellation
      error is returned;
    - cancellation seen after the failed exchange of attempt [i]: [do]
      returns that error, no timer is started;
    - cancellation during the delay after attempt [i]: [do] returns
      that error, nothing is dispatched after the timer.

    The same follows for attempts that fail in [doOnce] for any reason
    ([prefix_fails], [quiet_failure]). *)
Theorem do_retry_contract net c build retries :
  let n := Z.to_nat (attempts_of retries) in
  let r := fst (do net c build retries) in
  let tr := snd (do net c build retries) in
  (1 <= n)%nat /\ (0 < retries -> Z.of_nat n = retries) /\
  attempts_of defaultRequestAttempts = 2 /\
  retryDelay = 5 * Time.Second /\
  fresh_builds false tr = true /\
  spaced true tr = true /\
  (dispatches tr <= builds tr)%nat /\ (builds tr <= n)%nat /\
  (forall req errs,
    build tt = inl req ->
    (forall i e, (i < n)%nat -> prefix_fails net c req errs i ->
       ctx_before net i = Some e ->
       r = inr e /\ (dispatches tr <= i)%nat /\ builds tr = i) /\
    (forall i e err, (i < n)%nat -> prefix_fails net c req errs i ->
       ctx_before net i = None ->
       fst (doOnce net c i (stamped c req)) = inr err ->
       ctx_after net i = Some e ->
       r = inr e /\ builds tr = S i) /\
    (forall i e, (S i < n)%nat -> prefix_fails net c req errs i ->
       quiet_failure net c req i (errs i) ->
       wait net i = Some e ->
       r = inr e /\ builds tr = S i) /\
    (prefix_fails net c req errs (n - 1) ->
     quiet_failure net c req (n - 1) (errs (n - 1)%nat) ->
     r = inr (errs (n - 1)%nat) /\ builds tr = n)) /\
  (forall req errs,
    build tt = inl req ->
    let sent := stamped c req in
    (forall i resp, (i < n)%nat ->
       RetrySpec.failed_so_far net sent errs i -> RetrySpec.goes_ahead net i ->
       exchange net i sent = inl resp ->
       r = inl resp /\
       WireSpec.dispatched tr = repeat sent (S i) /\
       WireSpec.delays tr = repeat retryDelay i /\ builds tr = S i) /\
    (RetrySpec.failed_so_far net sent errs (n - 1) ->
     RetrySpec.network_failure net (n - 1) sent (errs (n - 1)%nat) ->
     r = inr (errs (n - 1)%nat) /\
     WireSpec.dispatched tr = repeat sent n /\
     WireSpec.delays tr = repeat retryDelay (n - 1) /\ builds tr = n) /\
    (forall i e, (i < n)%nat ->
       RetrySpec.failed_so_far net sent errs i ->
       ctx_before net i = Some e ->
       r = inr e /\
       WireSpec.dispatched tr = repeat sent i /\
       WireSpec.delays tr = repeat retryDelay i /\ builds tr = i) /\
    (forall i e e', (i < n)%nat ->
       RetrySpec.failed_so_far net sent errs i ->
       ctx_before net i = None -> limiter c <> None ->
       acquire net i = Some e -> ctx_after net i = Some e' ->
       r = inr e' /\
       WireSpec.dispatched tr = repeat sent i /\
       WireSpec.delays tr = repeat retryDelay i /\ builds tr = S i) /\
    (forall i e err, (i < n)%nat ->
       RetrySpec.failed_so_far net sent errs i -> RetrySpec.goes_ahead net i ->
       exchange net i sent = inr err ->
       ctx_after net i = Some e ->
       r = inr e /\
       WireSpec.dispatched tr = repeat sent (S i) /\
       WireSpec.delays tr = repeat retryDelay i /\ builds tr = S i) /\
    (forall i e, (S i < n)%nat ->
       RetrySpec.failed_so_far net sent errs i ->
       RetrySpec.network_failure net i sent (errs i) ->
       wait net i = Some e ->
       r = inr e /\
       WireSpec.dispatched tr = repeat sent (S i) /\
       WireSpec.delays tr = repeat retryDelay (S i) /\ builds tr = S i)).
Proof.
  cbn zeta.
  pose proof (attempts_positive retries) as Hn.
  pose proof (do_loop_shape net c build (Z.to_nat (attempts_of retries)) 0 None) as Hshape.
  cbn zeta in Hshape. fold (do net c build retries) in Hshape.
  destruct Hshape as [Hf [Hs [Hdb Hbn]]].
  split; [exact Hn|].
  split; [intros Hpos; unfold attempts_of;
          destruct (retries <=? 0) eqn:E; [lia | apply Z2Nat.id; lia]|].
  split; [reflexivity|]. split; [reflexivity|].
  split; [apply Hf|]. split; [exact Hs|]. split; [exact Hdb|]. split; [exact Hbn|].
  split.
  { intros req errs Hbuild. split; [|split; [|split]].
  - intros i e Hi Hpre Hctx.
    destruct (do_reaches net c build req errs retries i Hbuild Hi Hpre)
      as [t [rem [le [_ [Hd [Hb [_ Heq]]]]]]].
    rewrite Heq, do_loop_step, Hctx. cbn [fst snd]. rewrite app_nil_r. auto.
  - intros i e err Hi Hpre Hctx Hdo Hafter.
    destruct (do_reaches net c build req errs retries i Hbuild Hi Hpre)
      as [t [rem [le [_ [Hd [Hb [_ Heq]]]]]]].
    rewrite Heq, do_loop_step, Hctx, Hbuild.
    pose proof (doOnce_events net c i (stamped c req)) as Hev.
    destruct (doOnce net c i (stamped c req)) as [r0 ev]. simpl in Hdo, Hev. subst r0.
    rewrite Hafter. cbn [fst snd]. split; [reflexivity|].
    destruct Hev as [-> | [-> | ->]]; count_events.
  - intros i e Hi Hpre [Hctx [Hdo Hafter]] Hwait.
    assert (Hi' : (i < Z.to_nat (attempts_of retries))%nat) by lia.
    destruct (do_reaches net c build req errs retries i Hbuild Hi' Hpre)
      as [t [rem [le [Hrem [Hd [Hb [_ Heq]]]]]]].
    destruct rem as [|rem]; [lia|].
    rewrite Heq, do_loop_step, Hctx, Hbuild.
    pose proof (doOnce_events net c i (stamped c req)) as Hev.
    destruct (doOnce net c i (stamped c req)) as [r0 ev]. simpl in Hdo, Hev. subst r0.
    rewrite Hafter, Hwait. cbn [fst snd]. split; [reflexivity|].
    destruct Hev as [-> | [-> | ->]]; count_events.
  - intros Hpre [Hctx [Hdo Hafter]].
    set (n := Z.to_nat (attempts_of retries)) in *.
    assert (Hi : (n - 1 < n)%nat) by lia.
    destruct (do_reaches net c build req errs retries (n - 1) Hbuild Hi Hpre)
      as [t [rem [le [Hrem [Hd [Hb [_ Heq]]]]]]].
    fold n in Hrem. destruct rem as [|rem]; [|lia].
    rewrite Heq, do_loop_step, Hctx, Hbuild.
    pose proof (doOnce_events net c (n - 1) (stamped c req)) as Hev.
    destruct (doOnce net c (n - 1) (stamped c req)) as [r0 ev].
    simpl in Hdo, Hev. subst r0.
    rewrite Hafter. cbn [fst snd]. split; [reflexivity|].
    destruct Hev as [-> | [-> | ->]]; count_events. }
  intros req errs Hbuild. cbn zeta.
  split; [|split; [|split; [|split; [|split]]]].
  - intros i resp Hi Hpre [Hctx Hacq] Hx.
    destruct (do_after_failures net c build req Hbuild errs retries i Hi Hpre)
      as [t [rem [_ [Hd [Hs' [Hb Heq]]]]]].
    rewrite Heq, do_loop_step, Hctx, Hbuild.
    destruct (doOnce_exchange net c i (stamped c req) Hacq) as [Hr [Hde [Hse Hbe]]].
    destruct (doOnce net c i (stamped c req)) as [r0 ev].
    cbn [fst snd] in Hr, Hde, Hse, Hbe. rewrite Hr, Hx. cbn [fst snd].
    split; [reflexivity|].
    destruct (after_failures_counts c req t i (EvBuild :: ev) Hd Hs' Hb) as [H1 [H2 H3]].
    rewrite H1, H2, H3.
    change (EvBuild :: ev) with ([EvBuild] ++ ev).
    rewrite dispatched_of_app, delays_of_app, builds_app, Hde, Hse, Hbe. simpl.
    rewrite repeat_snoc, app_nil_r. split; [reflexivity|]. split; [reflexivity | lia].
  - intros Hpre [Hctx [Hacq [Hx Hafter]]].
    set (n := Z.to_nat (attempts_of retries)) in *.
    assert (Hi : (n - 1 < n)%nat) by lia.
    destruct (do_after_failures net c build req Hbuild errs retries (n - 1) Hi Hpre)
      as [t [rem [Hrem [Hd [Hs' [Hb Heq]]]]]].
    fold n in Hrem. destruct rem as [|rem]; [|lia].
    rewrite Heq, do_loop_step, Hctx, Hbuild.
    destruct (doOnce_exchange net c (n - 1) (stamped c req) Hacq) as [Hr [Hde [Hse Hbe]]].
    destruct (doOnce net c (n - 1) (stamped c req)) as [r0 ev].
    cbn [fst snd] in Hr, Hde, Hse, Hbe. rewrite Hr, Hx, Hafter. cbn [fst snd].
    split; [reflexivity|].
    destruct (after_failures_counts c req t (n - 1) (EvBuild :: ev) Hd Hs' Hb)
      as [H1 [H2 H3]].
    rewrite H1, H2, H3.
    change (EvBuild :: ev) with ([EvBuild] ++ ev).
    rewrite dispatched_of_app, delays_of_app, builds_app, Hde, Hse, Hbe. simpl.
    rewrite repeat_snoc, app_nil_r.
    replace (S (n - 1)) with n by lia. split; [reflexivity|]. split; [reflexivity | lia].
  - intros i e Hi Hpre Hctx.
    destruct (do_after_failures net c build req Hbuild errs retries i Hi Hpre)
      as [t [rem [_ [Hd [Hs' [Hb Heq]]]]]].
    rewrite Heq, do_loop_step, Hctx. cbn [fst snd]. rewrite app_nil_r. auto.
  - intros i e e' Hi Hpre Hctx Hlim Hacq Hafter.
    destruct (do_after_failures net c build req Hbuild errs retries i Hi Hpre)
      as [t [rem [_ [Hd [Hs' [Hb Heq]]]]]].
    rewrite Heq, do_loop_step, Hctx, Hbuild.
    unfold doOnce. destruct (limiter c) as [cap|]; [|congruence].
    rewrite Hacq, Hafter. cbn [fst snd].
    split; [reflexivity|].
    destruct (after_failures_counts c req t i [EvBuild] Hd Hs' Hb) as [H1 [H2 H3]].
    simpl app. rewrite H1, H2, H3. simpl. rewrite !app_nil_r.
    split; [reflexivity|]. split; [reflexivity | unfold builds; simpl; lia].
  - intros i e err Hi Hpre [Hctx Hacq] Hx Hafter.
    destruct (do_after_failures net c build req Hbuild errs retries i Hi Hpre)
      as [t [rem [_ [Hd [Hs' [Hb Heq]]]]]].
    rewrite Heq, do_loop_step, Hctx, Hbuild.
    destruct (doOnce_exchange net c i (stamped c req) Hacq) as [Hr [Hde [Hse Hbe]]].
    destruct (doOnce net c i (stamped c req)) as [r0 ev].
    cbn [fst snd] in Hr, Hde, Hse, Hbe. rewrite Hr, Hx, Hafter. cbn [fst snd].
    split; [reflexivity|].
    destruct (after_failures_counts c req t i (EvBuild :: ev) Hd Hs' Hb) as [H1 [H2 H3]].
    rewrite H1, H2, H3.
    change (EvBuild :: ev) with ([EvBuild] ++ ev).
    rewrite dispatched_of_app, delays_of_app, builds_app, Hde, Hse, Hbe. simpl.
    rewrite repeat_snoc, app_nil_r. split; [reflexivity|]. split; [reflexivity | lia].
  - intros i e Hi Hpre [Hctx [Hacq [Hx Hafter]]] Hwait.
    assert (Hi' : (i < Z.to_nat (attempts_of retries))%nat) by lia.
    destruct (do_after_failures net c build req Hbuild errs retries i Hi' Hpre)
      as [t [rem [Hrem [Hd [Hs' [Hb Heq]]]]]].
    destruct rem as [|rem]; [lia|].
    rewrite Heq, do_loop_step, Hctx, Hbuild.
    destruct (doOnce_exchange net c i (stamped c req) Hacq) as [Hr [Hde [Hse Hbe]]].
    destruct (doOnce net c i (stamped c req)) as [r0 ev].
    cbn [fst snd] in Hr, Hde, Hse, Hbe. rewrite Hr, Hx, Hafter, Hwait. cbn [fst snd].
    split; [reflexivity|].
    destruct (after_failures_counts c req t i (EvBuild :: ev ++ [EvSleep retryDelay])
                Hd Hs' Hb) as [H1 [H2 H3]].
    rewrite H1, H2, H3.
    change (EvBuild :: ev ++ [EvSleep retryDelay])
      with ([EvBuild] ++ ev ++ [EvSleep retryDelay]).
    rewrite !dispatched_of_app, !delays_of_app, !builds_app, Hde, Hse, Hbe. simpl.
    rewrite !repeat_snoc. split; [reflexivity|].
    split; [reflexivity | unfold builds; simpl; lia].
Qed.

(** On a network where every exchange times out, the exchange is made
    twice, with one timer of 5 seconds in between, and the error of
    the second attempt is returned. *)
Lemma do_retry_contract_witness :
  let call := do dead_net sample_client (fun _ => inl sample_request)
                 defaultRequestAttempts in
  fst call = inr timeout_error /\
  WireSpec.dispatched (snd call)
  = [stamped sample_client sample_request; stamped sample_client sample_request] /\
  WireSpec.delays (snd call) = [5 * Time.Second] /\
  builds (snd call) = 2%nat.
Proof.
  destruct (do_retry_contract dead_net sample_client (fun _ => inl sample_request)
                              defaultRequestAttempts)
    as (_ & _ & _ & _ & _ & _ & _ & _ & _ & H).
  destruct (H sample_request (fun _ => timeout_error) eq_refl) as (_ & Hall & _).
  apply Hall.
  - intros j Hj. repeat split; reflexivity.
  - repeat split; reflexivity.
Defined.

(** *** Classification *)

Lemma decodeAPIError_status lib resp :
  decodeAPIError lib (Some resp)
  = if StatusCode resp =? 412 then ErrTwoFactorRequired
    else APIError (reported_status lib resp) (pRequest (reported lib resp))
                  (reported_messages lib resp).
Proof.
  unfold decodeAPIError, reported_status, reported_messages, reported.
  destruct (StatusCode resp =? 412); [reflexivity|].
  destruct (0 <? String.length (Body resp))%nat; [|reflexivity].
  destruct (pErrors (unmarshalError lib (Body resp))); reflexivity.
Qed.

(** C6.  A response is never retried: [do] hands back the answer to
    its last exchange whatever the status, the attempts before it
    having ended in an error of [doOnce] ([answered_at]).  When the
    status is 400 or more, each of the five operations (Send, Login,
    RegisterDevice, FetchMessages, DeleteMessages) fails with
    [decodeAPIError] of that response: the sentinel
    [ErrTwoFactorRequired] for status 412, otherwise an [APIError]
    carrying the status the service reported (the HTTP status when it
    reported none), its request id and its messages.  The sentinel is
    no [APIError], and [performLogin] recognises it: after a login
    answered with 412 it logs in again with the code it asked for. *)
Theorem api_errors_classified lib net c :
  (forall resp,
     decodeAPIError lib (Some resp)
     = if StatusCode resp =? 412 then ErrTwoFactorRequired
       else APIError (reported_status lib resp) (pRequest (reported lib resp))
                     (reported_messages lib resp)) /\
  (forall st rq ms, ErrTwoFactorRequired <> APIError st rq ms) /\
  (forall build retries resp tr,
     do net c build retries = (inl resp, tr) ->
     exists i, answered_at net c build resp tr i) /\
  (forall params resp tr,
     ensureSendCredentials lib c = None ->
     TrimSpace lib (spMessage params) <> "" ->
     do net c (fun _ => inl (sendRequest lib c params)) defaultRequestAttempts
     = (inl resp, tr) ->
     400 <= StatusCode resp ->
     Send lib net c params = (inr (decodeAPIError lib (Some resp)), tr)) /\
  (forall email password code resp tr,
     email <> "" -> password <> "" ->
     do net c (fun _ => inl (loginRequest lib email password code)) defaultRequestAttempts
     = (inl resp, tr) ->
     400 <= StatusCode resp ->
     Login lib net c email password code = (inr (decodeAPIError lib (Some resp)), tr)) /\
  (forall secret name resp tr,
     secret <> "" -> name <> "" ->
     do net c (fun _ => inl (deviceRequest lib secret name)) defaultRequestAttempts
     = (inl resp, tr) ->
     400 <= StatusCode resp ->
     RegisterDevice lib net c secret name = (inr (decodeAPIError lib (Some resp)), tr)) /\
  (forall resp tr,
     ensureReceiveCredentials lib c = None ->
     do net c (fun _ => inl (fetchRequest lib c)) defaultRequestAttempts = (inl resp, tr) ->
     400 <= StatusCode resp ->
     FetchMessages lib net c = (inr (decodeAPIError lib (Some resp)), tr)) /\
  (forall upToID resp tr,
     ensureReceiveCredentials lib c = None -> 0 < upToID ->
     do net c (fun _ => inl (deleteRequest lib c upToID)) defaultRequestAttempts
     = (inl resp, tr) ->
     400 <= StatusCode resp ->
     DeleteMessages lib net c upToID = (Some (decodeAPIError lib (Some resp)), tr)) /\
  (forall net2 email password code resp tr,
     email <> "" -> password <> "" ->
     do net c (fun _ => inl (loginRequest lib email password "")) defaultRequestAttempts
     = (inl resp, tr) ->
     StatusCode resp = 412 ->
     cli.performLogin lib net net2 (inl code) c email password
     = (fst (Login lib net2 c email password code),
        [tr; snd (Login lib net2 c email password code)])).
Proof.
  split; [intros resp; apply decodeAPIError_status|].
  split; [intros st rq ms; discriminate|].
  split; [intros build retries resp tr H; apply (do_response _ _ _ _ _ _ H)|].
  repeat split.
  - intros params resp tr Hcred Hmsg Hdo Hst. unfold Send. rewrite Hcred.
    apply String.eqb_neq in Hmsg. rewrite Hmsg, Hdo.
    apply Z.leb_le in Hst. rewrite Hst. reflexivity.
  - intros email password code resp tr He Hp Hdo Hst. unfold Login.
    apply String.eqb_neq in He, Hp. rewrite He, Hp. simpl orb. rewrite Hdo.
    apply Z.leb_le in Hst. rewrite Hst. reflexivity.
  - intros secret name resp tr Hs Hn Hdo Hst. unfold RegisterDevice.
    apply String.eqb_neq in Hs, Hn. rewrite Hs, Hn, Hdo.
    apply Z.leb_le in Hst. rewrite Hst. reflexivity.
  - intros resp tr Hcred Hdo Hst. unfold FetchMessages. rewrite Hcred, Hdo.
    apply Z.leb_le in Hst. rewrite Hst. reflexivity.
  - intros upToID resp tr Hcred Hpos Hdo Hst. unfold DeleteMessages. rewrite Hcred.
    destruct (upToID <=? 0) eqn:E; [lia|]. rewrite Hdo.
    apply Z.leb_le in Hst. rewrite Hst. reflexivity.
  - intros net2 email password code resp tr He Hp Hdo Hst. unfold cli.performLogin.
    assert (H1 : Login lib net c email password "" = (inr ErrTwoFactorRequired, tr)).
    { unfold Login. apply String.eqb_neq in He, Hp. rewrite He, Hp. simpl orb.
      rewrite Hdo, Hst. simpl. unfold decodeAPIError. rewrite Hst. reflexivity. }
    rewrite H1. simpl.
    destruct (Login lib net2 c email password code) as [r2 tr2]. reflexivity.
Qed.

(** A login answered with status 412 fails with the two-factor
    sentinel after a single exchange. *)
Lemma api_errors_classified_witness :
  Login id_lib (answering (mkResponse 412 "")) sample_client "me@example.org" "pw" ""
  = (inr ErrTwoFactorRequired,
     [EvBuild; EvAcquire;
      EvDo (stamped sample_client (loginRequest id_lib "me@example.org" "pw" ""));
      EvRelease]).
Proof.
  destruct (api_errors_classified id_lib (answering (mkResponse 412 "")) sample_client)
    as (_ & _ & _ & _ & HL & _).
  rewrite (HL "me@example.org" "pw" "" (mkResponse 412 "")
              [EvBuild; EvAcquire;
               EvDo (stamped sample_client (loginRequest id_lib "me@example.org" "pw" ""));
               EvRelease]).
  - reflexivity.
  - discriminate.
  - discriminate.
  - reflexivity.
  - simpl. lia.
Defined.

(** A caller that cancels while the first retry delay runs gets the
    cancellation error after one exchange and one timer. *)
Example do_cancelled_in_delay :
  do cancelled_in_delay sample_client (fun _ => inl sample_request) defaultRequestAttempts
  = (inr (ctxError false),
     [EvBuild; EvAcquire; EvDo (stamped sample_client sample_request); EvRelease;
      EvSleep retryDelay]).
Proof. reflexivity. Qed.

End TransportProps.

(** ** The limiter *)

Module LimiterProps.

Import limiter LimiterSpec.

Lemma count_set_nth q p p' : forall l i,
  nth_error l i = Some p ->
  (count q (set_nth i p' l) + b2n (pc_eqb q p) = count q l + b2n (pc_eqb q p'))%nat.
Proof.
  unfold count. induction l as [|x l IH]; intros [|i] H; simpl in H; try discriminate.
  - inversion H; subst x. simpl.
    destruct (pc_eqb q p), (pc_eqb q p'); simpl; lia.
  - specialize (IH i H). simpl. destruct (pc_eqb q x); simpl; lia.
Qed.

Lemma length_set_nth p : forall l i, List.length (set_nth i p l) = List.length l.
Proof.
  induction l as [|x l IH]; intros [|i]; simpl; auto.
Qed.

Lemma nth_error_set_nth p : forall l i q,
  nth_error l i = Some q -> nth_error (set_nth i p l) i = Some p.
Proof.
  induction l as [|x l IH]; intros [|i] q H; simpl in *; try discriminate; eauto.
Qed.

Lemma count_repeat_Outside q n : q <> Outside -> count q (repeat Outside n) = 0%nat.
Proof.
  intros Hq. unfold count. induction n as [|n IH]; simpl; [reflexivity|].
  destruct q; simpl; try exact IH. contradiction.
Qed.

Lemma inv_init n : inv (init n).
Proof.
  unfold inv, init, holds_slot. simpl.
  rewrite !count_repeat_Outside by discriminate.
  unfold pushover.maxConcurrentRequests. repeat split; lia.
Qed.

Lemma inv_step s s' : inv s -> step s s' -> inv s'.
Proof.
  unfold inv, holds_slot. intros [Hcap [Hbuf Hle]] Hstep.
  destruct Hstep as [s i H|s i H Hroom|s i H|s i H|s i H|s i H]; simpl;
    pose proof (count_set_nth InDo _ AtSelect _ _ H) as A1;
    pose proof (count_set_nth InDo _ InDo _ _ H) as A2;
    pose proof (count_set_nth InDo _ Cancelled _ _ H) as A3;
    pose proof (count_set_nth InDo _ Deferred _ _ H) as A4;
    pose proof (count_set_nth InDo _ Outside _ _ H) as A5;
    pose proof (count_set_nth Deferred _ AtSelect _ _ H) as B1;
    pose proof (count_set_nth Deferred _ InDo _ _ H) as B2;
    pose proof (count_set_nth Deferred _ Cancelled _ _ H) as B3;
    pose proof (count_set_nth Deferred _ Deferred _ _ H) as B4;
    pose proof (count_set_nth Deferred _ Outside _ _ H) as B5;
    simpl in *; repeat split; try lia.
Qed.

Lemma reachable_inv n s : reachable n s -> inv s.
Proof.
  induction 1 as [|s s' _ IH Hstep]; [apply inv_init | exact (inv_step s s' IH Hstep)].
Qed.

Lemma reachable_length n s : reachable n s -> List.length (procs s) = n.
Proof.
  induction 1 as [|s s' _ IH Hstep].
  - simpl. apply repeat_length.
  - destruct Hstep; simpl; rewrite length_set_nth; exact IH.
Qed.

(** C9.  Whatever the number [n] of callers sharing a client made by
    [NewClient], and whatever they are calling [do] for, in every
    state they can reach at most 2 of them are inside [client.Do]; the
    channel never holds more than its 2 elements, one per caller
    between its send and its deferred receive.  A caller waiting at the
    select can always leave through the Done branch of its context,
    without taking a slot. *)
Theorem at_most_two_in_flight n s :
  reachable n s ->
  (in_flight s <= 2)%nat /\
  (buffered s <= 2)%nat /\
  List.length (procs s) = n /\
  forall i, nth_error (procs s) i = Some AtSelect ->
    exists s', step s s' /\
               nth_error (procs s') i = Some Cancelled /\
               buffered s' = buffered s.
Proof.
  intros Hr. pose proof (reachable_inv n s Hr) as [Hcap [Hbuf Hle]].
  unfold in_flight, holds_slot in *. unfold pushover.maxConcurrentRequests in Hcap.
  split; [lia|]. split; [lia|]. split; [exact (reachable_length n s Hr)|].
  intros i Hi. eexists. split; [apply (step_ctx_done s i Hi)|].
  simpl. split; [apply (nth_error_set_nth _ _ _ _ Hi) | reflexivity].
Qed.

(** With the channel full the select cannot send: the waiting caller
    stays out of [client.Do] until a slot is released. *)
Lemma full_channel_blocks s i :
  buffered s = cap s -> nth_error (procs s) i = Some AtSelect ->
  forall s', step s s' -> nth_error (procs s') i = Some InDo -> False.
Proof.
  intros Hfull Hi s' Hstep Hi'.
  destruct Hstep as [s j H|s j H Hroom|s j H|s j H|s j H|s j H]; simpl in Hi';
    try lia;
    (destruct (Nat.eq_dec j i) as [->|Hne];
     [rewrite (nth_error_set_nth _ _ _ _ H) in Hi'; discriminate|]);
    (assert (Hsame : forall p l a b, a <> b -> nth_error (set_nth a p l) b = nth_error l b)
      by (clear; intros p; induction l as [|x l IH]; intros [|a] [|b] Hab; simpl; auto;
          try contradiction));
    rewrite (Hsame _ _ _ _ Hne) in Hi'; congruence.
Qed.

(** One call of [doOnce] that finds room in the channel: the caller
    sends, runs the exchange, receives, and leaves the channel as it
    found it (the events [EvAcquire; EvDo req; EvRelease] of the
    sequential model). *)
Lemma doOnce_round_trip s i :
  nth_error (procs s) i = Some Outside -> (buffered s < cap s)%nat ->
  exists s1 s2 s3 s4,
    step s s1 /\ step s1 s2 /\ step s2 s3 /\ step s3 s4 /\
    nth_error (procs s2) i = Some InDo /\
    nth_error (procs s4) i = Some Outside /\
    buffered s4 = buffered s.
Proof.
  intros Hi Hroom.
  pose proof (nth_error_set_nth AtSelect _ _ _ Hi) as H1.
  pose proof (nth_error_set_nth InDo _ _ _ H1) as H2.
  pose proof (nth_error_set_nth Deferred _ _ _ H2) as H3.
  pose proof (nth_error_set_nth Outside _ _ _ H3) as H4.
  eexists. eexists. eexists. eexists.
  split; [apply (step_call s i Hi)|].
  split; [apply step_send; simpl; [exact H1 | exact Hroom]|].
  split; [apply step_do_returns; simpl; exact H2|].
  split; [apply step_release; simpl; exact H3|].
  simpl. split; [exact H2|]. split; [exact H4|]. reflexivity.
Qed.

(** Three callers, two of them in flight and the third waiting: a
    state the callers reach, and the bound holds there with
    equality. *)
Lemma at_most_two_in_flight_witness :
  (in_flight two_busy_one_waiting <= 2)%nat /\
  (buffered two_busy_one_waiting <= 2)%nat /\
  List.length (procs two_busy_one_waiting) = 3%nat /\
  forall i, nth_error (procs two_busy_one_waiting) i = Some AtSelect ->
    exists s', step two_busy_one_waiting s' /\
               nth_error (procs s') i = Some Cancelled /\
               buffered s' = buffered two_busy_one_waiting.
Proof.
  apply (at_most_two_in_flight 3 two_busy_one_waiting).
  apply (reach_step 3 (mkState 2 1 [InDo; AtSelect; AtSelect]));
    [|apply (step_send (mkState 2 1 [InDo; AtSelect; AtSelect]) 1); simpl;
      [reflexivity | lia]].
  apply (reach_step 3 (mkState 2 0 [AtSelect; AtSelect; AtSelect]));
    [|apply (step_send (mkState 2 0 [AtSelect; AtSelect; AtSelect]) 0); simpl;
      [reflexivity | lia]].
  apply (reach_step 3 (mkState 2 0 [AtSelect; AtSelect; Outside]));
    [|apply (step_call (mkState 2 0 [AtSelect; AtSelect; Outside]) 2); reflexivity].
  apply (reach_step 3 (mkState 2 0 [AtSelect; Outside; Outside]));
    [|apply (step_call (mkState 2 0 [AtSelect; Outside; Outside]) 1); reflexivity].
  apply (reach_step 3 (mkState 2 0 [Outside; Outside; Outside]));
    [|apply (step_call (mkState 2 0 [Outside; Outside; Outside]) 0); reflexivity].
  apply reach_init.
Defined.

End LimiterProps.

(** ** The ingestion cycle *)

Module PipelineProps.

Import pushover PipelineSpec.

Lemma highest_from_spec msgs : forall h,
  h <= mcp.highest_from h msgs /\
  (forall x, In x (map PushoverID msgs) -> x <= mcp.highest_from h msgs) /\
  (mcp.highest_from h msgs = h \/ In (mcp.highest_from h msgs) (map PushoverID msgs)).
Proof.
  induction msgs as [|m msgs IH]; intros h; simpl.
  - split; [lia|]. split; [intros x []|left; reflexivity].
  - destruct (h <? PushoverID m) eqn:E.
    + apply Z.ltb_lt in E. destruct (IH (PushoverID m)) as [H1 [H2 H3]].
      split; [lia|]. split.
      * intros x [<-|Hx]; [exact H1 | apply H2; exact Hx].
      * right. destruct H3 as [->|H3]; [left; reflexivity | right; exact H3].
    + apply Z.ltb_ge in E. destruct (IH h) as [H1 [H2 H3]].
      split; [exact H1|]. split.
      * intros x [<-|Hx]; [lia | apply H2; exact Hx].
      * destruct H3 as [H3|H3]; [left; exact H3 | right; right; exact H3].
Qed.

(** The cursor computed without an explicit one: 0 or more, the
    maximum identity when some identity is positive, 0 otherwise. *)
Lemma highest_from_zero msgs :
  0 <= mcp.highest_from 0 msgs /\
  ((exists m, In m (map PushoverID msgs) /\ 0 < m) ->
   is_max_id (mcp.highest_from 0 msgs) msgs) /\
  ((forall m, In m (map PushoverID msgs) -> m <= 0) -> mcp.highest_from 0 msgs = 0).
Proof.
  destruct (highest_from_spec msgs 0) as [H1 [H2 H3]].
  split; [exact H1|]. split.
  - intros [m [Hin Hpos]]. split; [|exact H2].
    destruct H3 as [H3|H3]; [|exact H3]. specialize (H2 m Hin). lia.
  - intros Hall. destruct H3 as [H3|H3]; [exact H3|]. specialize (Hall _ H3). lia.
Qed.

(** C2 (as amended).  For a cycle whose fetch returned [r], the
    acknowledgment cursor of both front ends is the explicit cursor of
    [r] when that is positive; otherwise it is the maximum remote
    identity among the fetched messages when some identity is
    positive, and 0 when none is (no message, or no positive
    identity).  The cycle acknowledges exactly the cursor when it is
    positive and issues no acknowledge call when it is 0. *)
Theorem ack_cursor_rule w cfg store input r ev :
  config.ValidateReceive cfg = None ->
  FetchMessages (lib w) (net_fetch w) (newClient w cfg) = (inl r, ev) ->
  let cursor := mcp.determineAckID (Some r) in
  cli.highestMessageID (Some r) (Messages r) = cursor /\
  (0 < LastMessageID r -> cursor = LastMessageID r) /\
  (LastMessageID r <= 0 ->
   (exists m, In m (map PushoverID (Messages r)) /\ 0 < m) ->
   is_max_id cursor (Messages r)) /\
  (LastMessageID r <= 0 ->
   (forall m, In m (map PushoverID (Messages r)) -> m <= 0) ->
   cursor = 0) /\
  ack_targets (snd (mcp.handleCheckMessages w cfg store input))
  = (if 0 <? cursor then [cursor] else []) /\
  (exists out, fst (fst (mcp.handleCheckMessages w cfg store input)) = inl out /\
               mcp.AckedUpTo out = cursor) /\
  (forall limit,
     ack_targets (cli.calls (cli.runMessages w (inl cfg) (inl store) limit))
     = (if 0 <? cursor then [cursor] else [])).
Proof.
  intros Hcfg Hfetch. cbn zeta.
  destruct (highest_from_zero (Messages r)) as [H0 [Hmax Hzero]].
  split; [reflexivity|].
  split; [intros Hpos; simpl; apply Z.ltb_lt in Hpos; rewrite Hpos; reflexivity|].
  split; [intros Hle Hex; simpl; destruct (0 <? LastMessageID r) eqn:E;
          [apply Z.ltb_lt in E; lia | apply Hmax; exact Hex]|].
  split; [intros Hle Hall; simpl; destruct (0 <? LastMessageID r) eqn:E;
          [apply Z.ltb_lt in E; lia | apply Hzero; exact Hall]|].
  split; [|split].
  - unfold mcp.handleCheckMessages. rewrite Hcfg, Hfetch.
    destruct (messages.PersistReceived _ _ _ _) as [[n pe] st].
    destruct (0 <? mcp.determineAckID (Some r)); [|reflexivity].
    destruct (DeleteMessages _ _ _ _) as [e ea]. reflexivity.
  - unfold mcp.handleCheckMessages. rewrite Hcfg, Hfetch.
    destruct (messages.PersistReceived _ _ _ _) as [[n pe] st].
    destruct (0 <? mcp.determineAckID (Some r)).
    + destruct (DeleteMessages _ _ _ _) as [e ea]. eexists. split; reflexivity.
    + eexists. split; reflexivity.
  - intros limit. unfold cli.runMessages. rewrite Hcfg, Hfetch.
    destruct (messages.PersistReceived _ _ _ _) as [[n pe] st].
    change (cli.highestMessageID (Some r) (Messages r))
      with (mcp.determineAckID (Some r)).
    destruct (0 <? mcp.determineAckID (Some r)); [|reflexivity].
    destruct (DeleteMessages _ _ _ _) as [e ea]. reflexivity.
Qed.

(** Messages 100, 105 and 103 without an explicit cursor: the cycle
    acknowledges 105. *)
Lemma ack_cursor_rule_witness :
  ack_targets (snd (mcp.handleCheckMessages
                      (serving three_messages 0 DbSpec.no_faults) sample_config
                      (db.Handle DbSpec.empty_db) (mcp.mkCheckMessagesInput None)))
  = [105].
Proof.
  destruct (ack_cursor_rule
              (serving three_messages 0 DbSpec.no_faults) sample_config
              (db.Handle DbSpec.empty_db) (mcp.mkCheckMessagesInput None)
              (mkFetchResult three_messages 0 "req")
              (snd (FetchMessages (lib (serving three_messages 0 DbSpec.no_faults))
                                  (net_fetch (serving three_messages 0 DbSpec.no_faults))
                                  (newClient (serving three_messages 0 DbSpec.no_faults)
                                             sample_config)))
              eq_refl eq_refl)
    as (_ & _ & _ & _ & H & _).
  rewrite H. reflexivity.
Defined.

(** C2, counterexample.  One fetched message with identity -5 and
    explicit cursor 0: the maximum identity of the list is -5, the
    cursor computed is 0, which is not in the list. *)
Lemma cursor_zero_for_nonpositive_ids :
  is_max_id (-5) [sample_message (-5) "m"] /\
  mcp.determineAckID (Some (mkFetchResult [sample_message (-5) "m"] 0 "req")) = 0 /\
  cli.highestMessageID (Some (mkFetchResult [sample_message (-5) "m"] 0 "req"))
                       [sample_message (-5) "m"] = 0 /\
  ~ cursor_is_the_maximum.
Proof.
  split; [split; [left; reflexivity | intros x [<-|[]]; simpl; lia]|].
  split; [reflexivity|]. split; [reflexivity|].
  intros H.
  destruct (H (mkFetchResult [sample_message (-5) "m"] 0 "req") eq_refl)
    as [Hin _]; [discriminate|].
  simpl in Hin. destruct Hin as [Hin|[]]. discriminate.
Qed.

(** *** Failures of the persistence step *)

Lemma Error_wrap_nonempty c p e : Error (wrapError (String c p) e) <> "".
Proof. simpl. discriminate. Qed.

(** Every error of the batched upsert has a message. *)
Lemma PersistMessages_error_message drv s msgs n e s' :
  db.PersistMessages drv s msgs = (n, Some e, s') -> Error e <> "".
Proof.
  unfold db.PersistMessages. destruct s as [| |d]; intros H;
    [inversion H; discriminate | inversion H; discriminate |].
  destruct msgs as [|m msgs]; [discriminate|].
  destruct (if db.closed d then Some db.errDBClosed else db.begin_err drv).
  { inversion H; subst. apply Error_wrap_nonempty. }
  destruct (db.prepare_err drv).
  { inversion H; subst. apply Error_wrap_nonempty. }
  destruct (db.insert_loop drv 0 (m :: msgs) _ 0) as [[[n0 e0] tx0]|[n0 tx0]] eqn:E.
  { inversion H; subst. apply DbProps.insert_loop_inl in E.
    destruct E as [j [e1 [_ [_ [_ [-> _]]]]]]. apply Error_wrap_nonempty. }
  destruct (db.commit_err drv); inversion H; subst. apply Error_wrap_nonempty.
Qed.

(** X13.  A cycle whose fetch succeeded does not fail when persistence
    does: the handler returns its output with every fetched message
    counted, the messages up to the limit, the error of the store as
    the persistence warning (never empty), and it acknowledges the
    cursor when that is positive, reporting a failure of the
    acknowledgment in the other warning.  The persisted count is the
    one the store returned with its error. *)
Lemma persist_failure_is_a_warning w cfg store input r ev n e store' :
  config.ValidateReceive cfg = None ->
  FetchMessages (lib w) (net_fetch w) (newClient w cfg) = (inl r, ev) ->
  messages.PersistReceived (clock w) (drv w) store (Messages r) = (n, Some e, store') ->
  exists out calls,
    mcp.handleCheckMessages w cfg store input = (inl out, store', calls) /\
    mcp.Count out = Z.of_nat (List.length (Messages r)) /\
    mcp.OutMessages out = truncate (mcp.OutLimit out) (Messages r) /\
    mcp.Persisted out = n /\
    mcp.Warning out = Error e /\ mcp.Warning out <> "" /\
    mcp.AckedUpTo out = mcp.determineAckID (Some r) /\
    ack_targets calls
    = (if 0 <? mcp.determineAckID (Some r) then [mcp.determineAckID (Some r)] else []) /\
    mcp.AckWarning out
    = (if 0 <? mcp.determineAckID (Some r)
       then match fst (DeleteMessages (lib w) (net_ack w) (newClient w cfg)
                                      (mcp.determineAckID (Some r))) with
            | Some err => Error err
            | None => ""
            end
       else "").
Proof.
  intros Hcfg Hfetch Hpersist.
  assert (Hmsg : Error e <> "").
  { unfold messages.PersistReceived in Hpersist.
    destruct (Messages r); [discriminate|].
    apply (PersistMessages_error_message _ _ _ _ _ _ Hpersist). }
  unfold mcp.handleCheckMessages. rewrite Hcfg, Hfetch, Hpersist.
  destruct (0 <? mcp.determineAckID (Some r)).
  - destruct (DeleteMessages _ _ _ _) as [ea eva]. simpl fst.
    eexists. eexists. split; [reflexivity|]. simpl. repeat split; auto.
  - eexists. eexists. split; [reflexivity|]. simpl. repeat split; auto.
Qed.

(** C3, at the failing input.  Three messages are fetched and the
    ExecContext of the third fails.  The cycle goes on as it should
    (three messages counted and returned, a persistence warning,
    acknowledgment of 105), and the batch was rolled back (the table
    is empty), but the output reports [persisted = 2]. *)
Theorem persisted_count_after_failed_insert :
  exists out d' calls,
    mcp.handleCheckMessages (serving three_messages 0 (DbSpec.exec_fails_at 2))
                            sample_config (db.Handle DbSpec.empty_db)
                            (mcp.mkCheckMessagesInput None)
    = (inl out, db.Handle d', calls) /\
    mcp.Count out = 3 /\ mcp.Returned out = 3 /\
    mcp.Persisted out = 2 /\
    mcp.Warning out = "insert message: disk I/O error" /\
    mcp.AckedUpTo out = 105 /\ mcp.AckWarning out = "" /\
    ack_targets calls = [105] /\
    db.messages d' = [].
Proof.
  eexists. eexists. eexists. split; [vm_compute; reflexivity|].
  repeat split; reflexivity.
Qed.

End PipelineProps.

(** ** More on the message store *)

Module StoreMore.

Import db DbSpec StoreSpec.

Lemma stored_ids_upsert a tbl p :
  In p (stored_ids (upsert tbl a)) <-> In p (stored_ids tbl) \/ p = a_pushover_id a.
Proof.
  unfold stored_ids, upsert.
  destruct (has_pushover_id (a_pushover_id a) tbl) eqn:E.
  - rewrite DbProps.ids_map_do_update. apply DbProps.has_pushover_id_In in E.
    split; [auto | intros [H | ->]; assumption].
  - rewrite map_app, in_app_iff. simpl. unfold pushover_id at 2. simpl.
    split; [intros [H | [H | []]]; auto | intros [H | ->]; auto].
Qed.

Lemma stored_ids_apply_all args : forall tbl p,
  In p (stored_ids (apply_all tbl args))
  <-> In p (stored_ids tbl) \/ In p (map a_pushover_id args).
Proof.
  induction args as [|a args IH]; intros tbl p; simpl.
  - tauto.
  - rewrite IH, stored_ids_upsert. intuition.
Qed.

Lemma batch_args_ids drv msgs : forall k,
  map a_pushover_id (batch_args drv k msgs) = map PushoverID msgs.
Proof.
  induction msgs as [|m msgs IH]; intros k; simpl; [reflexivity | rewrite IH; reflexivity].
Qed.

Lemma length_upsert a tbl :
  (List.length tbl <= List.length (upsert tbl a) <= S (List.length tbl))%nat.
Proof.
  unfold upsert. destruct (has_pushover_id (a_pushover_id a) tbl).
  - rewrite length_map. lia.
  - rewrite length_app. simpl. lia.
Qed.

Lemma length_apply_all args : forall tbl,
  (List.length tbl <= List.length (apply_all tbl args)
   <= List.length tbl + List.length args)%nat.
Proof.
  induction args as [|a args IH]; intros tbl; simpl; [lia|].
  specialize (IH (upsert tbl a)). pose proof (length_upsert a tbl). lia.
Qed.

Lemma apply_all_keeps_rows args : forall tbl r0,
  In r0 tbl ->
  exists r1, In r1 (apply_all tbl args) /\ id r1 = id r0 /\ pushover_id r1 = pushover_id r0.
Proof.
  induction args as [|a args IH]; intros tbl r0 Hin; simpl.
  - exists r0. auto.
  - destruct (DbProps.upsert_keeps_rows a tbl r0 Hin) as [r1 [Hin1 [Hid1 Hp1]]].
    destruct (IH _ r1 Hin1) as [r2 [Hin2 [Hid2 Hp2]]].
    exists r2. split; [exact Hin2|]. split; congruence.
Qed.

(** X1.  A call of [PersistMessages] that returns an error never
    leaves a part of the batch behind.  The table of sent records and
    the state of the handle are unchanged.  When the failing call was
    BeginTx, Prepare or an insert, the table of messages is as it was.
    When the failing call was Commit, it was the last call on the SQL
    layer (no Rollback follows), the count returned is the length of
    the batch, and the handle shows what the SQL layer left: the table
    with the whole batch applied when the transaction's rows stay
    visible, the table as it was otherwise. *)
Theorem persist_error_is_all_or_nothing drv d msgs n e s' :
  PersistMessages drv (Handle d) msgs = (n, Some e, s') ->
  exists d',
    s' = Handle d' /\ sent d' = sent d /\ closed d' = closed d /\
    ((forall ce, e <> wrapError "commit messages: " ce) -> messages d' = messages d) /\
    (forall ce, e = wrapError "commit messages: " ce ->
       commit_err drv = Some ce /\
       n = Z.of_nat (List.length msgs) /\
       (exists j, journal d' = j ++ [OpCommit]) /\
       messages d' = if uncommitted_visible drv
                     then apply_all (messages d) (batch_args drv 0 msgs)
                     else messages d).
Proof.
  intros H. unfold PersistMessages in H.
  destruct msgs as [|m msgs]; [discriminate|].
  destruct (if closed d then Some errDBClosed else begin_err drv).
  { inversion H; subst. eexists. split; [reflexivity|]. simpl.
    split; [reflexivity|]. split; [reflexivity|]. split; [reflexivity|].
    intros ce Hce. discriminate. }
  destruct (prepare_err drv).
  { inversion H; subst. eexists. split; [reflexivity|]. simpl.
    split; [reflexivity|]. split; [reflexivity|]. split; [reflexivity|].
    intros ce Hce. discriminate. }
  destruct (insert_loop drv 0 (m :: msgs) _ 0) as [[[n0 e0] tx0]|[n0 tx0]] eqn:E.
  { apply DbProps.insert_loop_inl in E. destruct E as [k [e1 [_ [_ [_ [-> _]]]]]].
    inversion H; subst. eexists. split; [reflexivity|]. simpl.
    split; [reflexivity|]. split; [reflexivity|]. split; [reflexivity|].
    intros ce Hce. discriminate. }
  apply DbProps.insert_loop_inr in E. destruct E as [Hn Hw]. cbn [working] in Hw.
  destruct (commit_err drv) as [err|] eqn:Hc; [|discriminate].
  inversion H; subst. eexists. split; [reflexivity|]. cbn [sent closed messages journal].
  split; [reflexivity|]. split; [reflexivity|].
  split; [intros Hne; exfalso; apply (Hne err); reflexivity|].
  intros ce Hce. inversion Hce; subst ce.
  split; [reflexivity|]. split; [lia|]. split; [eexists; reflexivity|].
  rewrite Hw. reflexivity.
Qed.

(** A batch of one record on a table of two rows, the Commit failing
    with the database locked and the transaction left open: the call
    returns an error and the next statement sees the new row. *)
Lemma persist_error_is_all_or_nothing_witness :
  exists d',
    snd (PersistMessages commit_busy (Handle two_rows_db) [sample_record 5 "b" "y" 60])
    = Handle d' /\
    stored_ids (messages d') = [4; 9; 5].
Proof.
  destruct (persist_error_is_all_or_nothing commit_busy two_rows_db
              [sample_record 5 "b" "y" 60] 1
              (wrapError "commit messages: " (errorString "database is locked"))
              (snd (PersistMessages commit_busy (Handle two_rows_db)
                      [sample_record 5 "b" "y" 60])) eq_refl)
    as (d' & Hs & _ & _ & _ & Hcommit).
  destruct (Hcommit _ eq_refl) as (_ & _ & _ & Hm).
  exists d'. split; [exact Hs|]. rewrite Hm. reflexivity.
Defined.

(** X2.  A call of [PersistMessages] that succeeds reports the length
    of the batch; afterwards the remote identities are still unique,
    they are exactly those stored before together with those of the
    batch, every row that was there is still there under its rowid and
    identity, the table grew by at most the length of the batch, and
    the table of sent records is untouched. *)
Theorem persist_success_extends_table drv d msgs n s' :
  unique_ids (messages d) ->
  PersistMessages drv (Handle d) msgs = (n, None, s') ->
  n = Z.of_nat (List.length msgs) /\
  exists d',
    s' = Handle d' /\
    unique_ids (messages d') /\
    sent d' = sent d /\
    (forall p, In p (stored_ids (messages d'))
               <-> In p (stored_ids (messages d)) \/ In p (map PushoverID msgs)) /\
    (forall r0, In r0 (messages d) ->
       exists r1, In r1 (messages d') /\ id r1 = id r0 /\ pushover_id r1 = pushover_id r0) /\
    (List.length (messages d) <= List.length (messages d')
     <= List.length (messages d) + List.length msgs)%nat.
Proof.
  intros Hu H.
  destruct (DbProps.PersistMessages_success_applies_all _ _ _ _ _ H)
    as [Hn [d' [-> [Hm [Hs Hc]]]]].
  split; [exact Hn|]. exists d'. split; [reflexivity|].
  rewrite Hm. split; [apply DbProps.apply_all_unique; exact Hu|].
  split; [exact Hs|]. split; [|split].
  - intros p. rewrite stored_ids_apply_all, batch_args_ids. tauto.
  - intros r0 Hin. apply apply_all_keeps_rows. exact Hin.
  - pose proof (length_apply_all (batch_args drv 0 msgs) (messages d)) as Hl.
    assert (Hb : List.length (batch_args drv 0 msgs) = List.length msgs).
    { rewrite <- (length_map a_pushover_id), batch_args_ids, length_map. reflexivity. }
    lia.
Qed.

(** Upserting identities 4 (known) and 5 (new) into the table of two
    rows. *)
Lemma persist_success_extends_table_witness :
  exists d',
    snd (PersistMessages no_faults (Handle two_rows_db)
           [sample_record 4 "new" "x" 50; sample_record 5 "b" "y" 60]) = Handle d' /\
    unique_ids (messages d') /\
    (forall p, In p (stored_ids (messages d'))
               <-> In p (stored_ids (messages two_rows_db)) \/ In p [4; 5]).
Proof.
  destruct (persist_success_extends_table no_faults two_rows_db
              [sample_record 4 "new" "x" 50; sample_record 5 "b" "y" 60] 2
              (snd (PersistMessages no_faults (Handle two_rows_db)
                      [sample_record 4 "new" "x" 50; sample_record 5 "b" "y" 60])))
    as [_ [d' [Hs [Hu [_ [Hids _]]]]]].
  - repeat constructor; simpl; intuition discriminate.
  - reflexivity.
  - exists d'. split; [exact Hs|]. split; [exact Hu | exact Hids].
Defined.

Lemma next_sent_id_fresh tbl r : In r tbl -> sent_id r < next_sent_id tbl.
Proof.
  unfold next_sent_id. induction tbl as [|x tbl IH]; simpl; [intros []|].
  intros [<-|Hin]; [lia | specialize (IH Hin); lia].
Qed.

(** X3.  [LogSent] on a store with a handle only ever appends: when it
    succeeds the table of sent records is the old one followed by one
    row that carries the fields of the record (a zero send time replaced
    by the clock reading) under a rowid larger than every rowid in use;
    when it fails the table is unchanged.  The received messages are
    untouched either way. *)
Theorem LogSent_appends_one_row drv d rec e s' :
  LogSent drv (Handle d) rec = (e, s') ->
  exists d',
    s' = Handle d' /\ messages d' = messages d /\ closed d' = closed d /\
    match e with
    | None =>
        exists i, sent d' = sent d ++ [sent_row_of drv i rec] /\
                  forall r, In r (sent d) -> sent_id r < i
    | Some _ => sent d' = sent d
    end.
Proof.
  unfold LogSent. intros H.
  destruct (if closed d then Some errDBClosed else sent_err drv).
  - inversion H; subst. eexists. split; [reflexivity|]. simpl. auto.
  - inversion H; subst. eexists. split; [reflexivity|]. simpl.
    split; [reflexivity|]. split; [reflexivity|].
    exists (next_sent_id (sent d)). split; [reflexivity|].
    intros r Hr. apply next_sent_id_fresh. exact Hr.
Qed.

(** Logging the sample record on the empty database. *)
Lemma LogSent_appends_one_row_witness :
  exists d',
    snd (LogSent no_faults (Handle empty_db) sample_sent) = Handle d' /\
    messages d' = messages empty_db /\ closed d' = closed empty_db /\
    exists i, sent d' = sent empty_db ++ [sent_row_of no_faults i sample_sent] /\
              forall r, In r (sent empty_db) -> sent_id r < i.
Proof.
  apply (LogSent_appends_one_row no_faults empty_db sample_sent None).
  reflexivity.
Defined.

(** The query of the twenty rows for "error" with limit 5 obeys the
    bounds of a successful query. *)
Lemma QueryMessages_result_witness :
  Z.of_nat (List.length (fst (fst (QueryMessages no_faults
                                     (Handle (mkDB twenty_rows [] false []))
                                     5 None "error"))))
  <= effective_limit 5 /\
  StronglySorted newer_first
    (fst (fst (QueryMessages no_faults (Handle (mkDB twenty_rows [] false []))
                             5 None "error"))).
Proof.
  destruct (DbProps.QueryMessages_result no_faults (mkDB twenty_rows [] false [])
              5 None "error"
              (fst (fst (QueryMessages no_faults (Handle (mkDB twenty_rows [] false []))
                                       5 None "error")))
              (snd (QueryMessages no_faults (Handle (mkDB twenty_rows [] false []))
                                  5 None "error")))
    as [Hlen [Hsorted _]].
  - vm_compute. reflexivity.
  - split; [exact Hlen | exact Hsorted].
Defined.

(** "error" has no wildcard: LIKE finds it in "Disk ERROR on host". *)
Lemma LIKE_literal_contains_witness :
  LIKE "Disk ERROR on host" ("%" ++ "error" ++ "%") = contains "Disk ERROR on host" "error".
Proof.
  apply (DbProps.LIKE_literal_contains "Disk ERROR on host" "error").
  repeat constructor.
Defined.

Lemma insert_desc_perm r l : Permutation (insert_desc r l) (r :: l).
Proof.
  induction l as [|x l IH]; simpl; [apply Permutation_refl|].
  destruct (sorts_after r x).
  - apply perm_trans with (x :: r :: l); [apply perm_skip; exact IH | apply perm_swap].
  - apply Permutation_refl.
Qed.

Lemma order_by_perm l : Permutation (order_by_received_at_desc l) l.
Proof.
  induction l as [|x l IH]; simpl; [apply perm_nil|].
  apply perm_trans with (x :: order_by_received_at_desc l);
    [apply insert_desc_perm | apply perm_skip; exact IH].
Qed.

Lemma filter_all {A : Type} (f : A -> bool) l :
  (forall x, In x l -> f x = true) -> filter f l = l.
Proof.
  induction l as [|x l IH]; simpl; intros H; [reflexivity|].
  rewrite (H x (or_introl eq_refl)). f_equal. apply IH. intros y Hy. apply H. right. exact Hy.
Qed.

Lemma query_returns_every_row_aux drv d limit results s' :
  QueryMessages drv (Handle d) limit None "" = (results, None, s') ->
  Z.of_nat (List.length (messages d)) <= effective_limit limit ->
  Permutation results (map scan (messages d)).
Proof.
  intros H Hlimit.
  pose proof (DbProps.QueryMessages_success _ _ _ _ _ _ _ H) as Hres.
  subst results. unfold select_messages.
  rewrite (filter_all (where_clause None "") (messages d)) by (intros; reflexivity).
  rewrite firstn_all2.
  - apply Permutation_map, order_by_perm.
  - rewrite (Permutation_length (order_by_perm (messages d))). lia.
Qed.

(** X5.  A successful query without filters whose effective limit is
    at least the number of stored rows returns every stored row exactly
    once (most recent first), and leaves both tables as they were:
    querying neither loses nor changes a row. *)
Theorem query_returns_every_row drv d limit results s' :
  QueryMessages drv (Handle d) limit None "" = (results, None, s') ->
  Z.of_nat (List.length (messages d)) <= effective_limit limit ->
  Permutation results (map scan (messages d)) /\
  StronglySorted newer_first results /\
  exists d', s' = Handle d' /\ messages d' = messages d /\ sent d' = sent d.
Proof.
  intros H Hlimit.
  pose proof (DbProps.QueryMessages_success _ _ _ _ _ _ _ H) as Hres.
  split; [exact (query_returns_every_row_aux _ _ _ _ _ H Hlimit)|]. split.
  - subst results. unfold select_messages.
    apply DbProps.map_scan_sorted, DbProps.firstn_sorted, DbProps.order_by_sorted.
  - unfold QueryMessages in H.
    destruct (if closed d then Some errDBClosed else query_err drv); [discriminate|].
    destruct (scan_rows drv 0 _) as [res|]; [|discriminate].
    destruct (rows_err drv); [discriminate|].
    inversion H; subst. eexists. split; [reflexivity|]. simpl. auto.
Qed.

(** The table of two rows read with the default limit. *)
Lemma query_returns_every_row_witness :
  Permutation (fst (fst (QueryMessages no_faults (Handle two_rows_db) 0 None "")))
              (map scan (messages two_rows_db)).
Proof.
  destruct (query_returns_every_row no_faults two_rows_db 0
              (fst (fst (QueryMessages no_faults (Handle two_rows_db) 0 None "")))
              (snd (QueryMessages no_faults (Handle two_rows_db) 0 None "")))
    as [Hperm _].
  - reflexivity.
  - vm_compute. discriminate.
  - exact Hperm.
Defined.

Lemma last_record_from_received clock p msgs : forall k,
  match last_received p msgs with
  | Some msg =>
      exists t, last_record p (messages.RecordsFromReceived_from clock k msgs)
                = Some (messages.record_of t msg)
  | None => last_record p (messages.RecordsFromReceived_from clock k msgs) = None
  end.
Proof.
  unfold last_received, last_record.
  induction msgs as [|m msgs IH]; intros k; simpl; [reflexivity|].
  specialize (IH (S k)).
  destruct (last_such (fun m0 => pushover.PushoverID m0 =? p) msgs) as [msg|].
  - destruct IH as [t Ht]. exists t. rewrite Ht. reflexivity.
  - rewrite IH. simpl. destruct (pushover.PushoverID m =? p); [eexists|]; reflexivity.
Qed.

(** X7.  What was ingested is found in the history.  After
    [PersistReceived] succeeded on a store with a handle, a successful
    query without filters whose limit covers the table returns, for
    every remote identity of the fetched batch, exactly one record: the
    last fetched message with that identity, converted as
    [RecordsFromReceived] converts it, under the rowid and receipt time
    of its row. *)
Theorem ingest_then_history clock drv drvq d msgs n s1 limit results s2 :
  unique_ids (messages d) ->
  messages.PersistReceived clock drv (Handle d) msgs = (n, None, s1) ->
  QueryMessages drvq s1 limit None "" = (results, None, s2) ->
  Z.of_nat (List.length (messages d) + List.length msgs) <= effective_limit limit ->
  forall p msg,
    last_received p msgs = Some msg ->
    exists i t,
      In (stored_record i t (messages.record_of t msg)) results /\
      forall rec, In rec results -> PushoverID rec = p ->
                  rec = stored_record i t (messages.record_of t msg).
Proof.
  intros Hu Hpersist Hquery Hlimit p msg Hlast.
  unfold messages.PersistReceived in Hpersist.
  destruct msgs as [|m0 msgs0] eqn:Emsgs; [discriminate|]. rewrite <- Emsgs in *.
  pose proof Hpersist as Hp. clear Hpersist Emsgs.
  destruct (DbProps.PersistMessages_success_applies_all _ _ _ _ _ Hp)
    as [_ [d1 [-> [Hm1 _]]]].
  set (recs := messages.RecordsFromReceived clock msgs) in *.
  assert (Hlen : List.length recs = List.length msgs).
  { unfold recs, messages.RecordsFromReceived. generalize 0%nat.
    clear. induction msgs as [|m msgs IH]; intros k; simpl; [reflexivity|].
    rewrite IH. reflexivity. }
  (* the row of [p] *)
  pose proof (last_record_from_received clock p msgs 0) as Hrec.
  rewrite Hlast in Hrec. destruct Hrec as [t0 Hrec].
  fold (messages.RecordsFromReceived clock msgs) in Hrec. fold recs in Hrec.
  pose proof (DbProps.last_args_batch drv p recs 0) as Hargs.
  rewrite Hrec in Hargs. destruct Hargs as [j Hargs].
  pose proof (DbProps.rows_with_apply_all p (batch_args drv 0 recs) (messages d) Hu) as Hrow.
  rewrite Hargs, <- Hm1 in Hrow. destruct Hrow as [i [Hrow _]].
  set (row := mkRow i (insert_args drv j (messages.record_of t0 msg))) in *.
  (* the query returns every row *)
  assert (Hall : Permutation results (map scan (messages d1))).
  { apply (query_returns_every_row_aux drvq d1 limit results s2 Hquery).
    rewrite Hm1.
    pose proof (length_apply_all (batch_args drv 0 recs) (messages d)) as Hl.
    assert (Hb : List.length (batch_args drv 0 recs) = List.length recs).
    { rewrite <- (length_map a_pushover_id), batch_args_ids, length_map. reflexivity. }
    lia. }
  exists i, (received_at row). split.
  - apply (Permutation_in _ (Permutation_sym Hall)).
    apply in_map_iff. exists row. split.
    + unfold row. rewrite DbProps.scan_insert_args. reflexivity.
    + assert (Hin : In row (rows_with p (messages d1))) by (rewrite Hrow; left; reflexivity).
      apply filter_In in Hin. tauto.
  - intros rec Hin Hid.
    apply (Permutation_in _ Hall) in Hin. apply in_map_iff in Hin.
    destruct Hin as [r [<- Hr]].
    assert (Hin : In r (rows_with p (messages d1))).
    { apply filter_In. split; [exact Hr|]. apply Z.eqb_eq. exact Hid. }
    rewrite Hrow in Hin. destruct Hin as [<-|[]].
    unfold row. rewrite DbProps.scan_insert_args. reflexivity.
Qed.

(** The three sample messages ingested into the empty database: the
    history holds message 105. *)
Lemma ingest_then_history_witness :
  exists i t,
    In (stored_record i t (messages.record_of t (PipelineSpec.sample_message 105 "two")))
       (fst (fst (QueryMessages no_faults
                    (snd (messages.PersistReceived (fun k => 2000 + Z.of_nat k) no_faults
                            (Handle empty_db) PipelineSpec.three_messages))
                    0 None ""))).
Proof.
  destruct (ingest_then_history
              (fun k => 2000 + Z.of_nat k) no_faults no_faults empty_db
              PipelineSpec.three_messages 3
              (snd (messages.PersistReceived (fun k => 2000 + Z.of_nat k) no_faults
                      (Handle empty_db) PipelineSpec.three_messages))
              0
              (fst (fst (QueryMessages no_faults
                           (snd (messages.PersistReceived (fun k => 2000 + Z.of_nat k)
                                   no_faults (Handle empty_db)
                                   PipelineSpec.three_messages))
                           0 None "")))
              (snd (QueryMessages no_faults
                      (snd (messages.PersistReceived (fun k => 2000 + Z.of_nat k)
                              no_faults (Handle empty_db) PipelineSpec.three_messages))
                      0 None ""))
              (NoDup_nil Z) eq_refl eq_refl)
    with (p := 105) (msg := PipelineSpec.sample_message 105 "two")
    as [i [t [Hin _]]].
  - vm_compute. discriminate.
  - reflexivity.
  - exists i, t. exact Hin.
Defined.

End StoreMore.

(** ** More on the transport *)

Module TransportMore.

Import pushover TransportSpec WireSpec.

Lemma dispatched_app t1 t2 : dispatched (t1 ++ t2) = dispatched t1 ++ dispatched t2.
Proof. unfold dispatched. apply flat_map_app. Qed.

Lemma delays_app t1 t2 : delays (t1 ++ t2) = delays t1 ++ delays t2.
Proof. unfold delays. apply flat_map_app. Qed.

Lemma header_set_values k v h : header_values k (header_set k v h) = [v].
Proof.
  unfold header_values, header_set. simpl. rewrite String.eqb_refl. simpl. f_equal.
  induction h as [|[k' v'] h IH]; simpl; [reflexivity|].
  destruct (String.eqb k' k) eqn:E; simpl; [exact IH|]. rewrite E. exact IH.
Qed.

Lemma header_set_others k v h k' :
  k' <> k -> header_values k' (header_set k v h) = header_values k' h.
Proof.
  intros Hne. unfold header_values, header_set. simpl.
  destruct (String.eqb k k') eqn:E; [apply String.eqb_eq in E; congruence|]. f_equal.
  induction h as [|[k0 v0] h IH]; simpl; [reflexivity|].
  destruct (String.eqb k0 k) eqn:E0; simpl.
  - apply String.eqb_eq in E0. subst k0. rewrite E. exact IH.
  - destruct (String.eqb k0 k'); simpl; [f_equal|]; exact IH.
Qed.

(** What one pass of the loop and everything after it dispatch and how
    long they sleep. *)
Ltac wire_done :=
  repeat match goal with |- _ /\ _ => split end;
  simpl; auto; try lia;
  try (intros ? Hin; contradiction);
  try (intros; discriminate).

Lemma do_loop_wire net c build remaining : forall i lastErr,
  let r := fst (do_loop net c build remaining i lastErr []) in
  let t := snd (do_loop net c build remaining i lastErr []) in
  (forall req, In req (dispatched t) ->
     exists req0, build tt = inl req0 /\ req = stamped c req0) /\
  Forall (fun d => d = retryDelay) (delays t) /\
  (List.length (delays t) <= remaining - 1)%nat /\
  (List.length (delays t) <= builds t)%nat /\
  (forall resp, r = inl resp -> S (List.length (delays t)) = builds t).
Proof.
  induction remaining as [|rest IH]; intros i lastErr; cbn zeta.
  - simpl. destruct lastErr; wire_done.
  - rewrite TransportProps.do_loop_step.
    destruct (ctx_before net i); [wire_done|].
    destruct (build tt) as [req0|e] eqn:Hbuild; [|wire_done].
    pose proof (TransportProps.doOnce_events net c i (stamped c req0)) as Hev.
    assert (Hone : forall req, In req (dispatched (EvBuild :: snd (doOnce net c i (stamped c req0)))) ->
                   exists r0 : Request, inl req0 = inl r0 :> Request + error /\ req = stamped c r0).
    { intros req Hin. destruct Hev as [Hev | [Hev | Hev]]; rewrite Hev in Hin;
        simpl in Hin; try contradiction;
        destruct Hin as [<-|[]]; exists req0; auto. }
    destruct (doOnce net c i (stamped c req0)) as [[resp|err] ev]; simpl snd in Hev, Hone.
    { cbn [fst snd]. split; [exact Hone|].
      destruct Hev as [-> | [-> | ->]]; wire_done. }
    destruct (ctx_after net i).
    { cbn [fst snd]. split; [exact Hone|].
      destruct Hev as [-> | [-> | ->]]; wire_done. }
    destruct rest as [|rest'].
    { cbn [fst snd]. split; [exact Hone|].
      destruct Hev as [-> | [-> | ->]]; wire_done. }
    destruct (wait net i).
    { cbn [fst snd].
      split; [intros req Hin; apply Hone;
              change (EvBuild :: ev ++ [EvSleep retryDelay])
                with ((EvBuild :: ev) ++ [EvSleep retryDelay]) in Hin;
              rewrite dispatched_app in Hin; simpl in Hin;
              rewrite app_nil_r in Hin; exact Hin|].
      destruct Hev as [-> | [-> | ->]]; unfold builds; wire_done. }
    specialize (IH (S i) (Some err)). cbn zeta in IH.
    destruct IH as [Hreq [Hd [Hlen [Hlb Hresp]]]].
    remember (snd (do_loop net c build (S rest') (S i) (Some err) [])) as t' eqn:Et.
    remember (fst (do_loop net c build (S rest') (S i) (Some err) [])) as r' eqn:Er.
    clear Et Er. cbn [fst snd].
    assert (Hb : builds (EvBuild :: ev ++ EvSleep retryDelay :: t') = S (builds t')).
    { destruct Hev as [-> | [-> | ->]]; reflexivity. }
    assert (Hdl : delays (EvBuild :: ev ++ EvSleep retryDelay :: t')
                  = retryDelay :: delays t').
    { destruct Hev as [-> | [-> | ->]]; reflexivity. }
    rewrite Hb, Hdl. simpl List.length.
    split; [|split; [constructor; [reflexivity | exact Hd]|]].
    + intros req Hin.
      change (EvBuild :: ev ++ EvSleep retryDelay :: t')
        with ((EvBuild :: ev) ++ EvSleep retryDelay :: t') in Hin.
      rewrite dispatched_app in Hin. apply in_app_or in Hin.
      destruct Hin as [Hin|Hin]; [apply Hone; exact Hin | apply Hreq; exact Hin].
    + split; [lia|]. split; [lia|]. intros resp Hr. rewrite (Hresp resp Hr). reflexivity.
Qed.

(** X8.  Every request that [do] hands to the HTTP client is the
    request its builder returned with the User-Agent header set to the
    client's identification: method, URL and body are the builder's,
    User-Agent has the single value [userAgent c], and the values of
    every other header are the builder's. *)
Theorem dispatched_requests_carry_user_agent net c build retries req :
  In req (dispatched (snd (do net c build retries))) ->
  exists req0,
    build tt = inl req0 /\
    Method req = Method req0 /\ URL req = URL req0 /\ ReqBody req = ReqBody req0 /\
    header_values "User-Agent" (Header req) = [userAgent c] /\
    forall k, k <> "User-Agent" ->
              header_values k (Header req) = header_values k (Header req0).
Proof.
  intros Hin. unfold do in Hin.
  destruct (do_loop_wire net c build (Z.to_nat (attempts_of retries)) 0 None)
    as [Hreq _].
  destruct (Hreq req Hin) as [req0 [Hb ->]].
  exists req0. split; [exact Hb|]. simpl.
  split; [reflexivity|]. split; [reflexivity|]. split; [reflexivity|].
  split; [apply header_set_values | intros k Hk; apply header_set_others; exact Hk].
Qed.

(** The request of a fetch on the answering network. *)
Lemma dispatched_requests_carry_user_agent_witness :
  exists req0,
    (fun _ : unit => inl (fetchRequest id_lib sample_client)
                     : Request + error) tt = inl req0 /\
    Method (stamped sample_client (fetchRequest id_lib sample_client)) = Method req0 /\
    URL (stamped sample_client (fetchRequest id_lib sample_client)) = URL req0 /\
    ReqBody (stamped sample_client (fetchRequest id_lib sample_client)) = ReqBody req0 /\
    header_values "User-Agent"
                  (Header (stamped sample_client (fetchRequest id_lib sample_client)))
    = [userAgent sample_client] /\
    forall k, k <> "User-Agent" ->
              header_values k (Header (stamped sample_client
                                               (fetchRequest id_lib sample_client)))
              = header_values k (Header req0).
Proof.
  apply (dispatched_requests_carry_user_agent
           (answering (mkResponse 200 "{}")) sample_client
           (fun _ => inl (fetchRequest id_lib sample_client)) defaultRequestAttempts).
  left. reflexivity.
Defined.

Lemma total_delay_fixed l :
  Forall (fun d => d = retryDelay) l ->
  fold_right Z.add 0 l = retryDelay * Z.of_nat (List.length l).
Proof.
  induction 1 as [|d l Hd _ IH]; simpl fold_right; simpl List.length; [lia|].
  rewrite IH, Hd. lia.
Qed.

(** X9.  The time [do] spends waiting between attempts is bounded by
    its ceiling: every retry timer runs for [retryDelay], there is at
    most one timer fewer than the ceiling allows attempts, so the
    timers add up to at most (ceiling - 1) times 5 seconds (5 seconds
    for the default ceiling of 2); and a call that ends with a response
    started exactly one timer per failed attempt before it. *)
Theorem retry_delay_is_bounded net c build retries :
  let n := Z.to_nat (attempts_of retries) in
  let r := fst (do net c build retries) in
  let tr := snd (do net c build retries) in
  Forall (fun d => d = retryDelay) (delays tr) /\
  (List.length (delays tr) <= n - 1)%nat /\
  total_delay tr = retryDelay * Z.of_nat (List.length (delays tr)) /\
  total_delay tr <= (attempts_of retries - 1) * (5 * Time.Second) /\
  (forall resp, r = inl resp -> S (List.length (delays tr)) = builds tr).
Proof.
  cbn zeta. unfold do.
  destruct (do_loop_wire net c build (Z.to_nat (attempts_of retries)) 0 None)
    as [_ [Hd [Hlen [_ Hresp]]]].
  pose proof (TransportProps.attempts_positive retries) as Hn.
  split; [exact Hd|]. split; [exact Hlen|].
  unfold total_delay. rewrite (total_delay_fixed _ Hd).
  split; [reflexivity|]. split; [|exact Hresp].
  change (5 * Time.Second) with retryDelay.
  assert (Hpos : 0 < retryDelay) by reflexivity.
  assert (Hle : Z.of_nat (List.length (delays (snd (do_loop net c build
                    (Z.to_nat (attempts_of retries)) 0 None []))))
                <= attempts_of retries - 1).
  { assert (0 < attempts_of retries)
      by (unfold attempts_of; destruct (retries <=? 0) eqn:E; lia).
    lia. }
  nia.
Qed.

Lemma ensureSend_None lib c :
  ensureSendCredentials lib c = None -> send_credentials_set lib c.
Proof.
  unfold ensureSendCredentials, send_credentials_set.
  destruct (String.eqb (TrimSpace lib (AppToken c)) "") eqn:E1; [discriminate|].
  destruct (String.eqb (TrimSpace lib (UserKey c)) "") eqn:E2; [discriminate|].
  intros _. apply String.eqb_neq in E1, E2. auto.
Qed.

Lemma ensureReceive_None lib c :
  ensureReceiveCredentials lib c = None -> receive_credentials_set lib c.
Proof.
  unfold ensureReceiveCredentials, receive_credentials_set.
  destruct (ensureSendCredentials lib c) eqn:Es; [discriminate|].
  destruct (ensureSend_None lib c Es) as [H1 H2].
  destruct (String.eqb (TrimSpace lib (DeviceID c)) "") eqn:E3; [discriminate|].
  destruct (String.eqb (TrimSpace lib (DeviceSecret c)) "") eqn:E4; [discriminate|].
  intros _. apply String.eqb_neq in E3, E4. auto.
Qed.

(** X10.  No operation of the client touches the network before its
    preconditions hold.  Whenever the trace of an operation is not empty
    (a request was built, a slot taken, an exchange made or a timer
    started): for Send the app token, the user key and the message are
    not blank; for FetchMessages all four credentials are set; for
    DeleteMessages they are set and the identity is positive; for Login
    neither email nor password is empty; for RegisterDevice neither the
    secret nor the name is empty. *)
Theorem network_only_after_preconditions lib net c :
  (forall params, snd (Send lib net c params) <> [] ->
     send_credentials_set lib c /\ TrimSpace lib (spMessage params) <> "") /\
  (snd (FetchMessages lib net c) <> [] -> receive_credentials_set lib c) /\
  (forall upToID, snd (DeleteMessages lib net c upToID) <> [] ->
     receive_credentials_set lib c /\ 0 < upToID) /\
  (forall email password code, snd (Login lib net c email password code) <> [] ->
     email <> "" /\ password <> "") /\
  (forall secret name, snd (RegisterDevice lib net c secret name) <> [] ->
     secret <> "" /\ name <> "").
Proof.
  split; [|split; [|split; [|split]]].
  - intros params. unfold Send.
    destruct (ensureSendCredentials lib c) eqn:E; [intros H; contradiction|].
    destruct (String.eqb (TrimSpace lib (spMessage params)) "") eqn:Em;
      [intros H; contradiction|].
    intros _. split; [apply ensureSend_None; exact E | apply String.eqb_neq; exact Em].
  - unfold FetchMessages.
    destruct (ensureReceiveCredentials lib c) eqn:E; [intros H; contradiction|].
    intros _. apply ensureReceive_None. exact E.
  - intros upToID. unfold DeleteMessages.
    destruct (ensureReceiveCredentials lib c) eqn:E; [intros H; contradiction|].
    destruct (upToID <=? 0) eqn:Ei; [intros H; contradiction|].
    intros _. split; [apply ensureReceive_None; exact E | lia].
  - intros email password code. unfold Login.
    destruct (String.eqb email "") eqn:E1; [intros H; contradiction|].
    destruct (String.eqb password "") eqn:E2; [intros H; contradiction|].
    intros _. apply String.eqb_neq in E1, E2. auto.
  - intros secret name. unfold RegisterDevice.
    destruct (String.eqb secret "") eqn:E1; [intros H; contradiction|].
    destruct (String.eqb name "") eqn:E2; [intros H; contradiction|].
    intros _. apply String.eqb_neq in E1, E2. auto.
Qed.

(** One timeout, then an answer: two builds, one timer. *)
Lemma retry_delay_is_bounded_witness :
  S (List.length (delays (snd (do (flaky (mkResponse 200 "{}")) sample_client
                                  (fun _ => inl sample_request) defaultRequestAttempts))))
  = builds (snd (do (flaky (mkResponse 200 "{}")) sample_client
                    (fun _ => inl sample_request) defaultRequestAttempts)).
Proof.
  destruct (retry_delay_is_bounded (flaky (mkResponse 200 "{}")) sample_client
              (fun _ => inl sample_request) defaultRequestAttempts)
    as (_ & _ & _ & _ & H).
  apply (H (mkResponse 200 "{}")). reflexivity.
Defined.

(** An acknowledgment that reached the network had a positive
    identity. *)
Lemma network_only_after_preconditions_witness :
  receive_credentials_set id_lib sample_client /\ 0 < 105.
Proof.
  destruct (network_only_after_preconditions id_lib (answering (mkResponse 200 "{}"))
              sample_client) as (_ & _ & H & _).
  apply (H 105). discriminate.
Defined.

(** X11.  An operation of the client reports success only for a
    response with a status below 400 that answered its last exchange:
    Send, Login and RegisterDevice then return what the body decodes to
    (for Login with a secret that is not empty), FetchMessages returns
    the messages, cursor and request id of the decoded body, and
    DeleteMessages returns no error. *)
Theorem success_needs_status_below_400 lib net c :
  (forall params payload tr,
     Send lib net c params = (inl payload, tr) ->
     exists resp i,
       answered_at net c (fun _ => inl (sendRequest lib c params)) resp tr i /\
       StatusCode resp < 400 /\ decodeSend lib (Body resp) = inl payload) /\
  (forall email password code payload tr,
     Login lib net c email password code = (inl payload, tr) ->
     exists resp i,
       answered_at net c (fun _ => inl (loginRequest lib email password code)) resp tr i /\
       StatusCode resp < 400 /\ decodeLogin lib (Body resp) = inl payload /\
       lSecret payload <> "") /\
  (forall secret name registration tr,
     RegisterDevice lib net c secret name = (inl registration, tr) ->
     exists resp i,
       answered_at net c (fun _ => inl (deviceRequest lib secret name)) resp tr i /\
       StatusCode resp < 400 /\ decodeDevice lib (Body resp) = inl registration) /\
  (forall result tr,
     FetchMessages lib net c = (inl result, tr) ->
     exists resp i payload,
       answered_at net c (fun _ => inl (fetchRequest lib c)) resp tr i /\
       StatusCode resp < 400 /\ decodeFetch lib (Body resp) = inl payload /\
       result = mkFetchResult (fMessages payload) (fLast payload) (fRequest payload)) /\
  (forall upToID tr,
     DeleteMessages lib net c upToID = (None, tr) ->
     exists resp i,
       answered_at net c (fun _ => inl (deleteRequest lib c upToID)) resp tr i /\
       StatusCode resp < 400).
Proof.
  split; [|split; [|split; [|split]]].
  - intros params payload tr. unfold Send.
    destruct (ensureSendCredentials lib c); [discriminate|].
    destruct (String.eqb (TrimSpace lib (spMessage params)) ""); [discriminate|].
    destruct (do net c _ defaultRequestAttempts) as [[resp|e] tr0] eqn:Hdo; [|discriminate].
    destruct (400 <=? StatusCode resp) eqn:Hst; [discriminate|].
    destruct (decodeSend lib (Body resp)) as [p|e] eqn:Hdec; [|discriminate].
    intros H. inversion H; subst.
    destruct (TransportProps.do_response _ _ _ _ _ _ Hdo) as [i Hi].
    exists resp, i. split; [exact Hi|]. split; [lia | exact Hdec].
  - intros email password code payload tr. unfold Login.
    destruct (String.eqb email "" || String.eqb password ""); [discriminate|].
    destruct (do net c _ defaultRequestAttempts) as [[resp|e] tr0] eqn:Hdo; [|discriminate].
    destruct (400 <=? StatusCode resp) eqn:Hst; [discriminate|].
    destruct (decodeLogin lib (Body resp)) as [p|e] eqn:Hdec; [|discriminate].
    destruct (String.eqb (lSecret p) "") eqn:Hsec; [discriminate|].
    intros H. inversion H; subst.
    destruct (TransportProps.do_response _ _ _ _ _ _ Hdo) as [i Hi].
    exists resp, i. split; [exact Hi|]. split; [lia|]. split; [exact Hdec|].
    apply String.eqb_neq. exact Hsec.
  - intros secret name registration tr. unfold RegisterDevice.
    destruct (String.eqb secret ""); [discriminate|].
    destruct (String.eqb name ""); [discriminate|].
    destruct (do net c _ defaultRequestAttempts) as [[resp|e] tr0] eqn:Hdo; [|discriminate].
    destruct (400 <=? StatusCode resp) eqn:Hst; [discriminate|].
    destruct (decodeDevice lib (Body resp)) as [p|e] eqn:Hdec; [|discriminate].
    intros H. inversion H; subst.
    destruct (TransportProps.do_response _ _ _ _ _ _ Hdo) as [i Hi].
    exists resp, i. split; [exact Hi|]. split; [lia | exact Hdec].
  - intros result tr. unfold FetchMessages.
    destruct (ensureReceiveCredentials lib c); [discriminate|].
    destruct (do net c _ defaultRequestAttempts) as [[resp|e] tr0] eqn:Hdo; [|discriminate].
    destruct (400 <=? StatusCode resp) eqn:Hst; [discriminate|].
    destruct (decodeFetch lib (Body resp)) as [p|e] eqn:Hdec; [|discriminate].
    intros H. inversion H; subst.
    destruct (TransportProps.do_response _ _ _ _ _ _ Hdo) as [i Hi].
    exists resp, i, p. split; [exact Hi|]. split; [lia|]. split; [exact Hdec | reflexivity].
  - intros upToID tr. unfold DeleteMessages.
    destruct (ensureReceiveCredentials lib c); [discriminate|].
    destruct (upToID <=? 0); [discriminate|].
    destruct (do net c _ defaultRequestAttempts) as [[resp|e] tr0] eqn:Hdo; [|discriminate].
    destruct (400 <=? StatusCode resp) eqn:Hst; [discriminate|].
    intros H. inversion H; subst.
    destruct (TransportProps.do_response _ _ _ _ _ _ Hdo) as [i Hi].
    exists resp, i. split; [exact Hi | lia].
Qed.

(** A login that succeeded on the answering network carries the
    secret of the body. *)
Lemma success_needs_status_below_400_witness :
  exists resp i,
    answered_at (answering (mkResponse 200 "{}")) sample_client
                (fun _ => inl (loginRequest id_lib "me@example.org" "pw" ""))
                resp
                (snd (Login id_lib (answering (mkResponse 200 "{}")) sample_client
                            "me@example.org" "pw" ""))
                i /\
    StatusCode resp < 400 /\
    decodeLogin id_lib (Body resp) = inl (mkLoginResponse 1 "" "secret" []) /\
    lSecret (mkLoginResponse 1 "" "secret" []) <> "".
Proof.
  destruct (success_needs_status_below_400 id_lib (answering (mkResponse 200 "{}"))
              sample_client) as (_ & H & _).
  apply (H "me@example.org" "pw" ""). reflexivity.
Defined.

End TransportMore.

(** ** More on the limiter *)

Module LimiterMore.

Import limiter LimiterSpec.

Lemma pc_eqb_eq a b : pc_eqb a b = true -> a = b.
Proof. destruct a, b; simpl; intros H; try reflexivity; discriminate. Qed.

Lemma count_positive q : forall l,
  (0 < count q l)%nat -> exists j, nth_error l j = Some q.
Proof.
  unfold count. induction l as [|x l IH]; simpl; intros H; [lia|].
  destruct (pc_eqb q x) eqn:E.
  - apply pc_eqb_eq in E. subst x. exists O. reflexivity.
  - destruct (IH H) as [j Hj]. exists (S j). exact Hj.
Qed.

(** X12.  The slots of the limiter do not leak.  In every state the
    callers of a client made by [NewClient] can reach, the channel
    holds exactly one element per caller that is inside [client.Do] or
    about to run its deferred receive.  So a caller waiting at the
    select either can take a slot at once, or some other caller holds
    one and can take its next step towards releasing it. *)
Theorem waiter_blocked_only_by_holders n s i :
  reachable n s ->
  nth_error (procs s) i = Some AtSelect ->
  buffered s = holds_slot s /\
  ((exists s', step s s' /\ nth_error (procs s') i = Some InDo) \/
   (exists j s', j <> i /\
                 (nth_error (procs s) j = Some InDo \/
                  nth_error (procs s) j = Some Deferred) /\
                 step s s' /\
                 (nth_error (procs s') j = Some Deferred \/
                  nth_error (procs s') j = Some Outside))).
Proof.
  intros Hr Hi. destruct (LimiterProps.reachable_inv n s Hr) as [Hcap [Hbuf Hle]].
  split; [exact Hbuf|].
  destruct (Nat.lt_ge_cases (buffered s) (cap s)) as [Hroom|Hfull].
  - left. eexists. split; [apply (step_send s i Hi Hroom)|].
    simpl. apply (LimiterProps.nth_error_set_nth _ _ _ _ Hi).
  - right. unfold holds_slot in Hbuf.
    assert (Hpos : (0 < count InDo (procs s) + count Deferred (procs s))%nat).
    { rewrite Hcap in Hfull. unfold pushover.maxConcurrentRequests in Hfull. lia. }
    destruct (Nat.eq_dec (count InDo (procs s)) 0) as [Hz|Hnz].
    + assert (Hd : (0 < count Deferred (procs s))%nat) by lia.
      destruct (count_positive _ _ Hd) as [j Hj].
      exists j. eexists. split; [intros ->; congruence|].
      split; [right; exact Hj|]. split; [apply (step_release s j Hj)|].
      right. simpl. apply (LimiterProps.nth_error_set_nth _ _ _ _ Hj).
    + assert (Hd : (0 < count InDo (procs s))%nat) by lia.
      destruct (count_positive _ _ Hd) as [j Hj].
      exists j. eexists. split; [intros ->; congruence|].
      split; [left; exact Hj|]. split; [apply (step_do_returns s j Hj)|].
      left. simpl. apply (LimiterProps.nth_error_set_nth _ _ _ _ Hj).
Qed.

(** Two callers in flight and one waiting: the channel holds 2, and
    the waiter is held up by a caller in flight. *)
Lemma waiter_blocked_only_by_holders_witness :
  buffered two_busy_one_waiting = holds_slot two_busy_one_waiting.
Proof.
  apply (waiter_blocked_only_by_holders 3 two_busy_one_waiting 2).
  - apply (reach_step 3 (mkState 2 1 [InDo; AtSelect; AtSelect]));
      [|apply (step_send (mkState 2 1 [InDo; AtSelect; AtSelect]) 1); simpl;
        [reflexivity | lia]].
    apply (reach_step 3 (mkState 2 0 [AtSelect; AtSelect; AtSelect]));
      [|apply (step_send (mkState 2 0 [AtSelect; AtSelect; AtSelect]) 0); simpl;
        [reflexivity | lia]].
    apply (reach_step 3 (mkState 2 0 [AtSelect; AtSelect; Outside]));
      [|apply (step_call (mkState 2 0 [AtSelect; AtSelect; Outside]) 2); reflexivity].
    apply (reach_step 3 (mkState 2 0 [AtSelect; Outside; Outside]));
      [|apply (step_call (mkState 2 0 [AtSelect; Outside; Outside]) 1); reflexivity].
    apply (reach_step 3 (mkState 2 0 [Outside; Outside; Outside]));
      [|apply (step_call (mkState 2 0 [Outside; Outside; Outside]) 0); reflexivity].
    apply reach_init.
  - reflexivity.
Defined.

End LimiterMore.

(** ** More on the ingestion cycle *)

Module PipelineMore.

Import pushover PipelineSpec CycleSpec.

(** Three messages fetched, the third insert failing: the handler
    still answers, with the error of the store as its warning. *)
Lemma persist_failure_is_a_warning_witness :
  exists out calls,
    mcp.handleCheckMessages (serving three_messages 0 (DbSpec.exec_fails_at 2))
                            sample_config (db.Handle DbSpec.empty_db)
                            (mcp.mkCheckMessagesInput None)
    = (inl out,
       snd (messages.PersistReceived
              (clock (serving three_messages 0 (DbSpec.exec_fails_at 2)))
              (DbSpec.exec_fails_at 2) (db.Handle DbSpec.empty_db) three_messages),
       calls) /\
    mcp.Warning out = "insert message: disk I/O error" /\
    mcp.Warning out <> "".
Proof.
  destruct (PipelineProps.persist_failure_is_a_warning
              (serving three_messages 0 (DbSpec.exec_fails_at 2)) sample_config
              (db.Handle DbSpec.empty_db) (mcp.mkCheckMessagesInput None)
              (mkFetchResult three_messages 0 "req")
              (snd (FetchMessages (lib (serving three_messages 0 (DbSpec.exec_fails_at 2)))
                                  (net_fetch (serving three_messages 0
                                                      (DbSpec.exec_fails_at 2)))
                                  (newClient (serving three_messages 0
                                                      (DbSpec.exec_fails_at 2))
                                             sample_config)))
              2 (wrapError "insert message: " (errorString "disk I/O error"))
              (snd (messages.PersistReceived
                      (clock (serving three_messages 0 (DbSpec.exec_fails_at 2)))
                      (DbSpec.exec_fails_at 2) (db.Handle DbSpec.empty_db) three_messages))
              eq_refl eq_refl eq_refl)
    as [out [calls [Hres [_ [_ [_ [Hw [Hne _]]]]]]]].
  exists out, calls. split; [exact Hres|]. split; [exact Hw | exact Hne].
Defined.

(** X14.  A failed acknowledgment does not fail the cycle either.
    When the fetch succeeded, the cursor is positive and DeleteMessages
    returns an error, the handler still returns its output: the
    messages are counted, the count and the warning of the persistence
    step are reported as that step returned them, the error of the
    acknowledgment is the acknowledgment warning, and the output still
    names the cursor.  The command line front end likewise returns no
    error, writes the warning to the error stream and prints the
    messages. *)
Theorem ack_failure_is_a_warning w cfg store input r ev n pe store' err eva :
  config.ValidateReceive cfg = None ->
  FetchMessages (lib w) (net_fetch w) (newClient w cfg) = (inl r, ev) ->
  messages.PersistReceived (clock w) (drv w) store (Messages r) = (n, pe, store') ->
  0 < mcp.determineAckID (Some r) ->
  DeleteMessages (lib w) (net_ack w) (newClient w cfg) (mcp.determineAckID (Some r))
  = (Some err, eva) ->
  (exists out,
     mcp.handleCheckMessages w cfg store input
     = (inl out, store',
        [CallFetchMessages ev; CallDeleteMessages (mcp.determineAckID (Some r)) eva]) /\
     mcp.AckWarning out = Error err /\
     mcp.AckedUpTo out = mcp.determineAckID (Some r) /\
     mcp.Persisted out = n /\
     mcp.Warning out = match pe with Some e => Error e | None => "" end /\
     mcp.Count out = Z.of_nat (List.length (Messages r)) /\
     mcp.OutMessages out = truncate (mcp.OutLimit out) (Messages r)) /\
  (forall limit,
     let run := cli.runMessages w (inl cfg) (inl store) limit in
     cli.run_err run = None /\
     In ("warning: unable to ack messages: " ++ Error err)%string (cli.stderr run) /\
     cli.printed run = truncate (if limit <=? 0 then 10 else limit) (Messages r) /\
     cli.store_after run = Some store').
Proof.
  intros Hcfg Hfetch Hpersist Hpos Hack. apply Z.ltb_lt in Hpos. split.
  - unfold mcp.handleCheckMessages. rewrite Hcfg, Hfetch, Hpersist, Hpos, Hack.
    eexists. split; [reflexivity|]. simpl. repeat split; reflexivity.
  - intros limit. cbn zeta. unfold cli.runMessages. rewrite Hcfg, Hfetch, Hpersist.
    change (cli.highestMessageID (Some r) (Messages r))
      with (mcp.determineAckID (Some r)).
    rewrite Hpos, Hack. simpl.
    split; [reflexivity|]. split; [|split; reflexivity].
    apply in_or_app. right. left. reflexivity.
Qed.

(** The acknowledgment of 105 answered with status 500. *)
Lemma ack_failure_is_a_warning_witness :
  exists out,
    fst (fst (mcp.handleCheckMessages (rejecting_acks three_messages) sample_config
                                      (db.Handle DbSpec.empty_db)
                                      (mcp.mkCheckMessagesInput None)))
    = inl out /\
    mcp.AckWarning out = "pushover API error (status=500, request=)" /\
    mcp.AckedUpTo out = 105 /\ mcp.Persisted out = 3.
Proof.
  destruct (ack_failure_is_a_warning
              (rejecting_acks three_messages) sample_config (db.Handle DbSpec.empty_db)
              (mcp.mkCheckMessagesInput None)
              (mkFetchResult three_messages 0 "req")
              (snd (FetchMessages (lib (rejecting_acks three_messages))
                                  (net_fetch (rejecting_acks three_messages))
                                  (newClient (rejecting_acks three_messages)
                                             sample_config)))
              3 None
              (snd (messages.PersistReceived (clock (rejecting_acks three_messages))
                      DbSpec.no_faults (db.Handle DbSpec.empty_db) three_messages))
              (APIError 500 "" [])
              (snd (DeleteMessages (lib (rejecting_acks three_messages))
                                   (net_ack (rejecting_acks three_messages))
                                   (newClient (rejecting_acks three_messages) sample_config)
                                   105))
              eq_refl eq_refl eq_refl eq_refl eq_refl)
    as [[out [Hres [Hw [Hc [Hp _]]]]] _].
  exists out. rewrite Hres. repeat split; assumption.
Defined.

(** X15.  A cycle acknowledges only what it fetched.  Whatever the
    configuration, the network and the store do, [handleCheckMessages]
    and [runMessages] make at most one acknowledge call, and when they
    make it the configuration was valid, the fetch had succeeded, the
    target is the cursor of that fetch, it is positive, and the cycle
    does not fail.  A cycle that fails made no acknowledge call and, in
    the handler, left the store as it was. *)
Theorem acknowledges_only_what_was_fetched w cfg store input limit :
  let res := mcp.handleCheckMessages w cfg store input in
  let run := cli.runMessages w (inl cfg) (inl store) limit in
  let fetched := FetchMessages (lib w) (net_fetch w) (newClient w cfg) in
  (ack_targets (snd res) = [] \/
   exists r out,
     config.ValidateReceive cfg = None /\ fst fetched = inl r /\
     ack_targets (snd res) = [mcp.determineAckID (Some r)] /\
     0 < mcp.determineAckID (Some r) /\ fst (fst res) = inl out) /\
  (forall e, fst (fst res) = inr e -> snd (fst res) = store /\ ack_targets (snd res) = []) /\
  (ack_targets (cli.calls run) = [] \/
   exists r,
     config.ValidateReceive cfg = None /\ fst fetched = inl r /\
     ack_targets (cli.calls run) = [mcp.determineAckID (Some r)] /\
     0 < mcp.determineAckID (Some r) /\ cli.run_err run = None) /\
  (forall e, cli.run_err run = Some e ->
             cli.store_after run = None /\ ack_targets (cli.calls run) = []).
Proof.
  cbn zeta. unfold mcp.handleCheckMessages, cli.runMessages.
  destruct (config.ValidateReceive cfg) eqn:Hcfg.
  { simpl. repeat split; auto; intros; discriminate. }
  destruct (FetchMessages (lib w) (net_fetch w) (newClient w cfg)) as [[r|e0] ev] eqn:Hf.
  2:{ simpl. repeat split; auto; intros; discriminate. }
  destruct (messages.PersistReceived _ _ _ _) as [[n pe] st].
  change (cli.highestMessageID (Some r) (Messages r)) with (mcp.determineAckID (Some r)).
  destruct (0 <? mcp.determineAckID (Some r)) eqn:Hpos.
  - apply Z.ltb_lt in Hpos.
    destruct (DeleteMessages _ _ _ _) as [ea eva]. simpl.
    split; [right; exists r; eexists; repeat split; auto|].
    split; [intros; discriminate|].
    split; [right; exists r; repeat split; auto | intros; discriminate].
  - simpl. repeat split; auto; intros; discriminate.
Qed.

(** A fetch answered with status 500: the handler fails, the store
    is as before and nothing was acknowledged. *)
Lemma acknowledges_only_what_was_fetched_witness :
  snd (fst (mcp.handleCheckMessages rejecting_fetch sample_config
                                    (db.Handle DbSpec.empty_db)
                                    (mcp.mkCheckMessagesInput None)))
  = db.Handle DbSpec.empty_db /\
  ack_targets (snd (mcp.handleCheckMessages rejecting_fetch sample_config
                                            (db.Handle DbSpec.empty_db)
                                            (mcp.mkCheckMessagesInput None))) = [].
Proof.
  destruct (acknowledges_only_what_was_fetched rejecting_fetch sample_config
              (db.Handle DbSpec.empty_db) (mcp.mkCheckMessagesInput None) 10)
    as (_ & H & _).
  apply (H (APIError 500 "" [])). reflexivity.
Defined.

(** X16.  The limit of [handleCheckMessages] only shapes the answer.
    When the handler returns an output, the limit reported is the
    requested one, 10 when none or a non-positive one was given; the
    count is the number of fetched messages, the messages returned are
    the first [min(count, limit)] of them in the order fetched, and the
    persisted count, the persistence warning and the store afterwards
    are those of [PersistReceived] on all fetched messages, not only on
    the ones returned. *)
Theorem check_messages_limit_only_shapes_output w cfg store input out store' calls :
  mcp.handleCheckMessages w cfg store input = (inl out, store', calls) ->
  exists r,
    fst (FetchMessages (lib w) (net_fetch w) (newClient w cfg)) = inl r /\
    mcp.OutLimit out = check_limit input /\ 0 < mcp.OutLimit out /\
    mcp.Count out = Z.of_nat (List.length (Messages r)) /\
    mcp.Returned out = Z.min (mcp.Count out) (mcp.OutLimit out) /\
    mcp.OutMessages out = firstn (Z.to_nat (mcp.OutLimit out)) (Messages r) /\
    mcp.Returned out = Z.of_nat (List.length (mcp.OutMessages out)) /\
    messages.PersistReceived (clock w) (drv w) store (Messages r)
    = (mcp.Persisted out,
       snd (fst (messages.PersistReceived (clock w) (drv w) store (Messages r))),
       store') /\
    mcp.Warning out
    = match snd (fst (messages.PersistReceived (clock w) (drv w) store (Messages r))) with
      | Some e => Error e
      | None => ""
      end.
Proof.
  unfold mcp.handleCheckMessages.
  destruct (config.ValidateReceive cfg); [discriminate|].
  destruct (FetchMessages (lib w) (net_fetch w) (newClient w cfg)) as [[r|e0] ev];
    [|discriminate].
  destruct (messages.PersistReceived _ _ _ _) as [[n pe] st] eqn:Hp.
  fold (check_limit input).
  assert (Hlim : 0 < check_limit input).
  { unfold check_limit. destruct (mcp.Limit input) as [l|]; [|lia].
    destruct (0 <? l) eqn:E; [apply Z.ltb_lt in E; exact E | lia]. }
  assert (Htr : truncate (check_limit input) (Messages r)
                = firstn (Z.to_nat (check_limit input)) (Messages r)).
  { unfold truncate. destruct (check_limit input <? Z.of_nat (List.length (Messages r))) eqn:E;
      [reflexivity|]. apply Z.ltb_ge in E. symmetry. apply firstn_all2. lia. }
  assert (Hlen : Z.of_nat (List.length (truncate (check_limit input) (Messages r)))
                 = Z.min (Z.of_nat (List.length (Messages r))) (check_limit input)).
  { rewrite Htr, length_firstn. lia. }
  destruct (0 <? mcp.determineAckID (Some r));
    [destruct (DeleteMessages _ _ _ _) as [ea eva]|];
    intros H; inversion H; subst; clear H; exists r; rewrite Hp;
    cbn [fst snd mcp.OutLimit mcp.Count mcp.Returned mcp.OutMessages mcp.Persisted
         mcp.Warning];
    (split; [reflexivity|]); (split; [reflexivity|]); (split; [exact Hlim|]);
    (split; [reflexivity|]); (split; [exact Hlen|]); (split; [exact Htr|]);
    (split; [reflexivity|]); split; reflexivity.
Qed.

(** Limit 2 on the three sample messages. *)
Lemma check_messages_limit_only_shapes_output_witness :
  exists out,
    fst (fst (mcp.handleCheckMessages (serving three_messages 0 DbSpec.no_faults)
                                      sample_config (db.Handle DbSpec.empty_db)
                                      (mcp.mkCheckMessagesInput (Some 2)))) = inl out /\
    mcp.Count out = 3 /\ mcp.Returned out = 2 /\ mcp.Persisted out = 3.
Proof.
  eexists. split; [reflexivity|].
  destruct (check_messages_limit_only_shapes_output
              (serving three_messages 0 DbSpec.no_faults) sample_config
              (db.Handle DbSpec.empty_db) (mcp.mkCheckMessagesInput (Some 2))
              _ _ _ eq_refl)
    as [r [Hf [Hl [_ [Hc [Hr [_ [_ [Hp _]]]]]]]]].
  vm_compute in Hf. inversion Hf; subst r.
  split; [exact Hc|]. split; [rewrite Hr, Hc, Hl; reflexivity|].
  vm_compute in Hp. inversion Hp. reflexivity.
Defined.

End PipelineMore.

(** ** The tools and the commands *)

Module EntryProps.

Import db pushover TransportSpec WireSpec PipelineSpec EntrySpec.

Lemma ValidateSend_None cfg :
  config.ValidateSend cfg = None ->
  exists c, cfg = Some c /\ config.AppToken c <> "" /\ config.UserKey c <> "".
Proof.
  destruct cfg as [c|]; [|discriminate]. unfold config.ValidateSend.
  destruct (String.eqb (config.AppToken c) "") eqn:E1; [discriminate|].
  destruct (String.eqb (config.UserKey c) "") eqn:E2; [discriminate|].
  intros _. exists c. apply String.eqb_neq in E1, E2. auto.
Qed.

Lemma out_of_range_false p :
  (p <? -2) || (2 <? p) = false -> in_range p.
Proof.
  unfold in_range. intros H. apply Bool.orb_false_iff in H. lia.
Qed.

(** X17.  Both ways to send validate before they send.  The
    send_notification tool and [push send] call [Send] at most once,
    and only with a configuration that has an app token and a user key,
    a message that is not blank and a priority between -2 and 2 (for
    the tool the priority of the input or else the configured default).
    A send_notification that fails leaves the store as it was; a
    [push send] that fails has not opened the store and printed
    nothing. *)
Theorem send_is_validated_before_sending w net :
  (forall cfg store input r store' calls,
     mcp.handleSendNotification w net cfg store input = (r, store', calls) ->
     (List.length calls <= 1)%nat /\
     (calls <> [] ->
      exists c, cfg = Some c /\ config.AppToken c <> "" /\ config.UserKey c <> "" /\
                TrimSpace (lib w) (mcp.inMessage input) <> "" /\
                in_range (effective_priority c input)) /\
     (forall err, r = inr err -> store' = store)) /\
  (forall loaded opened args flags,
     let run := cli.runSend w net loaded opened args flags in
     (List.length (cli.send_calls run) <= 1)%nat /\
     (cli.send_calls run <> [] ->
      exists c, loaded = inl (Some c) /\
                config.AppToken c <> "" /\ config.UserKey c <> "" /\
                TrimSpace (lib w) (Join args " ") <> "" /\
                in_range (cli.flPriority flags)) /\
     (cli.send_err run <> None ->
      cli.send_store run = None /\ cli.send_stdout run = [])).
Proof.
  split.
  - intros cfg store input r store' calls. unfold mcp.handleSendNotification.
    destruct (config.ValidateSend cfg) eqn:Ev.
    { intros H; inversion H; subst. simpl. split; [lia|]. split; [congruence|]. auto. }
    destruct (ValidateSend_None cfg Ev) as (c & -> & Ht & Hu).
    destruct (String.eqb (TrimSpace (lib w) (mcp.inMessage input)) "") eqn:Em.
    { intros H; inversion H; subst. simpl. split; [lia|]. split; [congruence|]. auto. }
    fold (effective_priority c input).
    destruct ((effective_priority c input <? -2) || (2 <? effective_priority c input)) eqn:Ep.
    { intros H; inversion H; subst. simpl. split; [lia|]. split; [congruence|]. auto. }
    apply String.eqb_neq in Em. apply out_of_range_false in Ep.
    destruct (Send _ _ _ _) as [[resp|e] ev].
    + destruct (LogSent _ _ _) as [le st].
      intros H; inversion H; subst. simpl. split; [lia|].
      split; [intros _; exists c; auto|]. intros err Herr.
      destruct le; discriminate.
    + intros H; inversion H; subst. simpl. split; [lia|].
      split; [intros _; exists c; auto|]. auto.
  - intros loaded opened args flags. cbn zeta. unfold cli.runSend.
    destruct loaded as [cfg|e]; [|simpl; split; [lia|]; split; [congruence|]; auto].
    destruct (config.ValidateSend cfg) eqn:Ev;
      [simpl; split; [lia|]; split; [congruence|]; auto|].
    destruct (ValidateSend_None cfg Ev) as (c & -> & Ht & Hu).
    destruct (String.eqb (TrimSpace (lib w) (Join args " ")) "") eqn:Em;
      [simpl; split; [lia|]; split; [congruence|]; auto|].
    destruct ((cli.flPriority flags <? -2) || (2 <? cli.flPriority flags)) eqn:Ep;
      [simpl; split; [lia|]; split; [congruence|]; auto|].
    apply String.eqb_neq in Em. apply out_of_range_false in Ep.
    destruct (Send _ _ _ _) as [[resp|e] ev].
    + destruct (cli.logSentMessage _ _ _ _ _ _ _) as [le st]. simpl.
      split; [lia|]. split; [intros _; exists c; auto|]. congruence.
    + simpl. split; [lia|]. split; [intros _; exists c; auto|]. auto.
Qed.

(** The sample notification is sent with the configured default
    priority, which is in range. *)
Lemma send_is_validated_before_sending_witness :
  in_range (effective_priority config_with_defaults sample_input).
Proof.
  destruct (send_is_validated_before_sending (push_service DbSpec.no_faults) ok_net)
    as [H _].
  pose proof (H (Some config_with_defaults) (Handle DbSpec.empty_db) sample_input) as H1.
  remember (mcp.handleSendNotification (push_service DbSpec.no_faults) ok_net
              (Some config_with_defaults) (Handle DbSpec.empty_db) sample_input)
    as res eqn:E.
  vm_compute in E. subst res.
  destruct (H1 _ _ _ eq_refl) as (_ & Hc & _).
  destruct Hc as (c & Hc & _ & _ & _ & Hr); [discriminate|].
  inversion Hc; subst. exact Hr.
Defined.

(** What [LogSent] does to the two tables of any store. *)
Lemma LogSent_rows drv store rec e store' :
  LogSent drv store rec = (e, store') ->
  message_rows store' = message_rows store /\
  match e with
  | None =>
      sent_rows store' =
      sent_rows store ++ [StoreSpec.sent_row_of drv (next_sent_id (sent_rows store)) rec]
  | Some _ => sent_rows store' = sent_rows store
  end.
Proof.
  unfold LogSent. destruct store as [| |d].
  - intros H; inversion H; subst. auto.
  - intros H; inversion H; subst. auto.
  - destruct (if closed d then Some errDBClosed else sent_err drv);
      intros H; inversion H; subst; simpl; auto.
Qed.

(** X18.  What the send_notification tool reports is what it sent and
    logged.  When it returns an output, [Send] was called once, with
    the message, title, URL and sound of the input, the device of the
    input or else the configured default device, and the priority of
    the input or else the configured default priority; the output
    carries these values and the request identity and receipt of the
    response.  The table of received messages is untouched.  [logged]
    is true exactly when one row with these values and that request
    identity was appended to the table of sent notifications, and then
    there is no warning; otherwise the table is unchanged and the
    warning is not empty. *)
Theorem send_notification_logs_what_was_sent w net cfg store input out store' calls :
  mcp.handleSendNotification w net cfg store input = (inl out, store', calls) ->
  exists c resp ev,
    cfg = Some c /\
    calls = [mcp.CallSend (tool_params c input) ev] /\
    Send (lib w) net (newClient w cfg) (tool_params c input) = (inl resp, ev) /\
    mcp.snMessage out = mcp.inMessage input /\
    mcp.snTitle out = mcp.inTitle input /\
    mcp.snDevice out = effective_device c input /\
    mcp.snPriority out = effective_priority c input /\
    mcp.snRequestID out = sRequest resp /\
    mcp.snReceipt out = sReceipt resp /\
    message_rows store' = message_rows store /\
    if mcp.snLogged out
    then mcp.snWarning out = "" /\
         sent_rows store' =
         sent_rows store
         ++ [logged_row w (sent_rows store) (tool_params c input) (sRequest resp)]
    else mcp.snWarning out <> "" /\ sent_rows store' = sent_rows store.
Proof.
  unfold mcp.handleSendNotification.
  destruct (config.ValidateSend cfg) eqn:Ev; [discriminate|].
  destruct (ValidateSend_None cfg Ev) as (c & -> & _ & _).
  destruct (String.eqb (TrimSpace (lib w) (mcp.inMessage input)) ""); [discriminate|].
  fold (effective_priority c input). fold (effective_device c input).
  destruct ((effective_priority c input <? -2) || (2 <? effective_priority c input));
    [discriminate|].
  fold (tool_params c input).
  destruct (Send _ _ _ _) as [[resp|e] ev] eqn:Hsend; [|discriminate].
  destruct (LogSent _ _ _) as [le st] eqn:Hlog.
  apply LogSent_rows in Hlog. destruct Hlog as [Hm Hs].
  intros H. exists c, resp, ev.
  split; [reflexivity|].
  destruct le as [err|]; inversion H; subst; clear H;
    cbn [mcp.snMessage mcp.snTitle mcp.snDevice mcp.snPriority mcp.snRequestID
         mcp.snReceipt mcp.snLogged mcp.snWarning];
    (split; [reflexivity|]); (split; [exact Hsend|]);
    (split; [reflexivity|]); (split; [reflexivity|]); (split; [reflexivity|]);
    (split; [reflexivity|]); (split; [reflexivity|]); (split; [reflexivity|]);
    (split; [exact Hm|]).
  - split; [discriminate | exact Hs].
  - split; [reflexivity | exact Hs].
Qed.

(** The sample notification names neither priority nor device: it is
    sent and logged to device [phone] with priority 1. *)
Lemma send_notification_logs_what_was_sent_witness :
  exists row,
    sent_rows (snd (fst (mcp.handleSendNotification
                           (push_service DbSpec.no_faults) ok_net
                           (Some config_with_defaults) (Handle DbSpec.empty_db)
                           sample_input))) = [row] /\
    sent_device row = "phone" /\ sent_priority row = 1 /\
    sent_request_id row = "req-7".
Proof.
  remember (mcp.handleSendNotification (push_service DbSpec.no_faults) ok_net
              (Some config_with_defaults) (Handle DbSpec.empty_db) sample_input)
    as res eqn:E.
  destruct res as [[[out|err] st] calls]; [|vm_compute in E; discriminate].
  symmetry in E.
  destruct (send_notification_logs_what_was_sent _ _ _ _ _ _ _ _ E)
    as (c & resp & ev & Hc & _ & Hsend & _ & _ & _ & _ & _ & _ & _ & Hl).
  inversion Hc; subst c. clear Hc.
  assert (Hlogged : mcp.snLogged out = true) by (vm_compute in E; inversion E; reflexivity).
  rewrite Hlogged in Hl. destruct Hl as [_ Hl].
  vm_compute in Hsend. inversion Hsend; subst resp ev. clear Hsend.
  eexists. split; [exact Hl|]. vm_compute. auto.
Defined.

(** X19.  [push send] never fails because of the history.  When it
    returns nil, [Send] was called once with the trimmed message and
    the flags and succeeded, and the request identity (and the receipt,
    if any) was printed; the history then either gained exactly one row
    with the values sent, without a warning, or is unchanged (the store
    could not be opened, or the INSERT failed) with exactly one warning
    line on the error stream.  When it returns an error, nothing was
    printed or logged, and the error is one of validation or the one
    [Send] returned. *)
Theorem cli_send_succeeds_even_if_logging_fails w net loaded opened args flags :
  let run := cli.runSend w net loaded opened args flags in
  let params := cli_params (lib w) args flags in
  (cli.send_err run = None ->
   exists cfg resp ev,
     loaded = inl cfg /\
     cli.send_calls run = [mcp.CallSend params ev] /\
     Send (lib w) net (newClient w cfg) params = (inl resp, ev) /\
     cli.send_stdout run = send_lines resp /\
     match opened with
     | inr e =>
         cli.send_store run = None /\
         cli.send_stderr run = [("warning: unable to log sent message: " ++ Error e)%string]
     | inl store =>
         exists store',
           cli.send_store run = Some store' /\
           message_rows store' = message_rows store /\
           ((cli.send_stderr run = [] /\
             sent_rows store' =
             sent_rows store ++ [logged_row w (sent_rows store) params (sRequest resp)]) \/
            (exists e, cli.send_stderr run
                       = [("warning: unable to log sent message: " ++ Error e)%string] /\
                       sent_rows store' = sent_rows store))
     end) /\
  (forall err, cli.send_err run = Some err ->
     cli.send_stdout run = [] /\ cli.send_stderr run = [] /\ cli.send_store run = None /\
     (cli.send_calls run = [] \/
      exists cfg ev, loaded = inl cfg /\ cli.send_calls run = [mcp.CallSend params ev] /\
                     Send (lib w) net (newClient w cfg) params = (inr err, ev))).
Proof.
  cbn zeta. unfold cli.runSend.
  destruct loaded as [cfg|e0]; [|simpl; split; [discriminate | auto]].
  destruct (config.ValidateSend cfg); [simpl; split; [discriminate | auto]|].
  fold (cli_params (lib w) args flags).
  destruct (String.eqb (TrimSpace (lib w) (Join args " ")) "");
    [simpl; split; [discriminate | auto]|].
  destruct ((cli.flPriority flags <? -2) || (2 <? cli.flPriority flags));
    [simpl; split; [discriminate | auto]|].
  change (mkSendParams (TrimSpace (lib w) (Join args " ")) (cli.flTitle flags)
                       (cli.flDevice flags) (cli.flPriority flags) (cli.flURL flags)
                       (cli.flURLTitle flags) (cli.flSound flags) 0 false false)
    with (cli_params (lib w) args flags).
  destruct (Send _ _ _ _) as [[resp|e] ev] eqn:Hsend.
  - unfold cli.logSentMessage. destruct opened as [store|eo].
    + destruct (LogSent _ _ _) as [le st] eqn:Hlog.
      apply LogSent_rows in Hlog. destruct Hlog as [Hm Hs].
      simpl. split; [|discriminate]. intros _. exists cfg, resp, ev.
      split; [reflexivity|]. split; [reflexivity|]. split; [exact Hsend|].
      split; [reflexivity|]. exists st. split; [reflexivity|]. split; [exact Hm|].
      destruct le as [e|]; [right; exists e; auto | left; auto].
    + simpl. split; [|discriminate]. intros _. exists cfg, resp, ev. auto 10.
  - simpl. split; [discriminate|]. intros err H. inversion H; subst.
    split; [reflexivity|]. split; [reflexivity|]. split; [reflexivity|].
    right. exists cfg, ev. auto.
Qed.

(** The INSERT into the history fails: the notification is still
    reported as sent, with one warning. *)
Lemma cli_send_succeeds_even_if_logging_fails_witness :
  cli.send_stdout (cli.runSend (push_service sent_fails) ok_net
                               (inl (Some config_with_defaults))
                               (inl (Handle DbSpec.empty_db))
                               ["backup"; "done"] sample_flags)
  = [cli.LineSent "req-7"].
Proof.
  destruct (cli_send_succeeds_even_if_logging_fails
              (push_service sent_fails) ok_net (inl (Some config_with_defaults))
              (inl (Handle DbSpec.empty_db)) ["backup"; "done"] sample_flags)
    as [H _].
  destruct (H eq_refl) as (cfg & resp & ev & Hc & _ & Hsend & Hout & _).
  inversion Hc; subst cfg. clear Hc.
  rewrite Hout. vm_compute in Hsend. inversion Hsend. reflexivity.
Defined.

(** The transport uses of a client only its limiter and its
    identification. *)
Lemma do_loop_client net c1 c2 build :
  limiter c1 = limiter c2 -> userAgent c1 = userAgent c2 ->
  forall remaining i lastErr tr,
    do_loop net c1 build remaining i lastErr tr
    = do_loop net c2 build remaining i lastErr tr.
Proof.
  intros Hl Hu. induction remaining as [|rest IH]; intros i lastErr tr; [reflexivity|].
  simpl. rewrite Hu.
  destruct (ctx_before net i); [reflexivity|].
  destruct (build tt) as [req|e]; [|reflexivity].
  assert (Hd : forall r, doOnce net c1 i r = doOnce net c2 i r)
    by (intros r; unfold doOnce; rewrite Hl; reflexivity).
  rewrite Hd. destruct (doOnce net c2 i _) as [[resp|err] ev]; [reflexivity|].
  destruct (ctx_after net i); [reflexivity|].
  destruct rest as [|rest']; [reflexivity|].
  destruct (wait net i); [reflexivity|]. apply IH.
Qed.

(** [Send] uses of the client the app token, the user key, the limiter
    and the identification. *)
Lemma Send_client lib net c1 c2 params :
  AppToken c1 = AppToken c2 -> UserKey c1 = UserKey c2 ->
  limiter c1 = limiter c2 -> userAgent c1 = userAgent c2 ->
  Send lib net c1 params = Send lib net c2 params.
Proof.
  intros Ht Hk Hl Hu. unfold Send, ensureSendCredentials, sendRequest, send_values, do.
  rewrite Ht, Hk. rewrite (do_loop_client net c1 c2 _ Hl Hu). reflexivity.
Qed.

(** X20.  [push send] takes from the configuration the app token and
    the user key and nothing else: two configurations that agree on
    them give the same run, whatever their device credentials, default
    device and default priority.  (The send_notification tool falls
    back to the configured default device and priority, see X18;
    [push send] sends the flags as they are.) *)
Theorem cli_send_ignores_config_defaults w net c1 c2 opened args flags :
  config.AppToken c1 = config.AppToken c2 ->
  config.UserKey c1 = config.UserKey c2 ->
  cli.runSend w net (inl (Some c1)) opened args flags
  = cli.runSend w net (inl (Some c2)) opened args flags.
Proof.
  intros Ht Hk. unfold cli.runSend, config.ValidateSend. rewrite Ht, Hk.
  destruct (String.eqb (config.AppToken c2) ""); [reflexivity|].
  destruct (String.eqb (config.UserKey c2) ""); [reflexivity|].
  destruct (String.eqb (TrimSpace (lib w) (Join args " ")) ""); [reflexivity|].
  destruct ((cli.flPriority flags <? -2) || (2 <? cli.flPriority flags)); [reflexivity|].
  rewrite (Send_client (lib w) net (newClient w (Some c1)) (newClient w (Some c2)));
    [reflexivity | exact Ht | exact Hk | reflexivity | reflexivity].
Qed.

(** A configuration with default device [phone] and default priority 1
    and one without defaults and without device credentials. *)
Lemma cli_send_ignores_config_defaults_witness :
  cli.runSend (push_service DbSpec.no_faults) ok_net
              (inl (Some config_with_defaults)) (inl (Handle DbSpec.empty_db))
              ["backup"; "done"] sample_flags
  = cli.runSend (push_service DbSpec.no_faults) ok_net
                (inl (Some (config.mkConfig "app" "user" "" "" "" 0)))
                (inl (Handle DbSpec.empty_db)) ["backup"; "done"] sample_flags.
Proof.
  apply cli_send_ignores_config_defaults; reflexivity.
Defined.

(** What a call of [do] with a constant builder dispatches. *)
Lemma do_dispatches net c req0 retries req :
  In req (dispatched (snd (do net c (fun _ => inl req0) retries))) ->
  req = stamped c req0.
Proof.
  intros Hin. unfold do in Hin.
  destruct (TransportMore.do_loop_wire net c (fun _ => inl req0)
              (Z.to_nat (attempts_of retries)) 0 None) as [Hreq _].
  destruct (Hreq req Hin) as [r0 [Hb ->]]. inversion Hb. reflexivity.
Qed.

Lemma DeleteMessages_dispatches lib net c upToID req :
  In req (dispatched (snd (DeleteMessages lib net c upToID))) ->
  req = stamped c (deleteRequest lib c upToID).
Proof.
  unfold DeleteMessages.
  destruct (ensureReceiveCredentials lib c); [intros []|].
  destruct (upToID <=? 0); [intros []|].
  pose proof (do_dispatches net c (deleteRequest lib c upToID) defaultRequestAttempts req)
    as Hd.
  destruct (do net c _ defaultRequestAttempts) as [[resp|e] tr]; [|exact Hd].
  destruct (400 <=? StatusCode resp); exact Hd.
Qed.

Lemma FetchMessages_dispatches lib net c req :
  In req (dispatched (snd (FetchMessages lib net c))) ->
  req = stamped c (fetchRequest lib c).
Proof.
  unfold FetchMessages.
  destruct (ensureReceiveCredentials lib c); [intros []|].
  pose proof (do_dispatches net c (fetchRequest lib c) defaultRequestAttempts req) as Hd.
  destruct (do net c _ defaultRequestAttempts) as [[resp|e] tr]; [|exact Hd].
  destruct (400 <=? StatusCode resp); [exact Hd|].
  destruct (decodeFetch lib (Body resp)); exact Hd.
Qed.

Lemma DeleteMessages_accepted lib net c upToID tr :
  DeleteMessages lib net c upToID = (None, tr) ->
  exists resp i,
    answered_at net c (fun _ => inl (deleteRequest lib c upToID)) resp tr i /\
    StatusCode resp < 400.
Proof.
  unfold DeleteMessages.
  destruct (ensureReceiveCredentials lib c); [discriminate|].
  destruct (upToID <=? 0); [discriminate|].
  destruct (do net c _ defaultRequestAttempts) as [[resp|e] tr0] eqn:Hdo; [|discriminate].
  destruct (400 <=? StatusCode resp) eqn:Hst; [discriminate|].
  intros H. inversion H; subst.
  destruct (TransportProps.do_response _ _ _ _ _ _ Hdo) as [i Hi].
  exists resp, i. split; [exact Hi | lia].
Qed.

(** X21.  The mark_read tool acknowledges exactly the identity it was
    given.  It calls the client only with a configuration that passes
    [ValidateReceive] and a positive identity, and at most once; every
    request that reaches the network is the update_highest_message
    request for that identity; and it answers [acknowledged] only when
    the service answered such a request with a status below 400. *)
Theorem mark_read_acknowledges_exactly_the_id w cfg messageID r calls :
  mcp.handleMarkRead w cfg messageID = (r, calls) ->
  let client := newClient w cfg in
  let request := deleteRequest (lib w) client messageID in
  (calls <> [] -> config.ValidateReceive cfg = None /\ 0 < messageID) /\
  (forall upToID, In upToID (ack_targets calls) -> upToID = messageID) /\
  (List.length calls <= 1)%nat /\
  (forall req, In req (requests_of calls) -> req = stamped client request) /\
  (forall out, r = inl out ->
     out = mcp.mkMarkReadOutput messageID "acknowledged" /\
     exists ev resp i,
       calls = [CallDeleteMessages messageID ev] /\
       answered_at (net_ack w) client (fun _ => inl request) resp ev i /\
       StatusCode resp < 400).
Proof.
  unfold mcp.handleMarkRead. cbn zeta.
  destruct (config.ValidateReceive cfg) eqn:Ev.
  { intros H; inversion H; subst. simpl.
    split; [congruence|]. split; [intros ? []|]. split; [lia|].
    split; [intros ? []|]. intros out Ho; discriminate. }
  destruct (messageID <=? 0) eqn:Eid.
  { intros H; inversion H; subst. simpl.
    split; [congruence|]. split; [intros ? []|]. split; [lia|].
    split; [intros ? []|]. intros out Ho; discriminate. }
  pose proof (DeleteMessages_dispatches (lib w) (net_ack w) (newClient w cfg) messageID)
    as Hd.
  destruct (DeleteMessages _ _ _ _) as [err ev] eqn:Hdel. simpl snd in Hd.
  assert (Hcalls : forall req, In req (requests_of [CallDeleteMessages messageID ev]) ->
                    req = stamped (newClient w cfg)
                                  (deleteRequest (lib w) (newClient w cfg) messageID)).
  { intros req Hin. simpl in Hin. rewrite app_nil_r in Hin. apply Hd. exact Hin. }
  destruct err as [err|]; intros H; inversion H; subst; simpl ack_targets; simpl List.length.
  - split; [intros _; split; [reflexivity | lia]|].
    split; [intros ? [<-|[]]; reflexivity|]. split; [lia|].
    split; [exact Hcalls|]. intros out Ho; discriminate.
  - split; [intros _; split; [reflexivity | lia]|].
    split; [intros ? [<-|[]]; reflexivity|]. split; [lia|].
    split; [exact Hcalls|]. intros out Ho. inversion Ho; subst.
    split; [reflexivity|].
    destruct (DeleteMessages_accepted _ _ _ _ _ Hdel) as (resp & i & Ha & Hs).
    exists ev, resp, i. auto.
Qed.

(** Marking identity 105 as read on the sample service. *)
Lemma mark_read_acknowledges_exactly_the_id_witness :
  ack_targets (snd (mcp.handleMarkRead (push_service DbSpec.no_faults)
                                       (Some config_with_defaults) 105)) = [105].
Proof.
  remember (mcp.handleMarkRead (push_service DbSpec.no_faults)
                               (Some config_with_defaults) 105) as res eqn:E.
  destruct res as [[out|err] calls]; [|vm_compute in E; discriminate].
  symmetry in E.
  destruct (mark_read_acknowledges_exactly_the_id _ _ _ _ _ E)
    as (_ & _ & _ & _ & Hout).
  destruct (Hout out eq_refl) as (_ & ev & resp & i & -> & _). reflexivity.
Defined.

(** X22.  The unread resource only fetches.  Reading [push://unread]
    makes at most one call on the client, a fetch, and acknowledges
    nothing; every request that reaches the network is the GET of the
    messages of the configured device.  Its count is the number of
    messages in its data, and the check_messages tool, in the same
    situation, counts the same messages and returns the first of them
    up to its limit. *)
Theorem unread_resource_only_fetches w cfg r calls :
  mcp.readUnread w cfg = (r, calls) ->
  let client := newClient w cfg in
  ack_targets calls = [] /\
  (List.length calls <= 1)%nat /\
  (forall req, In req (requests_of calls) ->
     req = stamped client (fetchRequest (lib w) client) /\ Method req = "GET"%string) /\
  (forall payload, r = inl payload ->
     mcp.rCount payload = Z.of_nat (List.length (mcp.rData payload)) /\
     forall store input,
     exists out,
       fst (fst (mcp.handleCheckMessages w cfg store input)) = inl out /\
       mcp.Count out = mcp.rCount payload /\
       mcp.OutMessages out = truncate (CycleSpec.check_limit input) (mcp.rData payload)).
Proof.
  unfold mcp.readUnread. cbn zeta.
  destruct (config.ValidateReceive cfg) eqn:Ev.
  { intros H; inversion H; subst. simpl. split; [reflexivity|]. split; [lia|].
    split; [intros ? []|]. intros p Hp; discriminate. }
  pose proof (FetchMessages_dispatches (lib w) (net_fetch w) (newClient w cfg)) as Hd.
  destruct (FetchMessages _ _ _) as [fetched ev] eqn:Hf. simpl snd in Hd.
  assert (Hcalls : forall req, In req (requests_of [CallFetchMessages ev]) ->
                    req = stamped (newClient w cfg) (fetchRequest (lib w) (newClient w cfg))
                    /\ Method req = "GET"%string).
  { intros req Hin. simpl in Hin. rewrite app_nil_r in Hin.
    rewrite (Hd req Hin). split; reflexivity. }
  destruct fetched as [result|err]; intros H; inversion H; subst; simpl ack_targets;
    simpl List.length.
  - split; [reflexivity|]. split; [lia|]. split; [exact Hcalls|].
    intros p Hp. inversion Hp; subst. cbn [mcp.rCount mcp.rData].
    split; [reflexivity|]. intros store input.
    unfold mcp.handleCheckMessages. rewrite Ev, Hf.
    fold (CycleSpec.check_limit input).
    destruct (messages.PersistReceived _ _ _ _) as [[n pe] st].
    destruct (0 <? mcp.determineAckID (Some result));
      [destruct (DeleteMessages _ _ _ _) as [ea eva]|];
      eexists; (split; [reflexivity|]); split; reflexivity.
  - split; [reflexivity|]. split; [lia|]. split; [exact Hcalls|].
    intros p Hp; discriminate.
Qed.

(** The sample service holds three unread messages. *)
Lemma unread_resource_only_fetches_witness :
  exists payload,
    fst (mcp.readUnread (push_service DbSpec.no_faults) (Some config_with_defaults))
    = inl payload /\
    mcp.rCount payload = 3.
Proof.
  remember (mcp.readUnread (push_service DbSpec.no_faults) (Some config_with_defaults))
    as res eqn:E.
  destruct res as [[payload|err] calls]; [|vm_compute in E; discriminate].
  symmetry in E.
  destruct (unread_resource_only_fetches _ _ _ _ E) as (_ & _ & _ & Hp).
  destruct (Hp payload eq_refl) as [Hc _].
  exists payload. split; [reflexivity|]. rewrite Hc.
  vm_compute in E. inversion E. reflexivity.
Defined.

Lemma history_limit_effective limit :
  DbSpec.effective_limit (history_limit limit) = history_limit limit.
Proof.
  unfold DbSpec.effective_limit, history_limit.
  destruct (0 <? limit) eqn:E.
  - destruct (limit <=? 0) eqn:E'; [lia | reflexivity].
  - reflexivity.
Qed.

Lemma history_limit_cli limit :
  (if limit <=? 0 then 20 else limit) = history_limit limit.
Proof.
  unfold history_limit. destruct (limit <=? 0) eqn:E, (0 <? limit) eqn:E'; lia.
Qed.

(** A successful query returns at most [history_limit limit] records. *)
Lemma QueryMessages_bound drv store limit since search results s' :
  QueryMessages drv store (history_limit limit) since search = (results, None, s') ->
  Z.of_nat (List.length results) <= history_limit limit.
Proof.
  destruct store as [| |d]; try discriminate. intros H.
  apply DbProps.QueryMessages_success in H. subst results.
  rewrite history_limit_effective. unfold select_messages.
  rewrite length_map.
  pose proof (firstn_le_length (Z.to_nat (history_limit limit))
                (order_by_received_at_desc
                   (filter (where_clause since search) (messages d)))) as Hle.
  assert (0 < history_limit limit)
    by (unfold history_limit; destruct (0 <? limit) eqn:E; lia).
  lia.
Qed.

(** X23.  The three readers of the history agree.  For the same limit,
    date and search text, [push history] and the list_history tool run
    the same query: they leave the store in the same state and return
    the same records or the same error; the limit reported by the tool
    is the one applied (20 when the given one is not positive) and
    bounds the count, which is the number of records.  A date that
    cannot be parsed fails both before the store is touched.  The
    resource [push://history] returns what the tool returns for an
    empty input. *)
Theorem history_readers_agree w parseLocal encode_err store limit sinceStr search asJSON :
  let tool := mcp.handleListHistory w parseLocal store
                (mcp.mkListHistoryInput (Some limit) (Some sinceStr) (Some search)) in
  let run := cli.runHistory w parseLocal encode_err (inl store) limit sinceStr search
                            asJSON in
  (forall e, sinceStr <> ""%string -> parseLocal sinceStr = inr e ->
     tool = (inr (wrapError "invalid since value: " e), store) /\
     run = cli.mkHistoryRun (Some (wrapError "parse --since: " e)) None None) /\
  (sinceStr = ""%string \/ (exists t, parseLocal sinceStr = inl t) ->
     cli.hist_store run = Some (snd tool) /\
     match fst tool with
     | inl out =>
         cli.hist_err run = (if asJSON then encode_err else None) /\
         cli.hist_out run <> None /\
         history_records (cli.hist_out run) = mcp.hMessages out /\
         mcp.hOutLimit out = history_limit limit /\
         mcp.hCount out = Z.of_nat (List.length (mcp.hMessages out)) /\
         mcp.hCount out <= mcp.hOutLimit out
     | inr e => cli.hist_err run = Some e /\ cli.hist_out run = None
     end) /\
  match mcp.readHistory w store,
        mcp.handleListHistory w parseLocal store (mcp.mkListHistoryInput None None None)
  with
  | (inl payload, s1), (inl out, s2) =>
      mcp.rData payload = mcp.hMessages out /\ mcp.rCount payload = mcp.hCount out /\
      s1 = s2
  | (inr e1, s1), (inr e2, s2) => e1 = e2 /\ s1 = s2
  | _, _ => False
  end.
Proof.
  cbn zeta. split; [|split].
  - intros e Hne Hp. apply String.eqb_neq in Hne.
    unfold mcp.handleListHistory, cli.runHistory. cbn [mcp.hSince].
    rewrite Hne, Hp. split; reflexivity.
  - intros Hs. unfold mcp.handleListHistory, cli.runHistory.
    cbn [mcp.hSince mcp.hLimit mcp.hSearch].
    rewrite history_limit_cli. fold (history_limit limit).
    assert (Hsince : exists since,
               (if String.eqb sinceStr ""
                then inl None
                else match parseLocal sinceStr with
                     | inl parsed => inl (Some parsed)
                     | inr err => inr (wrapError "invalid since value: " err)
                     end) = inl since :> option Time.t + error /\
               (if String.eqb sinceStr ""
                then inl None
                else match parseLocal sinceStr with
                     | inl parsed => inl (Some parsed)
                     | inr err => inr (wrapError "parse --since: " err)
                     end) = inl since :> option Time.t + error).
    { destruct (String.eqb sinceStr "") eqn:E; [exists None; auto|].
      destruct Hs as [->|[t Ht]]; [discriminate|]. rewrite Ht. exists (Some t). auto. }
    destruct Hsince as (since & -> & ->).
    destruct (QueryMessages _ _ _ _ _) as [[records err] st] eqn:Hq.
    destruct err as [err|].
    + simpl. auto.
    + apply QueryMessages_bound in Hq.
      destruct asJSON; simpl; (split; [reflexivity|]); (split; [reflexivity|]);
        (split; [discriminate|]); (split; [reflexivity|]); (split; [reflexivity|]);
        (split; [reflexivity|]); exact Hq.
  - unfold mcp.readHistory, mcp.handleListHistory. cbn [mcp.hSince mcp.hLimit mcp.hSearch].
    destruct (QueryMessages _ _ _ _ _) as [[records err] st].
    destruct err; simpl; auto.
Qed.

(** The two stored rows, read with limit 0 and no filter. *)
Lemma history_readers_agree_witness :
  exists out,
    fst (mcp.handleListHistory (push_service DbSpec.no_faults) parse_2024
           (Handle StoreSpec.two_rows_db)
           (mcp.mkListHistoryInput (Some 0) (Some "") (Some ""))) = inl out /\
    mcp.hOutLimit out = 20 /\ mcp.hCount out <= 20.
Proof.
  destruct (history_readers_agree (push_service DbSpec.no_faults) parse_2024 None
              (Handle StoreSpec.two_rows_db) 0 "" "" false) as (_ & H & _).
  specialize (H (or_introl eq_refl)). destruct H as [_ H].
  destruct (fst (mcp.handleListHistory _ _ _ _)) as [out|e] eqn:E;
    [|vm_compute in E; discriminate].
  destruct H as (_ & _ & _ & Hl & _ & Hc).
  exists out. split; [reflexivity|]. rewrite Hl in Hc. split; [exact Hl | exact Hc].
Defined.

(** [ValidateReceive] in terms of the flags of the status resource. *)
Lemma ValidateReceive_flags c :
  config.ValidateReceive (Some c) = None <->
  mcp.has_app_token (mcp.readStatus c) = true /\
  mcp.has_user_key (mcp.readStatus c) = true /\
  mcp.device_configured (mcp.readStatus c) = true.
Proof.
  unfold config.ValidateReceive, config.ValidateSend, mcp.readStatus,
    config.DeviceConfigured.
  cbn [mcp.has_app_token mcp.has_user_key mcp.device_configured].
  destruct (String.eqb (config.AppToken c) ""), (String.eqb (config.UserKey c) ""),
    (String.eqb (config.DeviceID c) ""), (String.eqb (config.DeviceSecret c) "");
    simpl; split; intros H; try discriminate; try reflexivity;
    try (destruct H as (H1 & H2 & H3); discriminate); auto.
Qed.

(** X24.  The warnings of [push mcp] are accurate.  When the server
    starts, configuration and store are present, and the only line on
    the error stream is the start message exactly when the
    configuration passes [ValidateReceive], that is, when the status
    resource reports app token, user key and device as configured.  The
    device warning is printed exactly when the status resource reports
    the device as not configured, and then check_messages and mark_read
    fail for every input without a call on the client and without
    touching the store.  When [ValidateSend] fails its error is printed
    as a warning and send_notification fails with it, in the same
    way. *)
Theorem startup_warnings_predict_tool_failures loaded opened stderr server :
  cli.runMCP loaded opened = (stderr, inl server) ->
  exists c store,
    loaded = inl (Some c) /\ opened = inl store /\ store <> NilStore /\
    server = mcp.mkServer (Some c) store /\
    (stderr = [started] <-> config.ValidateReceive (Some c) = None) /\
    (stderr = [started] <->
       mcp.has_app_token (mcp.readStatus c) = true /\
       mcp.has_user_key (mcp.readStatus c) = true /\
       mcp.device_configured (mcp.readStatus c) = true) /\
    (In device_warning stderr <-> mcp.device_configured (mcp.readStatus c) = false) /\
    (In device_warning stderr ->
     forall w st input messageID,
       (exists e, mcp.handleCheckMessages w (mcp.srv_cfg server) st input
                  = (inr e, st, [])) /\
       (exists e, mcp.handleMarkRead w (mcp.srv_cfg server) messageID = (inr e, []))) /\
    (forall e, config.ValidateSend (Some c) = Some e ->
       In ("warning: " ++ Error e)%string stderr /\
       forall w net st input,
         mcp.handleSendNotification w net (mcp.srv_cfg server) st input = (inr e, st, [])).
Proof.
  unfold cli.runMCP. destruct loaded as [cfg|e0]; [|discriminate].
  destruct opened as [store|e1]; [|discriminate].
  destruct cfg as [c|]; [|discriminate].
  assert (Hstore : store <> NilStore -> mcp.NewServer (Some c) store
                                        = inl (mcp.mkServer (Some c) store))
    by (destruct store; [congruence | reflexivity | reflexivity]).
  destruct store as [| |d] eqn:Est; [discriminate| |];
    (rewrite Hstore by discriminate; clear Hstore; rewrite <- Est;
     intros H; inversion H; subst stderr server; clear H;
     exists c, store; split; [reflexivity|]; split; [rewrite Est; reflexivity|];
     split; [rewrite Est; discriminate|]; split; [reflexivity|];
     pose proof (ValidateReceive_flags c) as Hflags;
     clear Est;
     unfold mcp.handleCheckMessages, mcp.handleMarkRead, mcp.handleSendNotification;
     cbn [mcp.srv_cfg];
     revert Hflags;
     unfold config.ValidateReceive, config.ValidateSend, mcp.readStatus,
       config.DeviceConfigured;
     cbn [mcp.has_app_token mcp.has_user_key mcp.device_configured];
     destruct (String.eqb (config.AppToken c) "") eqn:E1,
       (String.eqb (config.UserKey c) "") eqn:E2,
       (String.eqb (config.DeviceID c) "") eqn:E3,
       (String.eqb (config.DeviceSecret c) "") eqn:E4;
     cbn [negb andb orb app Error]; intros Hflags;
     (split; [split; intros H; try discriminate; try reflexivity;
              try (apply Hflags in H; destruct H as (H1 & H2 & H3); discriminate)|]);
     (split; [split; intros H; try discriminate; try reflexivity; auto;
              try (destruct H as (H1 & H2 & H3); discriminate)|]);
     (split; [split; intros H; try discriminate; try reflexivity;
              try (left; reflexivity); try (right; left; reflexivity);
              try (simpl in H; repeat destruct H as [H|H]; try discriminate H;
                   contradiction)|]);
     (split; [intros H w st input messageID;
              try (simpl in H; repeat destruct H as [H|H]; try discriminate H;
                   contradiction);
              split; eexists; reflexivity|]);
     intros e He; inversion He; subst e; clear He;
     (split; [simpl; auto | intros; reflexivity])).
Qed.

(** A configuration without device credentials: the server starts
    with the device warning, and the status resource agrees. *)
Lemma startup_warnings_predict_tool_failures_witness :
  mcp.device_configured (mcp.readStatus (config.mkConfig "app" "user" "" "" "" 0)) = false.
Proof.
  destruct (startup_warnings_predict_tool_failures
              (inl (Some (config.mkConfig "app" "user" "" "" "" 0)))
              (inl (Handle DbSpec.empty_db))
              [device_warning; started]
              (mcp.mkServer (Some (config.mkConfig "app" "user" "" "" "" 0))
                            (Handle DbSpec.empty_db))
              eq_refl)
    as (c & store & Hc & _ & _ & _ & _ & _ & Hw & _).
  inversion Hc; subst c. apply Hw. left. reflexivity.
Defined.

(** X25.  [push logout] clears the device credentials and nothing
    else.  When it returns nil, the configuration on disk (the one it
    saved, or the loaded one when it saved nothing) has neither device
    identity nor device secret, so that [ValidateReceive] rejects it,
    while app token, user key, default device and default priority are
    those that were loaded and [ValidateSend] answers as before.  It
    saves at most once, and nothing at all exactly when both device
    credentials were already empty. *)
Theorem logout_clears_only_device_credentials save loaded saved out :
  cli.runLogout save loaded = (None, saved, out) ->
  exists cfg,
    loaded = inl cfg /\
    config.DeviceID (on_disk cfg saved) = ""%string /\
    config.DeviceSecret (on_disk cfg saved) = ""%string /\
    config.DeviceConfigured (Some (on_disk cfg saved)) = false /\
    config.ValidateReceive (Some (on_disk cfg saved)) <> None /\
    config.AppToken (on_disk cfg saved) = config.AppToken cfg /\
    config.UserKey (on_disk cfg saved) = config.UserKey cfg /\
    config.DefaultDevice (on_disk cfg saved) = config.DefaultDevice cfg /\
    config.DefaultPriority (on_disk cfg saved) = config.DefaultPriority cfg /\
    config.ValidateSend (Some (on_disk cfg saved)) = config.ValidateSend (Some cfg) /\
    (List.length saved <= 1)%nat /\
    (forall c, In c saved -> save c = None) /\
    (saved = [] <->
     config.DeviceID cfg = ""%string /\ config.DeviceSecret cfg = ""%string).
Proof.
  unfold cli.runLogout. destruct loaded as [cfg|e]; [|discriminate].
  destruct (String.eqb (config.DeviceID cfg) "") eqn:E1;
    destruct (String.eqb (config.DeviceSecret cfg) "") eqn:E2; cbn [andb].
  1: { intros H; inversion H; subst. exists cfg. unfold on_disk. cbn [List.last].
       apply String.eqb_eq in E1, E2.
       split; [reflexivity|]. split; [exact E1|]. split; [exact E2|].
       split; [unfold config.DeviceConfigured; rewrite E1; reflexivity|].
       split; [unfold config.ValidateReceive; rewrite E1;
               destruct (config.ValidateSend (Some cfg)); discriminate|].
       do 5 (split; [reflexivity|]). split; [simpl; lia|].
       split; [intros ? []|]. split; auto. }
  all: destruct (save _) as [e|] eqn:Hsave; [discriminate|];
    intros H; inversion H; subst; exists cfg; unfold on_disk; cbn [List.last];
    cbn [config.DeviceID config.DeviceSecret config.AppToken config.UserKey
         config.DefaultDevice config.DefaultPriority];
    (split; [reflexivity|]); (split; [reflexivity|]); (split; [reflexivity|]);
    (split; [reflexivity|]);
    (split; [unfold config.ValidateReceive, config.ValidateSend;
             cbn [config.DeviceID config.DeviceSecret config.AppToken config.UserKey];
             destruct (String.eqb (config.AppToken cfg) "");
             [discriminate|];
             destruct (String.eqb (config.UserKey cfg) ""); discriminate|]);
    do 5 (split; [reflexivity|]); (split; [simpl; lia|]);
    (split; [intros c [<-|[]]; exact Hsave|]);
    (split; [discriminate|]);
    intros [H1 H2]; apply String.eqb_neq in E1 || apply String.eqb_neq in E2;
    contradiction.
Qed.

(** Logging out of the sample configuration. *)
Lemma logout_clears_only_device_credentials_witness :
  exists cfg,
    fst (fst (cli.runLogout (fun _ => None) (inl config_with_defaults))) = None /\
    snd (fst (cli.runLogout (fun _ => None) (inl config_with_defaults))) = [cfg] /\
    config.ValidateReceive (Some cfg) <> None /\
    config.ValidateSend (Some cfg) = None.
Proof.
  destruct (logout_clears_only_device_credentials (fun _ => None)
              (inl config_with_defaults)
              [config.mkConfig "app" "user" "" "" "phone" 1] [cli.CredentialsRemoved]
              eq_refl)
    as (cfg & Hc & _ & _ & _ & Hr & _ & _ & _ & _ & Hs & _).
  inversion Hc; subst cfg.
  exists (config.mkConfig "app" "user" "" "" "phone" 1).
  split; [reflexivity|]. split; [reflexivity|]. split; [exact Hr | exact Hs].
Defined.

(** A login that succeeds returns a secret. *)
Lemma Login_secret lib net c email password code resp tr :
  Login lib net c email password code = (inl resp, tr) -> lSecret resp <> ""%string.
Proof.
  unfold Login.
  destruct (String.eqb email "" || String.eqb password ""); [discriminate|].
  destruct (do net c _ defaultRequestAttempts) as [[r|e] tr0]; [|discriminate].
  destruct (400 <=? StatusCode r); [discriminate|].
  destruct (decodeLogin lib (Body r)) as [p|e]; [|discriminate].
  destruct (String.eqb (lSecret p) "") eqn:Hs; [discriminate|].
  intros H. inversion H; subst. apply String.eqb_neq. exact Hs.
Qed.

Lemma performLogin_secret lib net1 net2 asked c email password resp trs :
  cli.performLogin lib net1 net2 asked c email password = (inl resp, trs) ->
  lSecret resp <> ""%string.
Proof.
  unfold cli.performLogin.
  destruct (Login lib net1 c email password "") as [[r1|e1] tr1] eqn:H1.
  - intros H. inversion H; subst. eapply Login_secret. exact H1.
  - destruct (IsTwoFactorRequired e1); [|discriminate].
    destruct asked as [code|pe]; [|discriminate].
    destruct (Login lib net2 c email password code) as [r2 tr2] eqn:H2.
    intros H. inversion H; subst. eapply Login_secret. exact H2.
Qed.

(** A registration that succeeds was given a secret and a name. *)
Lemma RegisterDevice_name lib net c secret name registration tr :
  RegisterDevice lib net c secret name = (inl registration, tr) ->
  secret <> ""%string /\ name <> ""%string.
Proof.
  unfold RegisterDevice.
  destruct (String.eqb secret "") eqn:E1; [discriminate|].
  destruct (String.eqb name "") eqn:E2; [discriminate|].
  intros _. apply String.eqb_neq in E1, E2. auto.
Qed.

(** X26.  What [push login] stores.  When it returns nil it saved
    once, successfully, a configuration that holds: the app token and
    the user key as the prompts returned them (a prompt offers the
    stored value as default); as device secret the secret of the
    login, which is not empty; as device identity the identity of the
    registration, else its name, else the identity stored before; a
    default device that is not empty (the stored one, else the device
    name, which the registration requires); and the default priority
    stored before.  This configuration passes [ValidateReceive] exactly
    when its app token, user key and device identity are not empty.
    When it returns an error, no save succeeded. *)
Theorem login_stores_what_was_obtained lib goos net1 net2 net_reg prom save loaded
        deviceName :
  let run := cli.runLogin lib goos net1 net2 net_reg prom save loaded deviceName in
  let base := login_base loaded in
  (cli.login_err run = None ->
   exists cfg' registration tr,
     cli.login_saved run = [cfg'] /\ save cfg' = None /\
     cli.Ask prom "Pushover app token" (config.AppToken base)
     = inl (config.AppToken cfg') /\
     cli.Ask prom "Pushover user key" (config.UserKey base)
     = inl (config.UserKey cfg') /\
     config.DeviceSecret cfg' <> ""%string /\
     RegisterDevice lib net_reg
                    (NewClient goos (config.AppToken cfg') (config.UserKey cfg') "" "")
                    (config.DeviceSecret cfg') deviceName = (inl registration, tr) /\
     config.DeviceID cfg'
     = (if negb (String.eqb (dID registration) "") then dID registration
        else if negb (String.eqb (dName registration) "") then dName registration
             else config.DeviceID base) /\
     config.DefaultDevice cfg' <> ""%string /\
     (config.DefaultDevice base <> ""%string ->
      config.DefaultDevice cfg' = config.DefaultDevice base) /\
     config.DefaultPriority cfg' = config.DefaultPriority base /\
     (config.ValidateReceive (Some cfg') = None <->
      config.AppToken cfg' <> ""%string /\ config.UserKey cfg' <> ""%string /\
      config.DeviceID cfg' <> ""%string)) /\
  (forall e, cli.login_err run = Some e ->
     forall c, In c (cli.login_saved run) -> save c = Some e).
Proof.
  cbn zeta. unfold cli.runLogin.
  destruct loaded as [cfg|e0]; [|simpl; split; [discriminate | intros ? _ ? []]].
  assert (Hbase : match config.Clone cfg with
                  | Some c => c
                  | None => config.mkConfig "" "" "" "" "" 0
                  end = login_base (inl cfg))
    by (destruct cfg as [[]|]; reflexivity).
  rewrite Hbase. clear Hbase. remember (login_base (inl cfg)) as base eqn:Eb. clear Eb.
  destruct (cli.Ask prom "Pushover app token" (config.AppToken base)) as [appToken|e]
    eqn:Ha; [|simpl; split; [discriminate | intros ? _ ? []]].
  destruct (cli.Ask prom "Pushover user key" (config.UserKey base)) as [userKey|e]
    eqn:Hu; [|simpl; split; [discriminate | intros ? _ ? []]].
  destruct (cli.Ask prom "Email" "") as [email|e];
    [|simpl; split; [discriminate | intros ? _ ? []]].
  destruct (cli.AskSecret prom "Password") as [password|e];
    [|simpl; split; [discriminate | intros ? _ ? []]].
  destruct (cli.performLogin _ _ _ _ _ _ _) as [[loginResp|e] traces] eqn:Hlogin;
    [|simpl; split; [discriminate | intros ? _ ? []]].
  apply performLogin_secret in Hlogin.
  destruct (RegisterDevice _ _ _ _ _) as [[deviceResp|e] tr] eqn:Hreg;
    [|simpl; split; [discriminate | intros ? _ ? []]].
  destruct (RegisterDevice_name _ _ _ _ _ _ _ Hreg) as [_ Hname].
  cbn [cli.login_err cli.login_saved].
  split.
  - intros Hsave. eexists. exists deviceResp, tr.
    split; [reflexivity|]. split; [exact Hsave|].
    cbn [config.AppToken config.UserKey config.DeviceID config.DeviceSecret
         config.DefaultDevice config.DefaultPriority].
    split; [reflexivity|]. split; [reflexivity|]. split; [exact Hlogin|].
    split; [exact Hreg|]. split; [reflexivity|].
    split; [|split; [|split; [reflexivity|]]].
    + destruct (String.eqb (config.DefaultDevice base) "") eqn:Ed; cbn [andb].
      * apply String.eqb_neq in Hname. rewrite Hname. cbn [negb].
        apply String.eqb_neq. exact Hname.
      * apply String.eqb_neq. exact Ed.
    + intros Hd. apply String.eqb_neq in Hd. rewrite Hd. reflexivity.
    + unfold config.ValidateReceive, config.ValidateSend.
      cbn [config.AppToken config.UserKey config.DeviceID config.DeviceSecret].
      apply String.eqb_neq in Hlogin. rewrite Hlogin. rewrite Bool.orb_false_r.
      destruct (String.eqb appToken "") eqn:E1.
      { split; [discriminate|]. intros (H & _). apply String.eqb_eq in E1. contradiction. }
      destruct (String.eqb userKey "") eqn:E2.
      { split; [discriminate|]. intros (_ & H & _). apply String.eqb_eq in E2.
        contradiction. }
      apply String.eqb_neq in E1, E2.
      match goal with
      | |- context [String.eqb ?x ""] => destruct (String.eqb x "") eqn:E3
      end.
      { split; [discriminate|]. intros (_ & _ & H). apply String.eqb_eq in E3.
        contradiction. }
      apply String.eqb_neq in E3. split; auto.
  - intros e He c [<-|[]]. exact He.
Qed.

(** A first login on the sample service: the registration returns the
    identity [dev-1], which is stored with the secret. *)
Lemma login_stores_what_was_obtained_witness :
  exists cfg',
    cli.login_saved (cli.runLogin (lib (push_service DbSpec.no_faults)) "linux"
                                  ok_net ok_net ok_net sample_prompts (fun _ => None)
                                  (inl None) "push-cli") = [cfg'] /\
    config.DeviceSecret cfg' <> ""%string /\
    config.DefaultDevice cfg' <> ""%string.
Proof.
  destruct (login_stores_what_was_obtained (lib (push_service DbSpec.no_faults)) "linux"
              ok_net ok_net ok_net sample_prompts (fun _ => None) (inl None) "push-cli")
    as [H _].
  destruct (H eq_refl) as (cfg' & registration & tr & Hs & _ & _ & _ & Hsec & _ & _ & Hd & _).
  exists cfg'. auto.
Defined.

(** X27.  [push messages] and the check_messages tool run the same
    ingestion cycle.  For the same configuration, store and limit they
    make the same calls on the client, in the same order and with the
    same acknowledgment cursor; one fails exactly when the other does,
    with the same error, and then [push messages] has not used the
    store; otherwise the command prints the messages the tool returns
    and both leave the store in the same state.  A run of the command
    without a line on the error stream is a run in which the tool
    reports no storage warning. *)
Theorem messages_command_and_tool_agree w cfg store limit :
  let run := cli.runMessages w (inl cfg) (inl store) limit in
  let tool := mcp.handleCheckMessages w cfg store (mcp.mkCheckMessagesInput (Some limit)) in
  cli.calls run = snd tool /\
  match fst (fst tool) with
  | inl out =>
      cli.run_err run = None /\
      cli.printed run = mcp.OutMessages out /\
      cli.store_after run = Some (snd (fst tool)) /\
      (cli.stderr run = [] -> mcp.Warning out = ""%string)
  | inr e =>
      cli.run_err run = Some e /\ cli.printed run = [] /\ cli.stderr run = [] /\
      cli.store_after run = None /\ snd (fst tool) = store
  end.
Proof.
  cbn zeta. unfold cli.runMessages, mcp.handleCheckMessages, cli.highestMessageID,
    mcp.determineAckID. cbn [mcp.Limit].
  destruct (config.ValidateReceive cfg);
    [simpl; repeat (split; [reflexivity|]); reflexivity|].
  destruct (FetchMessages _ _ _) as [[result|e] ev];
    [|simpl; repeat (split; [reflexivity|]); reflexivity].
  assert (Hl : (if limit <=? 0 then 10 else limit) = (if 0 <? limit then limit else 10))
    by (destruct (limit <=? 0) eqn:E, (0 <? limit) eqn:E'; lia).
  rewrite Hl.
  destruct (messages.PersistReceived _ _ _ _) as [[n pe] st].
  match goal with
  | |- context [if 0 <? ?a then _ else _] =>
      match a with
      | (if _ then _ else _) => destruct (0 <? a)
      end
  end;
    [destruct (DeleteMessages _ _ _ _) as [ea eva]|];
    cbn [fst snd cli.calls cli.run_err cli.printed cli.store_after cli.stderr
         mcp.OutMessages mcp.Warning];
    (split; [reflexivity|]); (split; [reflexivity|]); (split; [reflexivity|]);
    (split; [reflexivity|]);
    destruct pe as [pe|]; try reflexivity; intros H;
    apply (f_equal (@List.length string)) in H; simpl in H; discriminate.
Qed.

(** The sample service, limit 2: the command prints what the tool
    returns. *)
Lemma messages_command_and_tool_agree_witness :
  List.length (cli.printed (cli.runMessages (push_service DbSpec.no_faults)
                                            (inl (Some config_with_defaults))
                                            (inl (Handle DbSpec.empty_db)) 2)) = 2%nat.
Proof.
  destruct (messages_command_and_tool_agree (push_service DbSpec.no_faults)
              (Some config_with_defaults) (Handle DbSpec.empty_db) 2) as [_ H].
  destruct (fst (fst (mcp.handleCheckMessages _ _ _ _))) as [out|e] eqn:E;
    [|vm_compute in E; discriminate].
  destruct H as (_ & -> & _). vm_compute in E. inversion E. reflexivity.
Defined.

End EntryProps.
